(** * Synchronizing zoom and selection between dygraphs

    A shallow embedding of
    [frontend/src/components/general/Chart/DyPlugins/synchronize.js]:
    the factory [synchronize], the readiness barrier, the capture of the
    previous callbacks, the draw / highlight / unhighlight handlers that
    [attachZoomHandlers] and [attachSelectionHandlers] install, and
    [detach].

    The JavaScript is single threaded and every callback runs
    synchronously, so the program is modelled by explicit state passing
    over a [world]: the heap of Dygraph instances, the variables of the
    closure that one call of [synchronize] creates, the two [block] flags,
    and the trace of the calls made on the charts.  A thrown exception is
    an outcome next to a normal return, and the world at the moment of the
    throw is kept.

    Conventions of the model:
    - numbers are integers ([Z]); NaN and fractions play no role in the
      code (window bounds are only compared with [!==]);
    - the [length] of an array-like first argument is compared with the
      loop index as a number; when that length is a string, an array or
      an object the comparison needs the engine's conversion of a string
      or an object to a number, which the model does not describe: the
      argument check then ends in [OutsideModel], and no statement is
      made about such a call;
    - a callback supplied by the application ([UserFn]) is opaque: calling
      it is recorded in the trace and has no other effect;
    - the Dygraph library is not part of the file; its operations follow
      the contract the code relies on: [ready], [getFunctionOption],
      [getOption], [updateOptions] (which redraws, and so fires the draw
      callback, unless its second argument is true), [xAxisRange],
      [yAxisRange], [getRowForX], [setSelection], [clearSelection]. *)

From stdpp Require Import base numbers list strings.
From Stdlib Require Import DecimalString.

Set Warnings "-register-all".

Open Scope Z_scope.

(** ** JavaScript values that reach [synchronize] *)

(** Dygraph instances are named by their position in the heap. *)
Abbreviation gid := nat (only parsing).

(** A plain object [VObject] is the list of its own properties, by name;
    a name is looked up from the front. *)
Inductive value :=
| VUndefined
| VNull
| VBool (b : bool)
| VNum (n : Z)
| VStr (s : string)
| VDygraph (g : gid)
| VArray (elems : list value)
| VObject (props : list (string * value)).

Definition truthy (v : value) : bool :=
  match v with
  | VUndefined | VNull => false
  | VBool b => b
  | VNum n => negb (n =? 0)
  | VStr s => negb (String.length s =? 0)%nat
  | VDygraph _ | VArray _ | VObject _ => true
  end.

(** [v instanceof Dygraph] *)
Definition instanceof_Dygraph (v : value) : bool :=
  match v with VDygraph _ => true | _ => false end.

(** [v instanceof Object] *)
Definition instanceof_Object (v : value) : bool :=
  match v with VDygraph _ | VArray _ | VObject _ => true | _ => false end.

Fixpoint assoc (k : string) (props : list (string * value)) : option value :=
  match props with
  | [] => None
  | (k', v) :: rest => if String.eqb k k' then Some v else assoc k rest
  end.

(** [obj.hasOwnProperty(name)] followed by [obj[name]], for the option
    names (none of which is an index or [length]). *)
Definition own_property (obj : value) (name : string) : option value :=
  match obj with
  | VObject props => assoc name props
  | _ => None
  end.

Fixpoint chars (s : string) : list value :=
  match s with
  | EmptyString => []
  | String c rest => VStr (String c EmptyString) :: chars rest
  end.

(** What a thrown value is: one of the strings of the file, or the
    engine's TypeError (a property read on null or undefined, a call of
    something that is not a function).  The last two are not JavaScript
    exceptions: [OutOfFuel] marks a model run whose recursion bound was too
    small, and [OutsideModel] a call whose behaviour depends on a conversion
    of a string or an object to a number. *)
Inductive exn :=
| ThrowString (msg : string)
| TypeError
| OutOfFuel
| OutsideModel.

(** The name of the property at index [i]: its decimal digits. *)
Definition index_name (i : nat) : string :=
  NilZero.string_of_uint (Nat.to_uint i).

(** [v.length]: reading it on null or undefined throws; a number, a
    boolean and a Dygraph have none; a plain object has the one it owns. *)
Definition get_length (v : value) : exn + value :=
  match v with
  | VUndefined | VNull => inl TypeError
  | VStr s => inr (VNum (Z.of_nat (length (chars s))))
  | VArray l => inr (VNum (Z.of_nat (length l)))
  | VObject props => inr (default VUndefined (assoc "length" props))
  | VBool _ | VNum _ | VDygraph _ => inr VUndefined
  end.

(** [v[i]] *)
Definition get_index (v : value) (i : nat) : value :=
  match v with
  | VStr s => default VUndefined (chars s !! i)
  | VArray l => default VUndefined (l !! i)
  | VObject props => default VUndefined (assoc (index_name i) props)
  | _ => VUndefined
  end.

(** The number of turns of [for (i = 0; i < len; i++)]: the comparison
    takes [len] as a number ([true] is 1, [false] and null are 0, undefined
    is NaN).  [None]: [len] is a string, an array or an object. *)
Definition turns (len : value) : option nat :=
  match len with
  | VNum n => Some (Z.to_nat n)
  | VBool b => Some (if b then 1%nat else 0%nat)
  | VNull | VUndefined => Some 0%nat
  | VStr _ | VDygraph _ | VArray _ | VObject _ => None
  end.

(** Lines 88-92: the test of [arguments[0].length] and the loop that
    pushes [arguments[0][i]] for every index below the length.  [None]:
    the length is falsy, so the branch is not taken. *)
Definition length_of (v : value) : exn + option (list value) :=
  match get_length v with
  | inl e => inl e
  | inr len =>
    if truthy len then
      match turns len with
      | Some k => inr (Some (get_index v <$> seq 0 k))
      | None => inl OutsideModel
      end
    else inr None
  end.

(** ** Options *)

Record options := Options {
  selection : value;
  zoom : value;
  range : value;
}.

Definition default_opts : options :=
  {| selection := VBool true; zoom := VBool true; range := VBool true |}.

Definition msg_need_argument : string :=
  "Invalid invocation of Dygraph.synchronize(). Need >= 1 argument.".
Definition msg_last_argument : string :=
  "Last argument must be either Dygraph or Object.".
Definition msg_all_but_last : string :=
  "Invalid invocation of Dygraph.synchronize(). All but the last argument must be Dygraph objects.".
Definition msg_two_arguments : string :=
  "Invalid invocation of Dygraph.synchronize(). Expected two arguments: array and optional options argument.".
Definition msg_first_parameter : string :=
  "Invalid invocation of Dygraph.synchronize(). First parameter must be either Dygraph or list of Dygraphs.".
Definition msg_two_or_more : string :=
  "Invalid invocation of Dygraph.synchronize(). Need two or more dygraphs to synchronize.".

(** [parseOpts]: the three names of [OPTIONS], in order, overlay [opts]. *)
Definition parseOpts (obj : value) (opts : options) : exn + options :=
  if negb (instanceof_Object obj) then inl (ThrowString msg_last_argument)
  else
    let o1 := match own_property obj "selection" with
              | Some v => {| selection := v; zoom := zoom opts; range := range opts |}
              | None => opts end in
    let o2 := match own_property obj "zoom" with
              | Some v => {| selection := selection o1; zoom := v; range := range o1 |}
              | None => o1 end in
    let o3 := match own_property obj "range" with
              | Some v => {| selection := selection o2; zoom := zoom o2; range := v |}
              | None => o2 end in
    inr o3.

(** The first loop of the Dygraph branch: push while the argument is a
    Dygraph, stop at the first one that is not. *)
Fixpoint leading_dygraphs (args : list value) : list value :=
  match args with
  | [] => []
  | a :: rest => if instanceof_Dygraph a then a :: leading_dygraphs rest else []
  end.

(** Lines 50-107 of [synchronize]: everything before the first chart is
    used.  The result is the array [dygraphs] and the object [opts]. *)
Definition collect (arguments : list value) : exn + (list value * options) :=
  match arguments with
  | [] => inl (ThrowString msg_need_argument)
  | a0 :: _ =>
    let n := Z.of_nat (length arguments) in
    let parsed :=
      if instanceof_Dygraph a0 then
        let dygraphs := leading_dygraphs arguments in
        let i := Z.of_nat (length dygraphs) in
        if i <? n - 1 then inl (ThrowString msg_all_but_last)
        else if i =? n - 1 then
          match parseOpts (default VUndefined (last arguments)) default_opts with
          | inl e => inl e
          | inr o => inr (dygraphs, o)
          end
        else inr (dygraphs, default_opts)
      else
        match length_of a0 with
        | inl e => inl e
        | inr (Some dygraphs) =>
          if n =? 2 then
            match parseOpts (default VUndefined (arguments !! 1%nat)) default_opts with
            | inl e => inl e
            | inr o => inr (dygraphs, o)
            end
          else if n >? 2 then inl (ThrowString msg_two_arguments)
          else inr (dygraphs, default_opts)
        | inr None => inl (ThrowString msg_first_parameter)
        end
    in
    match parsed with
    | inl e => inl e
    | inr (dygraphs, o) =>
      if (length dygraphs <? 2)%nat then inl (ThrowString msg_two_or_more)
      else inr (dygraphs, o)
    end
  end.

(** ** Charts, callbacks and the world *)

(** A function that can sit in a callback slot: one the application
    supplied, or one of the closures the attach functions create (the
    index is the position [i] of the chart it was created for). *)
Inductive callback :=
| UserFn (f : nat)
| SyncDraw (i : nat)
| SyncHighlight (i : nat)
| SyncUnhighlight (i : nat).

Inductive hook := HDraw | HHighlight | HUnhighlight.

(** The state of a Dygraph instance that the file reads or writes.  An
    absent callback is [None]. *)
Record chart := Chart {
  is_initial_draw : bool;
  readyFns : nat;
  drawCallback : option callback;
  highlightCallback : option callback;
  unhighlightCallback : option callback;
  dateWindow : option (list Z);
  valueRange : option (list Z);
  xAxisRange : list Z;
  yAxisRange : list Z;
  rawX : list Z;
  selected : option (nat * value);
}.

(** The object literal handed to [updateOptions]: a key is present or not. *)
Record patch := Patch {
  p_drawCallback : option (option callback);
  p_highlightCallback : option (option callback);
  p_unhighlightCallback : option (option callback);
  p_dateWindow : option (list Z);
  p_valueRange : option (list Z);
}.

(** One entry of [prevCallbacks]. *)
Record snapshot := Snapshot {
  s_drawCallback : option callback;
  s_highlightCallback : option callback;
  s_unhighlightCallback : option callback;
}.

Definition empty_snapshot : snapshot := Snapshot None None None.

Inductive event :=
| EvReady (g : gid)
| EvGetFunctionOption (g : gid) (name : hook)
| EvUpdateOptions (g : gid) (p : patch) (block_redraw : bool)
| EvSetSelection (g : gid) (row : nat) (seriesName : value)
| EvClearSelection (g : gid)
| EvCall (f : nat) (this : value) (arguments : list value).

(** The variables captured by the handlers of [attachZoomHandlers]. *)
Record zoom_closure := ZoomClosure {
  z_gs : list value;
  z_syncOpts : options;
  z_prevCallbacks : option (list (option snapshot));
  z_block : bool;
}.

(** The variables captured by the handlers of [attachSelectionHandlers]. *)
Record selection_closure := SelectionClosure {
  s_gs : list value;
  s_prevCallbacks : option (list (option snapshot));
  s_block : bool;
}.

(** [dygraphs], [opts] and [prevCallbacks] are the variables of
    [synchronize]; [None] is null.  The arrays they point to are not changed
    after the attach functions have received them, so the closures hold
    them by value ([prevCallbacks] as the variable's value, null
    included). *)
Record world := World {
  heap : list chart;
  dygraphs : option (list value);
  opts : option options;
  prevCallbacks : option (list (option snapshot));
  readycount : Z;
  zoomH : option zoom_closure;
  selH : option selection_closure;
  trace : list event;
}.

Definition set_heap (h : list chart) (w : world) : world :=
  World h (dygraphs w) (opts w) (prevCallbacks w) (readycount w) (zoomH w) (selH w) (trace w).
Definition set_dygraphs (d : option (list value)) (w : world) : world :=
  World (heap w) d (opts w) (prevCallbacks w) (readycount w) (zoomH w) (selH w) (trace w).
Definition set_opts (o : option options) (w : world) : world :=
  World (heap w) (dygraphs w) o (prevCallbacks w) (readycount w) (zoomH w) (selH w) (trace w).
Definition set_prevCallbacks (p : option (list (option snapshot))) (w : world) : world :=
  World (heap w) (dygraphs w) (opts w) p (readycount w) (zoomH w) (selH w) (trace w).
Definition set_readycount (n : Z) (w : world) : world :=
  World (heap w) (dygraphs w) (opts w) (prevCallbacks w) n (zoomH w) (selH w) (trace w).
Definition set_zoomH (z : option zoom_closure) (w : world) : world :=
  World (heap w) (dygraphs w) (opts w) (prevCallbacks w) (readycount w) z (selH w) (trace w).
Definition set_selH (s : option selection_closure) (w : world) : world :=
  World (heap w) (dygraphs w) (opts w) (prevCallbacks w) (readycount w) (zoomH w) s (trace w).
Definition set_trace (t : list event) (w : world) : world :=
  World (heap w) (dygraphs w) (opts w) (prevCallbacks w) (readycount w) (zoomH w) (selH w) t.

(** A page before [synchronize] is called. *)
Definition page (charts : list chart) : world :=
  World charts None None None 0 None None [].

(** ** Computations: state, and a normal return or a throw *)

Inductive outcome (A : Type) :=
| Ret (a : A)
| Throw (e : exn).
Arguments Ret {A} a.
Arguments Throw {A} e.

Definition M (A : Type) : Type := world → outcome A * world.

Definition ret {A} (a : A) : M A := λ w, (Ret a, w).
Definition throw {A} (e : exn) : M A := λ w, (Throw e, w).
Definition bind {A B} (m : M A) (k : A → M B) : M B :=
  λ w, match m w with
       | (Ret a, w') => k a w'
       | (Throw e, w') => (Throw e, w')
       end.

Notation "x <- m ;; k" := (bind m (λ x, k))
  (at level 100, m at next level, k at level 200, right associativity).
Notation "m ;;; k" := (bind m (λ _, k))
  (at level 100, k at level 200, right associativity).

Definition gets {A} (f : world → A) : M A := λ w, (Ret (f w), w).
Definition modify (f : world → world) : M unit := λ w, (Ret tt, f w).
Definition emit (e : event) : M unit := modify (λ w, set_trace (trace w ++ [e]) w).

(** A variable that holds null cannot be indexed or dereferenced. *)
Definition deref {A} (f : world → option A) : M A :=
  λ w, match f w with Some a => (Ret a, w) | None => (Throw TypeError, w) end.

Definition get_chart (g : gid) : M chart := deref (λ w, heap w !! g).
Definition modify_chart (g : gid) (f : chart → chart) : M unit :=
  modify (λ w, set_heap (alter f g (heap w)) w).

(** One more function in the queue of [ready]. *)
Definition queue_ready (c : chart) : chart :=
  Chart (is_initial_draw c) (S (readyFns c))
    (drawCallback c) (highlightCallback c) (unhighlightCallback c)
    (dateWindow c) (valueRange c) (xAxisRange c) (yAxisRange c)
    (rawX c) (selected c).

(** The receiver of a Dygraph method: anything else has no such method. *)
Definition as_dygraph (v : value) : M gid :=
  match v with
  | VDygraph g => _ <- get_chart g ;; ret g
  | _ => throw TypeError
  end.

(** [for (let j = 0; j < l.length; j++) body(j, l[j])] over an array that
    the body does not change. *)
Fixpoint for_each {A} (body : nat → A → M unit) (j : nat) (l : list A) : M unit :=
  match l with
  | [] => ret tt
  | x :: rest => body j x ;;; for_each body (S j) rest
  end.

(** [a[j] = v] on a JavaScript array: writing past the end extends it,
    leaving holes. *)
Definition array_set {A} (j : nat) (v : A) (a : list (option A)) : list (option A) :=
  if (j <? length a)%nat then <[j := Some v]> a
  else a ++ replicate (j - length a) None ++ [Some v].

(** [arraysAreEqual]; a value that is not an array is [None]. *)
Fixpoint arrays_agree_below (i : nat) (a b : list Z) : bool :=
  match i with
  | O => true
  | S i' =>
    match a !! i', b !! i' with
    | Some x, Some y => if negb (x =? y) then false else arrays_agree_below i' a b
    | _, _ => false
    end
  end.

Definition arraysAreEqual (a b : option (list Z)) : bool :=
  match a, b with
  | Some a, Some b =>
    let i := length a in
    if negb (i =? length b)%nat then false else arrays_agree_below i a b
  | _, _ => false
  end.

(** ** The Dygraph operations the file calls *)

Definition arg (n : nat) (arguments : list value) : value :=
  default VUndefined (arguments !! n).

(** [a == b] where one side is a chart: two references to the same
    instance.  The handlers compare the chart that fired with the elements
    of the group, and no element that is not a Dygraph survives the
    [ready] calls of [synchronize]. *)
Definition same_object (a b : value) : bool :=
  match a, b with
  | VDygraph g, VDygraph g' => (g =? g')%nat
  | _, _ => false
  end.

Definition apply_patch (p : patch) (c : chart) : chart :=
  {| is_initial_draw := is_initial_draw c;
     readyFns := readyFns c;
     drawCallback := default (drawCallback c) (p_drawCallback p);
     highlightCallback := default (highlightCallback c) (p_highlightCallback p);
     unhighlightCallback := default (unhighlightCallback c) (p_unhighlightCallback p);
     dateWindow := match p_dateWindow p with Some d => Some d | None => dateWindow c end;
     valueRange := match p_valueRange p with Some r => Some r | None => valueRange c end;
     xAxisRange := default (xAxisRange c) (p_dateWindow p);
     yAxisRange := default (yAxisRange c) (p_valueRange p);
     rawX := rawX c;
     selected := selected c |}.

Definition get_xAxisRange (v : value) : M (list Z) :=
  g <- as_dygraph v ;; c <- get_chart g ;; ret (xAxisRange c).

Definition get_yAxisRange (v : value) : M (list Z) :=
  g <- as_dygraph v ;; c <- get_chart g ;; ret (yAxisRange c).

(** [getOption("dateWindow")] and [getOption("valueRange")] *)
Definition getOption_dateWindow (v : value) : M (option (list Z)) :=
  g <- as_dygraph v ;; c <- get_chart g ;; ret (dateWindow c).

Definition getOption_valueRange (v : value) : M (option (list Z)) :=
  g <- as_dygraph v ;; c <- get_chart g ;; ret (valueRange c).

Definition slot (name : hook) (c : chart) : option callback :=
  match name with
  | HDraw => drawCallback c
  | HHighlight => highlightCallback c
  | HUnhighlight => unhighlightCallback c
  end.

Definition getFunctionOption (v : value) (name : hook) : M (option callback) :=
  g <- as_dygraph v ;;
  emit (EvGetFunctionOption g name) ;;;
  c <- get_chart g ;;
  ret (slot name c).

Fixpoint row_from (i : nat) (x : Z) (xs : list Z) : option nat :=
  match xs with
  | [] => None
  | y :: rest => if x =? y then Some i else row_from (S i) x rest
  end.

(** [getRowForX(x)]: the first row whose x value is [x], or null. *)
Definition getRowForX (v : value) (x : value) : M (option nat) :=
  g <- as_dygraph v ;; c <- get_chart g ;;
  ret (match x with VNum n => row_from 0 n (rawX c) | _ => None end).

Definition with_selected (s : option (nat * value)) (c : chart) : chart :=
  {| is_initial_draw := is_initial_draw c; readyFns := readyFns c;
     drawCallback := drawCallback c; highlightCallback := highlightCallback c;
     unhighlightCallback := unhighlightCallback c;
     dateWindow := dateWindow c; valueRange := valueRange c;
     xAxisRange := xAxisRange c; yAxisRange := yAxisRange c;
     rawX := rawX c; selected := s |}.

Definition setSelection (v : value) (row : nat) (seriesName : value) : M unit :=
  g <- as_dygraph v ;;
  emit (EvSetSelection g row seriesName) ;;;
  modify_chart g (with_selected (Some (row, seriesName))).

Definition clearSelection (v : value) : M unit :=
  g <- as_dygraph v ;;
  emit (EvClearSelection g) ;;;
  modify_chart g (with_selected None).

Definition set_z_block (b : bool) : M unit :=
  modify (λ w, set_zoomH
    ((λ z, ZoomClosure (z_gs z) (z_syncOpts z) (z_prevCallbacks z) b) <$> zoomH w) w).

Definition set_s_block (b : bool) : M unit :=
  modify (λ w, set_selH
    ((λ s, SelectionClosure (s_gs s) (s_prevCallbacks s) b) <$> selH w) w).

(** ** The handlers, [detach] and the barrier

    A handler calls chart operations that call handlers again
    ([updateOptions] redraws, the redraw fires the draw callback), so the
    bodies are written over the function [call] that runs a callback; the
    knot is tied below by recursion on a bound. *)

Section Handlers.

Variable call : callback → value → list value → M unit.

(** What a chart does when it redraws after its first render: it calls
    its draw callback with itself and [false]. *)
Definition redraw (g : gid) : M unit :=
  c <- get_chart g ;;
  match drawCallback c with
  | Some cb => call cb (VDygraph g) [VDygraph g; VBool false]
  | None => ret tt
  end.

Definition updateOptions (v : value) (p : patch) (block_redraw : bool) : M unit :=
  g <- as_dygraph v ;;
  emit (EvUpdateOptions g p block_redraw) ;;;
  modify_chart g (apply_patch p) ;;;
  if block_redraw then ret tt else redraw g.

(** [prevCallbacks[j] && prevCallbacks[j].f && prevCallbacks[j].f.apply(this, arguments)] *)
Definition call_previous (prevCallbacks : option (list (option snapshot))) (j : nat)
    (f : snapshot → option callback) (this : value) (arguments : list value) : M unit :=
  prev <- deref (λ _, prevCallbacks) ;;
  match prev !! j with
  | Some (Some s) =>
    match f s with
    | Some cb => call cb this arguments
    | None => ret tt
    end
  | _ => ret tt
  end.

(** One turn of the loop of the draw handler. *)
Definition zoom_propagate (z : zoom_closure) (opts : patch)
    (this : value) (arguments : list value) (j : nat) (gj : value) : M unit :=
  let me := arg 0 arguments in
  if same_object gj me then
    call_previous (z_prevCallbacks z) j s_drawCallback this arguments
  else
    dw <- getOption_dateWindow gj ;;
    same <- (if arraysAreEqual (p_dateWindow opts) dw
             then vr <- getOption_valueRange gj ;; ret (arraysAreEqual (p_valueRange opts) vr)
             else ret false) ;;
    if same then ret tt else updateOptions gj opts false.

(** The [drawCallback(me, initial)] of [attachZoomHandlers]. *)
Definition zoom_drawCallback (this : value) (arguments : list value) : M unit :=
  let me := arg 0 arguments in
  let initial := arg 1 arguments in
  z <- deref zoomH ;;
  if z_block z || truthy initial then ret tt
  else
    set_z_block true ;;;
    xr <- get_xAxisRange me ;;
    yr <- (if truthy (range (z_syncOpts z))
           then r <- get_yAxisRange me ;; ret (Some r)
           else ret None) ;;
    let opts := Patch None None None (Some xr) yr in
    for_each (zoom_propagate z opts this arguments) 0 (z_gs z) ;;;
    set_z_block false.

(** One turn of the loop of the highlight handler. *)
Definition highlight_propagate (s : selection_closure)
    (this : value) (arguments : list value) (i : nat) (gi : value) : M unit :=
  let x := arg 1 arguments in
  let seriesName := arg 4 arguments in
  if same_object this gi then
    call_previous (s_prevCallbacks s) i s_highlightCallback this arguments
  else
    idx <- getRowForX gi x ;;
    match idx with
    | Some row => setSelection gi row seriesName
    | None => ret tt
    end.

(** The [highlightCallback(event, x, points, row, seriesName)] of
    [attachSelectionHandlers]. *)
Definition selection_highlightCallback (this : value) (arguments : list value) : M unit :=
  s <- deref selH ;;
  if s_block s then ret tt
  else
    set_s_block true ;;;
    for_each (highlight_propagate s this arguments) 0 (s_gs s) ;;;
    set_s_block false.

(** One turn of the loop of the unhighlight handler. *)
Definition unhighlight_propagate (s : selection_closure)
    (this : value) (arguments : list value) (i : nat) (gi : value) : M unit :=
  if same_object this gi then
    call_previous (s_prevCallbacks s) i s_unhighlightCallback this arguments
  else clearSelection gi.

(** The [unhighlightCallback(event)] of [attachSelectionHandlers]. *)
Definition selection_unhighlightCallback (this : value) (arguments : list value) : M unit :=
  s <- deref selH ;;
  if s_block s then ret tt
  else
    set_s_block true ;;;
    for_each (unhighlight_propagate s this arguments) 0 (s_gs s) ;;;
    set_s_block false.

(** One turn of the loop of [attachZoomHandlers]. *)
Definition install_zoom (i : nat) (g : value) : M unit :=
  updateOptions g (Patch (Some (Some (SyncDraw i))) None None None None) true.

Definition attachZoomHandlers (gs : option (list value)) (syncOpts : options)
    (prev : option (list (option snapshot))) : M unit :=
  gs <- deref (λ _, gs) ;;
  modify (set_zoomH (Some (ZoomClosure gs syncOpts prev false))) ;;;
  for_each install_zoom 0 gs.

(** One turn of the loop of [attachSelectionHandlers]. *)
Definition install_selection (i : nat) (g : value) : M unit :=
  updateOptions g
    (Patch None (Some (Some (SyncHighlight i))) (Some (Some (SyncUnhighlight i))) None None)
    true.

Definition attachSelectionHandlers (gs : option (list value))
    (prev : option (list (option snapshot))) : M unit :=
  gs <- deref (λ _, gs) ;;
  modify (set_selH (Some (SelectionClosure gs prev false))) ;;;
  for_each install_selection 0 gs.

(** [prevCallbacks[j][name] = v] *)
Definition store_previous (j : nat) (name : hook) (v : option callback) : M unit :=
  prev <- deref prevCallbacks ;;
  match prev !! j with
  | Some (Some s) =>
    let s' := match name with
              | HDraw => Snapshot v (s_highlightCallback s) (s_unhighlightCallback s)
              | HHighlight => Snapshot (s_drawCallback s) v (s_unhighlightCallback s)
              | HUnhighlight => Snapshot (s_drawCallback s) (s_highlightCallback s) v
              end in
    modify (set_prevCallbacks (Some (<[j := Some s']> prev)))
  | _ => throw TypeError
  end.

(** One turn of the loop that stores the original callbacks: the three
    names are read from the last to the first. *)
Definition capture (j : nat) (gj : value) : M unit :=
  prev <- deref prevCallbacks ;;
  (match prev !! j with
   | Some (Some _) => ret tt
   | _ => modify (set_prevCallbacks (Some (array_set j empty_snapshot prev)))
   end) ;;;
  u <- getFunctionOption gj HUnhighlight ;; store_previous j HUnhighlight u ;;;
  h <- getFunctionOption gj HHighlight ;; store_previous j HHighlight h ;;;
  d <- getFunctionOption gj HDraw ;; store_previous j HDraw d.

(** The body of the arrow function handed to [g.ready]. *)
Definition ready_callback : M unit :=
  n <- gets readycount ;;
  modify (set_readycount (n - 1)) ;;;
  if negb (n - 1 =? 0) then ret tt
  else
    gs <- deref dygraphs ;;
    for_each capture 0 gs ;;;
    o <- deref opts ;;
    (if truthy (zoom o)
     then gs <- gets dygraphs ;; prev <- gets prevCallbacks ;;
          attachZoomHandlers gs o prev
     else ret tt) ;;;
    o <- deref opts ;;
    (if truthy (selection o)
     then gs <- gets dygraphs ;; prev <- gets prevCallbacks ;;
          attachSelectionHandlers gs prev
     else ret tt).

(** [g.ready(cb)]: at once when the first render is over, queued
    otherwise. *)
Definition ready (v : value) : M unit :=
  g <- as_dygraph v ;;
  emit (EvReady g) ;;;
  c <- get_chart g ;;
  if is_initial_draw c
  then modify_chart g queue_ready
  else ready_callback.

Definition synchronize (arguments : list value) : M unit :=
  match collect arguments with
  | inl e => throw e
  | inr (gs, o) =>
    modify (λ w, World (heap w) (Some gs) (Some o) (Some [])
                   (Z.of_nat (length gs)) (zoomH w) (selH w) (trace w)) ;;;
    for_each (λ _ g, ready g) 0 gs
  end.

(** One turn of the loop of [detach]. *)
Definition detach_chart (i : nat) (g : value) : M unit :=
  o <- deref opts ;;
  (if truthy (zoom o) then
     prev <- deref prevCallbacks ;;
     s <- deref (λ _, mjoin (prev !! i)) ;;
     updateOptions g (Patch (Some (s_drawCallback s)) None None None None) false
   else ret tt) ;;;
  o <- deref opts ;;
  (if truthy (selection o) then
     prev <- deref prevCallbacks ;;
     s <- deref (λ _, mjoin (prev !! i)) ;;
     updateOptions g
       (Patch None (Some (s_highlightCallback s)) (Some (s_unhighlightCallback s)) None None)
       false
   else ret tt).

(** [detach()] of the returned handle. *)
Definition detach : M unit :=
  gs <- deref dygraphs ;;
  for_each detach_chart 0 gs ;;;
  modify (set_dygraphs None) ;;;
  modify (set_opts None) ;;;
  modify (set_prevCallbacks None).

End Handlers.

(** Running a callback.  The bound counts nested activations: an event on
    the page needs one for the callback it fires and one more for the
    callbacks that this one causes. *)
Fixpoint call (fuel : nat) (cb : callback) (this : value) (arguments : list value) : M unit :=
  match fuel with
  | O => throw OutOfFuel
  | S n =>
    match cb with
    | UserFn f => emit (EvCall f this arguments)
    | SyncDraw _ => zoom_drawCallback (call n) this arguments
    | SyncHighlight _ => selection_highlightCallback (call n) this arguments
    | SyncUnhighlight _ => selection_unhighlightCallback (call n) this arguments
    end
  end.

(** ** What happens on the page *)

Definition with_render_state (initial : bool) (queued : nat) (c : chart) : chart :=
  {| is_initial_draw := initial; readyFns := queued;
     drawCallback := drawCallback c; highlightCallback := highlightCallback c;
     unhighlightCallback := unhighlightCallback c;
     dateWindow := dateWindow c; valueRange := valueRange c;
     xAxisRange := xAxisRange c; yAxisRange := yAxisRange c;
     rawX := rawX c; selected := selected c |}.

Definition with_viewport (xr yr : list Z) (c : chart) : chart :=
  {| is_initial_draw := is_initial_draw c; readyFns := readyFns c;
     drawCallback := drawCallback c; highlightCallback := highlightCallback c;
     unhighlightCallback := unhighlightCallback c;
     dateWindow := dateWindow c; valueRange := valueRange c;
     xAxisRange := xr; yAxisRange := yr;
     rawX := rawX c; selected := selected c |}.

(** The queued ready functions of chart [g] are popped and run. *)
Fixpoint fire_ready (fuel : nat) (g : gid) (queued : nat) : M unit :=
  match queued with
  | O => ret tt
  | S k =>
    modify_chart g (λ c, with_render_state (is_initial_draw c) k c) ;;;
    ready_callback (call fuel) ;;;
    fire_ready fuel g k
  end.

(** Chart [g] completes its first render: the draw callback runs with
    [initial = true], then the ready functions. *)
Definition first_render (fuel : nat) (g : gid) : M unit :=
  c <- get_chart g ;;
  if is_initial_draw c then
    modify_chart g (λ c, with_render_state false (readyFns c) c) ;;;
    (match drawCallback c with
     | Some cb => call fuel cb (VDygraph g) [VDygraph g; VBool true]
     | None => ret tt
     end) ;;;
    fire_ready fuel g (readyFns c)
  else ret tt.

(** The user pans or zooms chart [g]: its viewport changes and it redraws. *)
Definition user_zoom (fuel : nat) (g : gid) (xr yr : list Z) : M unit :=
  _ <- get_chart g ;;
  modify_chart g (with_viewport xr yr) ;;;
  redraw (call fuel) g.

(** The pointer moves over chart [g]: its highlight callback runs with
    [(event, x, points, row, seriesName)]. *)
Definition pointer_move (fuel : nat) (g : gid) (arguments : list value) : M unit :=
  c <- get_chart g ;;
  match highlightCallback c with
  | Some cb => call fuel cb (VDygraph g) arguments
  | None => ret tt
  end.

(** The pointer leaves chart [g]. *)
Definition pointer_out (fuel : nat) (g : gid) (arguments : list value) : M unit :=
  c <- get_chart g ;;
  match unhighlightCallback c with
  | Some cb => call fuel cb (VDygraph g) arguments
  | None => ret tt
  end.

(** What happens on the page once the handle is active. *)
Inductive page_event :=
| Zoom (g : gid) (xr yr : list Z)
| PointerMove (g : gid) (arguments : list value)
| PointerOut (g : gid) (arguments : list value).

Definition target (ev : page_event) : gid :=
  match ev with Zoom g _ _ | PointerMove g _ | PointerOut g _ => g end.

Definition fire (fuel : nat) (ev : page_event) : M unit :=
  match ev with
  | Zoom g xr yr => user_zoom fuel g xr yr
  | PointerMove g arguments => pointer_move fuel g arguments
  | PointerOut g arguments => pointer_out fuel g arguments
  end.

Fixpoint run (fuel : nat) (evs : list page_event) : M unit :=
  match evs with
  | [] => ret tt
  | ev :: rest => fire fuel ev ;;; run fuel rest
  end.

(** * Definitions for the statements *)

(** ** The rules of the argument check *)

Module GroupBuilder.




Definition raises {A} (r : exn + A) : Prop :=
  match r with inl _ => True | inr _ => False end.


End GroupBuilder.

(** ** Worlds *)

(** Appending to the trace. *)
Definition log (evs : list event) (w : world) : world :=
  set_trace (trace w ++ evs) w.

(** Everything of the world but the heap and the trace. *)
Definition same_handle (w w' : world) : Prop :=
  dygraphs w' = dygraphs w ∧ opts w' = opts w ∧ prevCallbacks w' = prevCallbacks w
  ∧ readycount w' = readycount w ∧ zoomH w' = zoomH w ∧ selH w' = selH w.

(** The events of running a callback of the application, if there is one. *)
Definition call_events (cb : option callback) (this : value) (arguments : list value) : list event :=
  match cb with
  | Some (UserFn f) => [EvCall f this arguments]
  | _ => []
  end.

Definition user_only (cb : option callback) : bool :=
  match cb with None | Some (UserFn _) => true | _ => false end.

(** A slot holds nothing, a function of the application, or the handler
    the file installs in that slot when the protocol is enabled. *)
Definition slot_ok (o : options) (name : hook) (cb : option callback) : bool :=
  match cb, name with
  | None, _ | Some (UserFn _), _ => true
  | Some (SyncDraw _), HDraw => truthy (zoom o)
  | Some (SyncHighlight _), HHighlight => truthy (selection o)
  | Some (SyncUnhighlight _), HUnhighlight => truthy (selection o)
  | _, _ => false
  end.

Definition chart_ok (o : options) (c : chart) : bool :=
  slot_ok o HDraw (drawCallback c)
  && slot_ok o HHighlight (highlightCallback c)
  && slot_ok o HUnhighlight (unhighlightCallback c).

Definition snapshot_ok (s : snapshot) : bool :=
  user_only (s_drawCallback s)
  && user_only (s_highlightCallback s)
  && user_only (s_unhighlightCallback s).

(** The active state: every chart of the group was ready, the previous
    callbacks were captured, and the handlers of the enabled protocols were
    installed, with their guards clear. *)
Record active (w : world) (ids : list gid) (o : options) (snaps : list snapshot) : Prop := {
  act_dygraphs : dygraphs w = Some (VDygraph <$> ids);
  act_opts : opts w = Some o;
  act_prev : prevCallbacks w = Some (Some <$> snaps);
  act_length : length snaps = length ids;
  act_nodup : NoDup ids;
  act_valid : Forall (λ g, is_Some (heap w !! g)) ids;
  act_snaps : Forall (λ s, snapshot_ok s = true) snaps;
  act_charts : Forall (λ c, chart_ok o c = true) (heap w);
  act_zoomH : zoomH w =
    if truthy (zoom o)
    then Some (ZoomClosure (VDygraph <$> ids) o (Some (Some <$> snaps)) false)
    else None;
  act_selH : selH w =
    if truthy (selection o)
    then Some (SelectionClosure (VDygraph <$> ids) (Some (Some <$> snaps)) false)
    else None;
}.

(** Both guards are clear. *)
Definition guards_clear (w : world) : Prop :=
  (∀ z, zoomH w = Some z → z_block z = false)
  ∧ (∀ s, selH w = Some s → s_block s = false).

(** ** The barrier and the activation *)

(** The handle exists and the barrier has not released: the countdown is
    positive and nothing has been stored in [prevCallbacks]. *)
Record pending (w : world) (gs : list value) (o : options) : Prop := {
  pen_dygraphs : dygraphs w = Some gs;
  pen_group : (2 ≤ length gs)%nat;
  pen_opts : opts w = Some o;
  pen_prev : prevCallbacks w = Some [];
  pen_count : 0 < readycount w;
}.

(** Whether chart [g] has completed its first render. *)
Definition rendered (h : list chart) (g : gid) : bool :=
  from_option (λ c, negb (is_initial_draw c)) false (h !! g).

Definition snapshot_of (c : chart) : snapshot :=
  Snapshot (drawCallback c) (highlightCallback c) (unhighlightCallback c).

(** The entries of [prevCallbacks] after the capture, for a group [ids]
    over the heap [h]. *)
Definition captured_snapshots (h : list chart) (ids : list gid) : list snapshot :=
  (λ g, from_option snapshot_of empty_snapshot (h !! g)) <$> ids.

(** A chart of the page before the synchronization: its callbacks are
    those of the application. *)
Definition plain_chart (c : chart) : bool :=
  user_only (drawCallback c) && user_only (highlightCallback c)
  && user_only (unhighlightCallback c).

Definition zoom_install (j : nat) : patch :=
  Patch (Some (Some (SyncDraw j))) None None None None.

Definition selection_install (j : nat) : patch :=
  Patch None (Some (Some (SyncHighlight j))) (Some (Some (SyncUnhighlight j))) None None.

(** ** The draw handler *)

Definition zoom_patch (xr : list Z) (yr : option (list Z)) : patch :=
  Patch None None None (Some xr) yr.

(** The test of lines 191-192 on a chart of the group. *)
Definition zoom_skips (xr : list Z) (yr : option (list Z)) (c : chart) : bool :=
  arraysAreEqual (Some xr) (dateWindow c) && arraysAreEqual yr (valueRange c).

Definition zoom_update (xr : list Z) (yr : option (list Z)) (c : chart) : chart :=
  if zoom_skips xr yr c then c else apply_patch (zoom_patch xr yr) c.

(** What the propagation does to another chart [g], in state [c]: nothing
    when it is skipped; otherwise one [updateOptions], and the redraw runs
    the chart's own draw callback (the installed handler returns at once,
    the guard being set). *)
Definition zoom_events_on (xr : list Z) (yr : option (list Z)) (g : gid) (c : chart) : list event :=
  if zoom_skips xr yr c then []
  else EvUpdateOptions g (zoom_patch xr yr) false
       :: call_events (drawCallback c) (VDygraph g) [VDygraph g; VBool false].

(** The values the draw handler reads from the chart that fired. *)
Definition zoom_range (o : options) (c : chart) : option (list Z) :=
  if truthy (range o) then Some (yAxisRange c) else None.

(** The events of the turn of a handler's loop for the element [g] of the
    group, over the heap at entry: [evm] on the chart [m] that fired, and
    [ev] on another chart. *)
Definition loop_trace (m : gid) (evm : list event) (ev : gid → chart → list event)
    (h : list chart) (g : gid) : list event :=
  if (g =? m)%nat then evm else from_option (ev g) [] (h !! g).

Definition updated (e : event) : option gid :=
  match e with EvUpdateOptions g _ _ => Some g | _ => None end.

(** The other charts of the group that the draw handler does not skip. *)
Definition zoom_applies (h : list chart) (m : gid) (xr : list Z) (yr : option (list Z))
    (g : gid) : bool :=
  negb (g =? m)%nat && from_option (λ c, negb (zoom_skips xr yr c)) false (h !! g).

(** The entry of [prevCallbacks] that the draw handlers hold for the
    element [j] of the group. *)
Definition captured_by_zoom (w : world) (j : nat) : option snapshot :=
  match zoomH w with
  | Some z =>
    match z_prevCallbacks z with
    | Some prev => mjoin (prev !! j)
    | None => None
    end
  | None => None
  end.

(** The world in the middle of a propagation: the zoom guard is set. *)
Definition propagating (w : world) : world :=
  set_zoomH ((λ z, ZoomClosure (z_gs z) (z_syncOpts z) (z_prevCallbacks z) true)
               <$> zoomH w) w.

(** The functions of the application that were called. *)
Definition called (e : event) : option nat :=
  match e with EvCall f _ _ => Some f | _ => None end.

(** ** The selection handlers *)

Definition row_for (x : value) (c : chart) : option nat :=
  match x with VNum n => row_from 0 n (rawX c) | _ => None end.

Definition highlight_update (x seriesName : value) (c : chart) : chart :=
  match row_for x c with
  | Some row => with_selected (Some (row, seriesName)) c
  | None => c
  end.

Definition highlight_events_on (x seriesName : value) (g : gid) (c : chart) : list event :=
  match row_for x c with
  | Some row => [EvSetSelection g row seriesName]
  | None => []
  end.

(** ** Detach *)

Definition restore_draw (s : snapshot) : patch :=
  Patch (Some (s_drawCallback s)) None None None None.

Definition restore_selection (s : snapshot) : patch :=
  Patch None (Some (s_highlightCallback s)) (Some (s_unhighlightCallback s)) None None.

(** What [detach] does to the chart whose entry of [prevCallbacks] is [s]. *)
Definition detach_update (o : options) (s : snapshot) (c : chart) : chart :=
  let c1 := if truthy (zoom o) then apply_patch (restore_draw s) c else c in
  if truthy (selection o) then apply_patch (restore_selection s) c1 else c1.

Definition detach_events (o : options) (s : snapshot) (g : gid) (c : chart) : list event :=
  let c1 := if truthy (zoom o) then apply_patch (restore_draw s) c else c in
  (if truthy (zoom o)
   then EvUpdateOptions g (restore_draw s) false
        :: call_events (drawCallback c1) (VDygraph g) [VDygraph g; VBool false]
   else [])
  ++ (if truthy (selection o)
      then EvUpdateOptions g (restore_selection s) false
           :: call_events (drawCallback c1) (VDygraph g) [VDygraph g; VBool false]
      else []).

(** The statement of C1: after [detach], every chart of the group has the
    three captured values in its three slots. *)
Definition restores_all_hooks (ids : list gid) (snaps : list snapshot) (w' : world) : Prop :=
  ∀ k g s, ids !! k = Some g → snaps !! k = Some s →
    ∃ c', heap w' !! g = Some c'
      ∧ drawCallback c' = s_drawCallback s
      ∧ highlightCallback c' = s_highlightCallback s
      ∧ unhighlightCallback c' = s_unhighlightCallback s.

(** ** A page with three charts *)

Module Example.

(** Three rendered charts with callbacks of the application; the second
    one is configured with the window [10, 40] and the range [0, 1]. *)
Definition g0 : chart :=
  Chart false 0 (Some (UserFn 1)) (Some (UserFn 11)) (Some (UserFn 21))
    None None [0; 100] [0; 1] [0; 10; 20; 30] None.
Definition g1 : chart :=
  Chart false 0 (Some (UserFn 2)) (Some (UserFn 12)) None
    (Some [10; 40]) (Some [0; 1]) [10; 40] [0; 1] [5; 20; 35] None.
Definition g2 : chart :=
  Chart false 0 None None None None None [0; 100] [0; 1] [7; 8] None.

Definition charts : list chart := [g0; g1; g2].
Definition group : list value := [VDygraph 0; VDygraph 1; VDygraph 2].
Definition ids : list gid := [0; 1; 2]%nat.
Definition snaps : list snapshot :=
  [Snapshot (Some (UserFn 1)) (Some (UserFn 11)) (Some (UserFn 21));
   Snapshot (Some (UserFn 2)) (Some (UserFn 12)) None;
   Snapshot None None None].

(** [synchronize(g0, g1, g2, ...extra)] on the page. *)
Definition synced (extra : list value) : world :=
  snd (synchronize (call 2) (group ++ extra) (page charts)).

Definition x_only : options := Options (VBool true) (VBool true) (VBool false).
Definition selection_only : options := Options (VBool true) (VBool false) (VBool true).

Definition w_default : world := synced [].
Definition w_x_only : world := synced [VObject [("range"%string, VBool false)]].
Definition w_selection_only : world := synced [VObject [("zoom"%string, VBool false)]].

End Example.

(** The application replaced the draw callback of the first chart after a
    selection-only synchronization. *)
Definition w_selection_only_redrawn : world :=
  snd (updateOptions (call 2) (VDygraph 0)
         (Patch (Some (Some (UserFn 99))) None None None None) true
         Example.w_selection_only).

(** The third chart of the example has not rendered. *)
Definition w_waiting : world :=
  snd (synchronize (call 2) Example.group
         (page [Example.g0; Example.g1;
                Chart true 0 None None None None None [0; 100] [0; 1] [7; 8] None])).

(** ** The effect of the activation *)

(** The chart at position [k] of the group once the handlers of the
    enabled protocols are installed. *)
Definition installed (o : options) (k : nat) (c : chart) : chart :=
  (if truthy (selection o) then apply_patch (selection_install k) else id)
    ((if truthy (zoom o) then apply_patch (zoom_install k) else id) c).

(** The reads of the capture on chart [g]: the three names, from the last
    to the first. *)
Definition capture_events (g : gid) : list event :=
  [EvGetFunctionOption g HUnhighlight; EvGetFunctionOption g HHighlight;
   EvGetFunctionOption g HDraw].

(** The calls on the charts made by the last [ready] callback: the
    capture over the whole group, then the draw handlers, then the
    selection handlers, each installed without a redraw. *)
Definition activation_events (o : options) (ids : list gid) : list event :=
  concat (capture_events <$> ids)
  ++ (if truthy (zoom o)
      then imap (λ k g, EvUpdateOptions g (zoom_install k) true) ids else [])
  ++ (if truthy (selection o)
      then imap (λ k g, EvUpdateOptions g (selection_install k) true) ids else []).

(** ** Computations that call no function of the application *)

(** Whatever the world and the outcome, the calls of functions of the
    application recorded in the trace are the same before and after. *)
Definition quiet {A} (m : M A) : Prop :=
  ∀ w, omap called (trace (m w).2) = omap called (trace w).

(** ** Events and the slots they fire *)

(** The callback slot of the target chart that an event fires. *)
Definition hook_of (ev : page_event) : hook :=
  match ev with
  | Zoom _ _ _ => HDraw
  | PointerMove _ _ => HHighlight
  | PointerOut _ _ => HUnhighlight
  end.

(** Whether the protocol that synchronizes an event is enabled. *)
Definition synchronizes (o : options) (ev : page_event) : bool :=
  match ev with
  | Zoom _ _ _ => truthy (zoom o)
  | PointerMove _ _ | PointerOut _ _ => truthy (selection o)
  end.

(** ** Computations that throw nothing of their own *)


(** * Properties *)

Ltac split_all := intros; repeat match goal with |- _ ∧ _ => split end.

Ltac solve_active :=
  constructor; try (vm_compute; reflexivity);
  by (apply (bool_decide_unpack _); vm_compute).

(** ** GroupBuilder: the validation of the arguments *)

Module GroupBuilderFacts.

Import GroupBuilder.

(** When every argument is a Dygraph the first loop keeps them all. *)
Lemma leading_dygraphs_all (l : list value) :
  forallb instanceof_Dygraph l = true → leading_dygraphs l = l.
Proof.
  induction l as [|a l IH]; simpl; [done|].
  destruct (instanceof_Dygraph a); simpl; [|done].
  intros H. by rewrite IH.
Qed.

(** The first loop stops early as soon as one argument is not a Dygraph. *)
Lemma leading_dygraphs_short (l : list value) :
  forallb instanceof_Dygraph l = false →
  (length (leading_dygraphs l) < length l)%nat.
Proof.
  induction l as [|a l IH]; simpl; [done|].
  destruct (instanceof_Dygraph a); simpl; [|lia].
  intros H. specialize (IH H). lia.
Qed.

(** The first loop on Dygraphs followed by one more argument. *)
Lemma leading_dygraphs_snoc (l : list value) (x : value) :
  forallb instanceof_Dygraph l = true →
  leading_dygraphs (l ++ [x]) = if instanceof_Dygraph x then l ++ [x] else l.
Proof.
  induction l as [|a l IH]; simpl.
  - by destruct (instanceof_Dygraph x).
  - destruct (instanceof_Dygraph a); simpl; [|done].
    intros H. rewrite (IH H). by destruct (instanceof_Dygraph x).
Qed.




(** [parseOpts] throws exactly on a value that is not an Object. *)
Lemma parseOpts_raises (obj : value) (o : options) :
  raises (parseOpts obj o) ↔ instanceof_Object obj = false.
Proof.
  unfold parseOpts. destruct (instanceof_Object obj); simpl; split; auto; done.
Qed.






(** Which calls are outside the model: the first argument is a plain
    object whose own [length] is truthy and is a string, an array, a
    Dygraph or an object. *)
Lemma collect_outside_model (arguments : list value) :
  collect arguments = inl OutsideModel ↔
  ∃ props len rest, arguments = VObject props :: rest
    ∧ assoc "length" props = Some len ∧ truthy len = true ∧ turns len = None.
Proof.
  split.
  - unfold collect, parseOpts.
    destruct arguments as [|a0 rest]; [done|].
    destruct (instanceof_Dygraph a0) eqn:Hd.
    + repeat case_match; simplify_eq/=; done.
    + unfold length_of.
      destruct a0 as [| |b|n|s|g|elems|props]; try done; cbn [get_length].
      * repeat case_match; simplify_eq/=; done.
      * repeat case_match; simplify_eq/=; done.
      * destruct (assoc "length" props) as [len|] eqn:Hlen; cbn [default]; [|done].
        unfold id. destruct (truthy len) eqn:Ht; [|done].
        destruct (turns len) as [k|] eqn:Hk.
        -- repeat case_match; simplify_eq/=; done.
        -- intros _. by exists props, len, rest.
  - intros (props & len & rest & -> & Hlen & Ht & Hk).
    unfold collect, length_of. cbn [instanceof_Dygraph get_length].
    rewrite Hlen. cbn [default]. unfold id. by rewrite Ht, Hk.
Qed.

End GroupBuilderFacts.

(** Reading every index of a list in turn gives the list. *)
Lemma lookup_below_length (l : list value) :
  (λ i, default VUndefined (l !! i)) <$> seq 0 (length l) = l.
Proof.
  apply list_eq. intros i. rewrite list_lookup_fmap.
  destruct (l !! i) as [x|] eqn:Hi.
  - rewrite (lookup_seq_lt 0 (length l) i) by (by eapply lookup_lt_Some).
    cbn. by rewrite Hi.
  - rewrite lookup_seq_ge; [done|]. by apply lookup_ge_None.
Qed.

(** An array with elements has a truthy length, and the loop collects
    its elements. *)
Lemma length_of_array (x : value) (l : list value) :
  length_of (VArray (x :: l)) = inr (Some (x :: l)).
Proof.
  unfold length_of. cbn [get_length truthy turns].
  destruct (Z.eqb_spec (Z.of_nat (length (x :: l))) 0) as [H|_]; [cbn in H; lia|].
  cbn [negb]. rewrite Nat2Z.id. do 2 f_equal. apply (lookup_below_length (x :: l)).
Qed.


(** An accepted group has at least two elements. *)
Lemma collect_size (arguments gs : list value) (o : options) :
  collect arguments = inr (gs, o) → (2 ≤ length gs)%nat.
Proof.
  unfold collect. destruct arguments as [|a0 rest]; [done|].
  repeat case_match; intros; simplify_eq;
    match goal with H : (_ <? 2)%nat = false |- _ => apply Nat.ltb_ge in H; exact H end.
Qed.

(** ** Running the primitive operations *)

(** A computation that returns normally passes its value and world on. *)
Lemma bind_Ret {A B} (m : M A) (k : A → M B) (w w' : world) (a : A) :
  m w = (Ret a, w') → bind m k w = k a w'.
Proof. unfold bind. by intros ->. Qed.

(** Reading a chart that is in the heap. *)
Lemma get_chart_Some (g : gid) (c : chart) (w : world) :
  heap w !! g = Some c → get_chart g w = (Ret c, w).
Proof. unfold get_chart, deref. by intros ->. Qed.

(** A reference to a chart of the heap is a receiver for the Dygraph
    methods. *)
Lemma as_dygraph_Some (g : gid) (c : chart) (w : world) :
  heap w !! g = Some c → as_dygraph (VDygraph g) w = (Ret g, w).
Proof. intros H. simpl. by rewrite (bind_Ret _ _ _ _ _ (get_chart_Some _ _ _ H)). Qed.

(** Appending nothing. *)
Lemma log_nil (w : world) : log [] w = w.
Proof. destruct w. unfold log, set_trace. simpl. by rewrite app_nil_r. Qed.

(** [same_handle] is reflexive. *)
Lemma same_handle_refl (w : world) : same_handle w w.
Proof. by repeat split. Qed.

(** [same_handle] composes. *)
Lemma same_handle_trans (w1 w2 w3 : world) :
  same_handle w1 w2 → same_handle w2 w3 → same_handle w1 w3.
Proof. unfold same_handle. intros (?&?&?&?&?&?) (?&?&?&?&?&?). repeat split; congruence. Qed.

(** The zoom closure of an active handle with [zoom] enabled. *)
Lemma act_zoom (w : world) (ids : list gid) (o : options) (snaps : list snapshot) :
  active w ids o snaps → truthy (zoom o) = true →
  zoomH w = Some (ZoomClosure (VDygraph <$> ids) o (Some (Some <$> snaps)) false).
Proof. intros Hact Hz. rewrite (act_zoomH _ _ _ _ Hact). by rewrite Hz. Qed.

(** The selection closure of an active handle with [selection] enabled. *)
Lemma act_selection (w : world) (ids : list gid) (o : options) (snaps : list snapshot) :
  active w ids o snaps → truthy (selection o) = true →
  selH w = Some (SelectionClosure (VDygraph <$> ids) (Some (Some <$> snaps)) false).
Proof. intros Hact Hs. rewrite (act_selH _ _ _ _ Hact). by rewrite Hs. Qed.

(** Both guards of an active handle are clear. *)
Lemma active_guards_clear (w : world) (ids : list gid) (o : options) (snaps : list snapshot) :
  active w ids o snaps → guards_clear w.
Proof.
  intros Hact. split.
  - intros z. rewrite (act_zoomH _ _ _ _ Hact). destruct (truthy (zoom o)); [|done].
    by intros [= <-].
  - intros s. rewrite (act_selH _ _ _ _ Hact). destruct (truthy (selection o)); [|done].
    by intros [= <-].
Qed.

(** Calling a callback of the application records the call and nothing
    else; an absent callback is not called. *)
Lemma call_user_only (n : nat) (cb : option callback) (this : value)
    (arguments : list value) (w : world) :
  user_only cb = true →
  match cb with
  | Some f => call (S n) f this arguments
  | None => ret tt
  end w = (Ret tt, log (call_events cb this arguments) w).
Proof.
  destruct cb as [[]|]; simpl; try done.
  intros _. by rewrite log_nil.
Qed.

(** Forwarding to the captured callback of position [j], when the captured
    callbacks are the application's. *)
Lemma call_previous_user (n : nat) (snaps : list snapshot) (j : nat)
    (f : snapshot → option callback) (this : value) (arguments : list value) (w : world) :
  (∀ s, snaps !! j = Some s → user_only (f s) = true) →
  call_previous (call (S n)) (Some (Some <$> snaps)) j f this arguments w
  = (Ret tt, log (call_events (snaps !! j ≫= f) this arguments) w).
Proof.
  intros Hu. unfold call_previous, deref, bind. rewrite list_lookup_fmap.
  destruct (snaps !! j) as [s|] eqn:E; simpl.
  - specialize (Hu s eq_refl). by apply call_user_only.
  - by rewrite log_nil.
Qed.

(** ** [arraysAreEqual] *)

(** The backward loop of [arraysAreEqual] compares the first [i] elements. *)
Lemma arrays_agree_below_spec (a b : list Z) (i : nat) :
  (i ≤ length a)%nat → (i ≤ length b)%nat →
  arrays_agree_below i a b = true ↔ take i a = take i b.
Proof.
  induction i as [|i IH]; intros Ha Hb; simpl.
  - by rewrite !take_0.
  - destruct (lookup_lt_is_Some_2 a i) as [x Hx]; [lia|].
    destruct (lookup_lt_is_Some_2 b i) as [y Hy]; [lia|].
    rewrite Hx, Hy.
    rewrite (take_S_r a i x Hx), (take_S_r b i y Hy).
    destruct (Z.eqb_spec x y) as [->|Hne]; simpl.
    + rewrite IH by lia. split; [by intros ->|].
      intros H. apply app_inj_2 in H as [H _]; done.
    + split; [done|]. intros H. apply app_inj_2 in H as [_ [= H]]; done.
Qed.

(** On two arrays [arraysAreEqual] is equality of the elements. *)
Lemma arraysAreEqual_Some (a b : list Z) :
  arraysAreEqual (Some a) (Some b) = true ↔ a = b.
Proof.
  unfold arraysAreEqual.
  destruct (Nat.eqb_spec (length a) (length b)) as [Hlen|Hlen]; simpl.
  - rewrite arrays_agree_below_spec by lia.
    rewrite firstn_all. rewrite Hlen, firstn_all. done.
  - split; [done|]. intros ->. done.
Qed.

(** A first operand that is not an array is never equal. *)
Lemma arraysAreEqual_undefined (b : option (list Z)) : arraysAreEqual None b = false.
Proof. done. Qed.

(** A second operand that is not an array is never equal. *)
Lemma arraysAreEqual_not_array (a : option (list Z)) : arraysAreEqual a None = false.
Proof. by destruct a. Qed.

(** With [range] true the chart is skipped exactly when both configured
    windows equal the viewport of the chart that fired. *)
Lemma zoom_skips_range (xr yr : list Z) (c : chart) :
  zoom_skips xr (Some yr) c = true ↔ dateWindow c = Some xr ∧ valueRange c = Some yr.
Proof.
  unfold zoom_skips. rewrite andb_true_iff.
  destruct (dateWindow c) as [dw|], (valueRange c) as [vr|];
    rewrite ?arraysAreEqual_Some, ?arraysAreEqual_not_array; try (split; [intros []|intros []]; done).
  split; intros []; split; congruence.
Qed.

(** Without [range] the second comparison is on undefined and fails: no
    chart is ever skipped. *)
Lemma zoom_skips_no_range (xr : list Z) (c : chart) : zoom_skips xr None c = false.
Proof. unfold zoom_skips. by rewrite arraysAreEqual_undefined, andb_false_r. Qed.

(** ** The draw handler *)

(** A redraw while the zoom guard is set: the draw handler returns at
    once, an application callback is called. *)
Lemma redraw_guarded (n : nat) (o : options) (g : gid) (c : chart) (z : zoom_closure) (w : world) :
  heap w !! g = Some c →
  slot_ok o HDraw (drawCallback c) = true →
  zoomH w = Some z → z_block z = true →
  redraw (call (S n)) g w
  = (Ret tt, log (call_events (drawCallback c) (VDygraph g) [VDygraph g; VBool false]) w).
Proof.
  intros Hc Hok Hz Hb. unfold redraw.
  rewrite (bind_Ret _ _ _ _ _ (get_chart_Some _ _ _ Hc)).
  destruct (drawCallback c) as [[f|i|i|i]|]; simpl in Hok |- *; try done.
  - unfold zoom_drawCallback, deref, bind. rewrite Hz, Hb. simpl. by rewrite log_nil.
  - by rewrite log_nil.
Qed.

(** [alter] depends on the function only at the element it changes. *)
Lemma alter_lookup_ext {A} (f h : A → A) (i : nat) (l : list A) (x : A) :
  l !! i = Some x → f x = h x → alter f i l = alter h i l.
Proof.
  intros Hl Hx. apply list_alter_ext; [|done].
  intros y Hy. congruence.
Qed.

(** [alter] with a function that fixes the element changes nothing. *)
Lemma alter_lookup_id {A} (f : A → A) (i : nat) (l : list A) (x : A) :
  l !! i = Some x → f x = x → alter f i l = l.
Proof.
  intros Hl Hx. rewrite (alter_lookup_ext f id i l x Hl Hx).
  by apply list_alter_id.
Qed.

(** Reading [dateWindow] of a chart of the heap. *)
Lemma getOption_dateWindow_Some (g : gid) (c : chart) (w : world) :
  heap w !! g = Some c → getOption_dateWindow (VDygraph g) w = (Ret (dateWindow c), w).
Proof.
  intros Hc. unfold getOption_dateWindow.
  rewrite (bind_Ret _ _ _ _ _ (as_dygraph_Some _ _ _ Hc)).
  by rewrite (bind_Ret _ _ _ _ _ (get_chart_Some _ _ _ Hc)).
Qed.

(** Reading [valueRange] of a chart of the heap. *)
Lemma getOption_valueRange_Some (g : gid) (c : chart) (w : world) :
  heap w !! g = Some c → getOption_valueRange (VDygraph g) w = (Ret (valueRange c), w).
Proof.
  intros Hc. unfold getOption_valueRange.
  rewrite (bind_Ret _ _ _ _ _ (as_dygraph_Some _ _ _ Hc)).
  by rewrite (bind_Ret _ _ _ _ _ (get_chart_Some _ _ _ Hc)).
Qed.

(** Reading the x range of a chart of the heap. *)
Lemma get_xAxisRange_Some (g : gid) (c : chart) (w : world) :
  heap w !! g = Some c → get_xAxisRange (VDygraph g) w = (Ret (xAxisRange c), w).
Proof.
  intros Hc. unfold get_xAxisRange.
  rewrite (bind_Ret _ _ _ _ _ (as_dygraph_Some _ _ _ Hc)).
  by rewrite (bind_Ret _ _ _ _ _ (get_chart_Some _ _ _ Hc)).
Qed.

(** Reading the y range of a chart of the heap. *)
Lemma get_yAxisRange_Some (g : gid) (c : chart) (w : world) :
  heap w !! g = Some c → get_yAxisRange (VDygraph g) w = (Ret (yAxisRange c), w).
Proof.
  intros Hc. unfold get_yAxisRange.
  rewrite (bind_Ret _ _ _ _ _ (as_dygraph_Some _ _ _ Hc)).
  by rewrite (bind_Ret _ _ _ _ _ (get_chart_Some _ _ _ Hc)).
Qed.

(** One turn of the draw handler's loop on a chart other than the one
    that fired, while the guard is set. *)
Lemma zoom_propagate_other (n : nat) (o : options) (z zt : zoom_closure)
    (xr : list Z) (yr : option (list Z)) (this : value) (arguments : list value)
    (m g j : nat) (c : chart) (w : world) :
  arg 0 arguments = VDygraph m →
  g ≠ m →
  heap w !! g = Some c →
  slot_ok o HDraw (drawCallback c) = true →
  zoomH w = Some zt → z_block zt = true →
  ∃ w', zoom_propagate (call (S n)) z (zoom_patch xr yr) this arguments j (VDygraph g) w
        = (Ret tt, w')
    ∧ same_handle w w'
    ∧ heap w' = alter (zoom_update xr yr) g (heap w)
    ∧ trace w' = trace w ++ zoom_events_on xr yr g c.
Proof.
  intros Hme Hne Hc Hok Hz Hb.
  unfold zoom_propagate. rewrite Hme.
  change (same_object (VDygraph g) (VDygraph m)) with (g =? m)%nat.
  destruct (Nat.eqb_spec g m) as [|_]; [done|].
  rewrite (bind_Ret _ _ _ _ _ (getOption_dateWindow_Some _ _ _ Hc)).
  assert (Hsame : (if arraysAreEqual (p_dateWindow (zoom_patch xr yr)) (dateWindow c)
                   then vr <- getOption_valueRange (VDygraph g) ;;
                        ret (arraysAreEqual (p_valueRange (zoom_patch xr yr)) vr)
                   else ret false) w = (Ret (zoom_skips xr yr c), w)).
  { unfold zoom_skips.
    change (p_dateWindow (zoom_patch xr yr)) with (Some xr).
    change (p_valueRange (zoom_patch xr yr)) with yr.
    destruct (arraysAreEqual (Some xr) (dateWindow c)); [|reflexivity].
    by rewrite (bind_Ret _ _ _ _ _ (getOption_valueRange_Some _ _ _ Hc)). }
  rewrite (bind_Ret _ _ _ _ _ Hsame).
  unfold zoom_update, zoom_events_on.
  destruct (zoom_skips xr yr c) eqn:Hskip.
  - eexists. split; [reflexivity|]. split; [apply same_handle_refl|].
    split; [|by rewrite app_nil_r].
    symmetry. apply (alter_lookup_id _ _ _ c Hc). by rewrite Hskip.
  - unfold updateOptions.
    rewrite (bind_Ret _ _ _ _ _ (as_dygraph_Some _ _ _ Hc)).
    unfold emit, modify_chart, modify, bind at 1 2.
    erewrite (redraw_guarded n o g (apply_patch (zoom_patch xr yr) c) zt).
    + eexists. split; [reflexivity|]. split; [by repeat split|].
      split; [|simpl; by rewrite <- app_assoc]. simpl.
      apply (alter_lookup_ext _ _ _ _ c Hc). by rewrite Hskip.
    + simpl. rewrite list_lookup_alter_eq, Hc. done.
    + done.
    + done.
    + done.
Qed.

(** Propagating a window leaves the three callback slots alone. *)
Lemma zoom_update_slots (xr : list Z) (yr : option (list Z)) (c : chart) :
  drawCallback (zoom_update xr yr c) = drawCallback c
  ∧ highlightCallback (zoom_update xr yr c) = highlightCallback c
  ∧ unhighlightCallback (zoom_update xr yr c) = unhighlightCallback c.
Proof. unfold zoom_update. by destruct (zoom_skips xr yr c). Qed.

(** Propagating a window keeps a chart well formed. *)
Lemma zoom_update_chart_ok (o : options) (xr : list Z) (yr : option (list Z)) (c : chart) :
  chart_ok o c = true → chart_ok o (zoom_update xr yr c) = true.
Proof.
  unfold chart_ok. destruct (zoom_update_slots xr yr c) as (-> & -> & ->). done.
Qed.

(** The draw slot of a well-formed chart. *)
Lemma chart_ok_draw (o : options) (c : chart) :
  chart_ok o c = true → slot_ok o HDraw (drawCallback c) = true.
Proof. unfold chart_ok. intros H. by repeat (apply andb_prop in H as [H ?]). Qed.

(** *** The loop shared by the three handlers

    Each handler walks the group; on the chart [m] that fired it runs the
    previous callback, on every other chart it applies an update.  With
    the charts of the group distinct, the turn for a chart sees that chart
    as it was when the handler was entered. *)

Section Propagation.

Context (body : nat → value → M unit) (m jm : nat).
Context (upd : chart → chart) (evm : list event) (ev : gid → chart → list event).
Context (handle_ok : world → Prop) (Q : chart → Prop).

Hypothesis handle_ok_same : ∀ w w', same_handle w w' → handle_ok w → handle_ok w'.
Hypothesis upd_Q : ∀ c, Q c → Q (upd c).
Hypothesis body_me : ∀ w, handle_ok w →
  ∃ w', body jm (VDygraph m) w = (Ret tt, w')
    ∧ same_handle w w' ∧ heap w' = heap w ∧ trace w' = trace w ++ evm.
Hypothesis body_other : ∀ j g c w, g ≠ m → heap w !! g = Some c → Q c → handle_ok w →
  ∃ w', body j (VDygraph g) w = (Ret tt, w')
    ∧ same_handle w w' ∧ heap w' = alter upd g (heap w) ∧ trace w' = trace w ++ ev g c.

(** The loop over the group: the turn of the chart that fired leaves the
    heap alone, every other turn updates its chart, and the trace is the
    concatenation of the turns. *)
Lemma propagation_loop (l : list gid) :
  ∀ (j : nat) (w : world),
    NoDup l →
    Forall (λ g, is_Some (heap w !! g)) l →
    Forall Q (heap w) →
    handle_ok w →
    (∀ k, l !! k = Some m → (j + k)%nat = jm) →
    ∃ w', for_each body j (VDygraph <$> l) w = (Ret tt, w')
      ∧ same_handle w w'
      ∧ (∀ g, heap w' !! g =
              if decide (g ∈ l ∧ g ≠ m) then upd <$> heap w !! g else heap w !! g)
      ∧ trace w' = trace w ++ concat (loop_trace m evm ev (heap w) <$> l).
Proof.
  induction l as [|g l IH]; intros j w Hnd Hvalid Hok Hh Hm.
  - exists w. split; [reflexivity|]. split; [apply same_handle_refl|].
    split; [|by rewrite app_nil_r].
    intros g. destruct (decide (g ∈ [] ∧ g ≠ m)) as [[H _]|]; [|done].
    by apply elem_of_nil in H.
  - apply NoDup_cons in Hnd as [Hnotin Hnd].
    apply Forall_cons in Hvalid as [[c Hc] Hvalid].
    rewrite fmap_cons. cbn [for_each].
    destruct (decide (g = m)) as [->|Hne].
    + (* the chart that fired *)
      assert (j = jm) as ->.
      { specialize (Hm 0%nat eq_refl). lia. }
      destruct (body_me w Hh) as (w1 & Hstep & Hsame1 & Hheap1 & Htrace1).
      rewrite (bind_Ret _ _ _ _ _ Hstep).
      destruct (IH (S jm) w1) as (w' & Hrun & Hsame & Hheap & Htrace); try done.
      { by rewrite Hheap1. }
      { by rewrite Hheap1. }
      { by eapply handle_ok_same. }
      { intros k Hk. specialize (Hm (S k) Hk). lia. }
      exists w'. split; [done|]. split; [by eapply same_handle_trans|]. split.
      * intros g. rewrite Hheap, Hheap1.
        destruct (decide (g ∈ l ∧ g ≠ m)) as [[]|Hn].
        -- rewrite decide_True; [done|]. split; [by apply list_elem_of_further|done].
        -- rewrite decide_False; [done|]. intros [Hin Hgm]. apply Hn. split; [|done].
           apply elem_of_cons in Hin as [|]; done.
      * rewrite Htrace, Htrace1, Hheap1. cbn [fmap list_fmap concat].
        rewrite <- app_assoc. f_equal.
        unfold loop_trace at 2. by rewrite Nat.eqb_refl.
    + (* another chart *)
      destruct (body_other j g c w Hne Hc (Forall_lookup_1 _ _ _ _ Hok Hc) Hh)
        as (w1 & Hstep & Hsame1 & Hheap1 & Htrace1).
      rewrite (bind_Ret _ _ _ _ _ Hstep).
      destruct (IH (S j) w1) as (w' & Hrun & Hsame & Hheap & Htrace); try done.
      { rewrite Hheap1. eapply Forall_impl; [exact Hvalid|].
        intros g' [c' Hc']. simpl.
        destruct (decide (g = g')) as [->|].
        - rewrite list_lookup_alter_eq. apply fmap_is_Some. by exists c'.
        - rewrite list_lookup_alter_ne by done. by eexists. }
      { rewrite Hheap1. apply Forall_alter; [done|]. intros c' _. apply upd_Q. }
      { by eapply handle_ok_same. }
      { intros k Hk. specialize (Hm (S k) Hk). lia. }
      exists w'. split; [done|]. split; [by eapply same_handle_trans|]. split.
      * intros g'. rewrite Hheap, Hheap1.
        destruct (decide (g' = g)) as [->|Hg'].
        -- rewrite decide_False by (intros [? _]; done).
           rewrite decide_True by (split; [apply list_elem_of_here|done]).
           apply list_lookup_alter_eq.
        -- rewrite (list_lookup_alter_ne _ _ g g') by done.
           destruct (decide (g' ∈ l ∧ g' ≠ m)) as [[]|Hn].
           ++ rewrite decide_True; [done|]. split; [by apply list_elem_of_further|done].
           ++ rewrite decide_False; [done|]. intros [Hin Hgm]. apply Hn. split; [|done].
              apply elem_of_cons in Hin as [|]; done.
      * rewrite Htrace, Htrace1. cbn [fmap list_fmap concat].
        rewrite <- app_assoc. f_equal. f_equal.
        -- unfold loop_trace. destruct (Nat.eqb_spec g m); [done|]. by rewrite Hc.
        -- f_equal. apply list_fmap_ext. intros i g' Hg'.
           unfold loop_trace. destruct (g' =? m)%nat; [done|].
           rewrite Hheap1, list_lookup_alter_ne; [done|].
           intros ->. apply Hnotin. by eapply list_elem_of_lookup_2.
Qed.

End Propagation.

(** The three fields of a well-formed snapshot. *)
Lemma snapshot_ok_fields (s : snapshot) :
  snapshot_ok s = true →
  user_only (s_drawCallback s) = true
  ∧ user_only (s_highlightCallback s) = true
  ∧ user_only (s_unhighlightCallback s) = true.
Proof.
  unfold snapshot_ok. intros H.
  apply andb_prop in H as [H H3]. apply andb_prop in H as [H1 H2]. done.
Qed.

(** A draw that chart [m] fires while the guard is clear and that is not
    its initial draw: the handler returns, and this is what it did. *)
Lemma zoom_draw_propagates (n i m jm : nat) (w : world) (ids : list gid) (o : options)
    (snaps : list snapshot) (c : chart) (this : value) (arguments : list value) :
  active w ids o snaps →
  truthy (zoom o) = true →
  ids !! jm = Some m →
  heap w !! m = Some c →
  arg 0 arguments = VDygraph m →
  truthy (arg 1 arguments) = false →
  ∃ w', call (S (S n)) (SyncDraw i) this arguments w = (Ret tt, w')
    ∧ same_handle w w'
    ∧ (∀ g, heap w' !! g =
            if decide (g ∈ ids ∧ g ≠ m)
            then zoom_update (xAxisRange c) (zoom_range o c) <$> heap w !! g
            else heap w !! g)
    ∧ trace w' = trace w ++
        concat (loop_trace m (call_events (snaps !! jm ≫= s_drawCallback) this arguments)
                  (zoom_events_on (xAxisRange c) (zoom_range o c)) (heap w) <$> ids).
Proof.
  intros Hact Hzoom Hjm Hc Hme Hinit.
  pose proof (act_zoom _ _ _ _ Hact Hzoom) as Hz.
  cbn [call]. unfold zoom_drawCallback.
  unfold deref at 1, bind at 1. rewrite Hz. cbn [z_block orb]. rewrite Hinit.
  unfold set_z_block, modify, bind at 1. rewrite Hz. cbn [fmap option_fmap option_map].
  cbn [z_gs z_syncOpts z_prevCallbacks].
  set (zt := ZoomClosure (VDygraph <$> ids) o (Some (Some <$> snaps)) true).
  set (w1 := set_zoomH (Some zt) w).
  assert (Hc1 : heap w1 !! m = Some c) by done.
  rewrite Hme.
  rewrite (bind_Ret _ _ _ _ _ (get_xAxisRange_Some _ _ _ Hc1)).
  assert (Hyr : (if truthy (range o)
                 then r <- get_yAxisRange (VDygraph m) ;; ret (Some r)
                 else ret None) w1 = (Ret (zoom_range o c), w1)).
  { unfold zoom_range. destruct (truthy (range o)); [|done].
    by rewrite (bind_Ret _ _ _ _ _ (get_yAxisRange_Some _ _ _ Hc1)). }
  rewrite (bind_Ret _ _ _ _ _ Hyr).
  destruct (propagation_loop
              (zoom_propagate (call (S n))
                 (ZoomClosure (VDygraph <$> ids) o (Some (Some <$> snaps)) false)
                 (zoom_patch (xAxisRange c) (zoom_range o c)) this arguments)
              m jm (zoom_update (xAxisRange c) (zoom_range o c))
              (call_events (snaps !! jm ≫= s_drawCallback) this arguments)
              (zoom_events_on (xAxisRange c) (zoom_range o c))
              (λ w, zoomH w = Some zt) (λ c, chart_ok o c = true))
    with (l := ids) (j := 0%nat) (w := w1)
    as (w2 & Hrun & Hsame & Hheap & Htrace).
  { intros w0 w0' (_&_&_&_&->&_). done. }
  { intros c0. apply zoom_update_chart_ok. }
  { intros w0 Hz0.
    exists (log (call_events (snaps !! jm ≫= s_drawCallback) this arguments) w0).
    split; [|by repeat split].
    unfold zoom_propagate. rewrite Hme.
    change (same_object (VDygraph m) (VDygraph m)) with (m =? m)%nat.
    rewrite Nat.eqb_refl. apply call_previous_user.
    intros s Hs. pose proof (Forall_lookup_1 _ _ _ _ (act_snaps _ _ _ _ Hact) Hs) as Hs'.
    by apply snapshot_ok_fields in Hs' as (? & ? & ?). }
  { intros j g c0 w0 Hne Hc0 Hok0 Hz0.
    eapply zoom_propagate_other; try done. by apply chart_ok_draw. }
  { apply Hact. }
  { apply Hact. }
  { apply Hact. }
  { done. }
  { intros k Hk. simpl. eapply NoDup_lookup; [apply Hact|done..]. }
  change (Patch None None None (Some (xAxisRange c)) (zoom_range o c))
    with (zoom_patch (xAxisRange c) (zoom_range o c)).
  rewrite (bind_Ret _ _ _ _ _ Hrun).
  eexists. split; [reflexivity|].
  destruct Hsame as (Hd & Ho & Hp & Hr & Hzh & Hs).
  split; [|split].
  - repeat split; cbn; try done. by rewrite Hzh, Hz.
  - exact Hheap.
  - exact Htrace.
Qed.

(** A step that keeps the handle and the callback slots of every chart
    keeps the handle active. *)
Lemma active_frame (w w' : world) (ids : list gid) (o : options) (snaps : list snapshot) :
  active w ids o snaps →
  same_handle w w' →
  (∀ g c', heap w' !! g = Some c' →
     ∃ c, heap w !! g = Some c
       ∧ drawCallback c' = drawCallback c
       ∧ highlightCallback c' = highlightCallback c
       ∧ unhighlightCallback c' = unhighlightCallback c) →
  (∀ g, is_Some (heap w !! g) → is_Some (heap w' !! g)) →
  active w' ids o snaps.
Proof.
  intros Hact (Hd & Ho & Hp & Hr & Hz & Hs) Hslots Hvalid.
  destruct Hact. constructor; try congruence.
  - eapply Forall_impl; [exact act_valid0|]. intros g. apply Hvalid.
  - apply Forall_lookup. intros g c' Hc'.
    destruct (Hslots g c' Hc') as (c & Hc & Hdr & Hh & Hu).
    pose proof (Forall_lookup_1 _ _ _ _ act_charts0 Hc) as Hok.
    unfold chart_ok in *. by rewrite Hdr, Hh, Hu.
Qed.

(** ** The selection handlers *)

(** Looking a row up on a chart of the heap. *)
Lemma getRowForX_Some (g : gid) (x : value) (c : chart) (w : world) :
  heap w !! g = Some c → getRowForX (VDygraph g) x w = (Ret (row_for x c), w).
Proof.
  intros Hc. unfold getRowForX.
  rewrite (bind_Ret _ _ _ _ _ (as_dygraph_Some _ _ _ Hc)).
  by rewrite (bind_Ret _ _ _ _ _ (get_chart_Some _ _ _ Hc)).
Qed.

(** One turn of the highlight handler's loop on a chart other than the one
    that fired. *)
Lemma highlight_propagate_other (call' : callback → value → list value → M unit)
    (s : selection_closure) (arguments : list value) (m g j : nat) (c : chart) (w : world) :
  g ≠ m →
  heap w !! g = Some c →
  ∃ w', highlight_propagate call' s (VDygraph m) arguments j (VDygraph g) w = (Ret tt, w')
    ∧ same_handle w w'
    ∧ heap w' = alter (highlight_update (arg 1 arguments) (arg 4 arguments)) g (heap w)
    ∧ trace w' = trace w ++ highlight_events_on (arg 1 arguments) (arg 4 arguments) g c.
Proof.
  intros Hne Hc. unfold highlight_propagate.
  change (same_object (VDygraph m) (VDygraph g)) with (m =? g)%nat.
  destruct (Nat.eqb_spec m g) as [|_]; [done|].
  rewrite (bind_Ret _ _ _ _ _ (getRowForX_Some _ _ _ _ Hc)).
  unfold highlight_events_on.
  destruct (row_for (arg 1 arguments) c) as [row|] eqn:Hrow.
  - unfold setSelection.
    rewrite (bind_Ret _ _ _ _ _ (as_dygraph_Some _ _ _ Hc)).
    eexists. split; [reflexivity|]. split; [by repeat split|]. split; [|done].
    cbn. apply (alter_lookup_ext _ _ _ _ c Hc). unfold highlight_update. by rewrite Hrow.
  - exists w. split; [done|]. split; [apply same_handle_refl|].
    split; [|by rewrite app_nil_r].
    symmetry. apply (alter_lookup_id _ _ _ c Hc). unfold highlight_update. by rewrite Hrow.
Qed.

(** One turn of the unhighlight handler's loop on a chart other than the
    one that fired. *)
Lemma unhighlight_propagate_other (call' : callback → value → list value → M unit)
    (s : selection_closure) (arguments : list value) (m g j : nat) (c : chart) (w : world) :
  g ≠ m →
  heap w !! g = Some c →
  ∃ w', unhighlight_propagate call' s (VDygraph m) arguments j (VDygraph g) w = (Ret tt, w')
    ∧ same_handle w w'
    ∧ heap w' = alter (with_selected None) g (heap w)
    ∧ trace w' = trace w ++ [EvClearSelection g].
Proof.
  intros Hne Hc. unfold unhighlight_propagate.
  change (same_object (VDygraph m) (VDygraph g)) with (m =? g)%nat.
  destruct (Nat.eqb_spec m g) as [|_]; [done|].
  unfold clearSelection.
  rewrite (bind_Ret _ _ _ _ _ (as_dygraph_Some _ _ _ Hc)).
  eexists. split; [reflexivity|]. by repeat split.
Qed.

(** Selecting a row leaves the three callback slots alone. *)
Lemma highlight_update_slots (x seriesName : value) (c : chart) :
  drawCallback (highlight_update x seriesName c) = drawCallback c
  ∧ highlightCallback (highlight_update x seriesName c) = highlightCallback c
  ∧ unhighlightCallback (highlight_update x seriesName c) = unhighlightCallback c.
Proof. unfold highlight_update. by destruct (row_for x c). Qed.

(** A highlight that chart [m] fires while the guard is clear. *)
Lemma highlight_propagates (n i m jm : nat) (w : world) (ids : list gid) (o : options)
    (snaps : list snapshot) (arguments : list value) :
  active w ids o snaps →
  truthy (selection o) = true →
  ids !! jm = Some m →
  ∃ w', call (S (S n)) (SyncHighlight i) (VDygraph m) arguments w = (Ret tt, w')
    ∧ same_handle w w'
    ∧ (∀ g, heap w' !! g =
            if decide (g ∈ ids ∧ g ≠ m)
            then highlight_update (arg 1 arguments) (arg 4 arguments) <$> heap w !! g
            else heap w !! g)
    ∧ trace w' = trace w ++
        concat (loop_trace m
                  (call_events (snaps !! jm ≫= s_highlightCallback) (VDygraph m) arguments)
                  (highlight_events_on (arg 1 arguments) (arg 4 arguments)) (heap w) <$> ids).
Proof.
  intros Hact Hsel Hjm.
  pose proof (act_selection _ _ _ _ Hact Hsel) as Hs.
  cbn [call]. unfold selection_highlightCallback.
  unfold deref at 1, bind at 1. rewrite Hs. cbn [s_block].
  unfold set_s_block, modify, bind at 1. rewrite Hs. cbn [fmap option_fmap option_map].
  cbn [s_gs s_prevCallbacks].
  set (sc := SelectionClosure (VDygraph <$> ids) (Some (Some <$> snaps)) false).
  set (w1 := set_selH (Some (SelectionClosure (VDygraph <$> ids) (Some (Some <$> snaps)) true)) w).
  destruct (propagation_loop
              (highlight_propagate (call (S n)) sc (VDygraph m) arguments)
              m jm (highlight_update (arg 1 arguments) (arg 4 arguments))
              (call_events (snaps !! jm ≫= s_highlightCallback) (VDygraph m) arguments)
              (highlight_events_on (arg 1 arguments) (arg 4 arguments))
              (λ _, True) (λ _, True))
    with (l := ids) (j := 0%nat) (w := w1)
    as (w2 & Hrun & Hsame & Hheap & Htrace); try done.
  { intros w0 _.
    exists (log (call_events (snaps !! jm ≫= s_highlightCallback) (VDygraph m) arguments) w0).
    split; [|by repeat split].
    unfold highlight_propagate.
    change (same_object (VDygraph m) (VDygraph m)) with (m =? m)%nat.
    rewrite Nat.eqb_refl. apply call_previous_user.
    intros s Hs'. pose proof (Forall_lookup_1 _ _ _ _ (act_snaps _ _ _ _ Hact) Hs') as Hs''.
    by apply snapshot_ok_fields in Hs'' as (? & ? & ?). }
  { intros j g c0 w0 Hne Hc0 _ _. by apply highlight_propagate_other. }
  { apply Hact. }
  { apply Hact. }
  { by apply Forall_forall. }
  { intros k Hk. simpl. eapply NoDup_lookup; [apply Hact|done..]. }
  rewrite (bind_Ret _ _ _ _ _ Hrun).
  eexists. split; [reflexivity|].
  destruct Hsame as (Hd & Ho & Hp & Hr & Hzh & Hsh).
  split; [|split].
  - repeat split; cbn; try done. by rewrite Hsh, Hs.
  - exact Hheap.
  - exact Htrace.
Qed.

(** An unhighlight that chart [m] fires while the guard is clear. *)
Lemma unhighlight_propagates (n i m jm : nat) (w : world) (ids : list gid) (o : options)
    (snaps : list snapshot) (arguments : list value) :
  active w ids o snaps →
  truthy (selection o) = true →
  ids !! jm = Some m →
  ∃ w', call (S (S n)) (SyncUnhighlight i) (VDygraph m) arguments w = (Ret tt, w')
    ∧ same_handle w w'
    ∧ (∀ g, heap w' !! g =
            if decide (g ∈ ids ∧ g ≠ m)
            then with_selected None <$> heap w !! g
            else heap w !! g)
    ∧ trace w' = trace w ++
        concat (loop_trace m
                  (call_events (snaps !! jm ≫= s_unhighlightCallback) (VDygraph m) arguments)
                  (λ g _, [EvClearSelection g]) (heap w) <$> ids).
Proof.
  intros Hact Hsel Hjm.
  pose proof (act_selection _ _ _ _ Hact Hsel) as Hs.
  cbn [call]. unfold selection_unhighlightCallback.
  unfold deref at 1, bind at 1. rewrite Hs. cbn [s_block].
  unfold set_s_block, modify, bind at 1. rewrite Hs. cbn [fmap option_fmap option_map].
  cbn [s_gs s_prevCallbacks].
  set (sc := SelectionClosure (VDygraph <$> ids) (Some (Some <$> snaps)) false).
  set (w1 := set_selH (Some (SelectionClosure (VDygraph <$> ids) (Some (Some <$> snaps)) true)) w).
  destruct (propagation_loop
              (unhighlight_propagate (call (S n)) sc (VDygraph m) arguments)
              m jm (with_selected None)
              (call_events (snaps !! jm ≫= s_unhighlightCallback) (VDygraph m) arguments)
              (λ g _, [EvClearSelection g])
              (λ _, True) (λ _, True))
    with (l := ids) (j := 0%nat) (w := w1)
    as (w2 & Hrun & Hsame & Hheap & Htrace); try done.
  { intros w0 _.
    exists (log (call_events (snaps !! jm ≫= s_unhighlightCallback) (VDygraph m) arguments) w0).
    split; [|by repeat split].
    unfold unhighlight_propagate.
    change (same_object (VDygraph m) (VDygraph m)) with (m =? m)%nat.
    rewrite Nat.eqb_refl. apply call_previous_user.
    intros s Hs'. pose proof (Forall_lookup_1 _ _ _ _ (act_snaps _ _ _ _ Hact) Hs') as Hs''.
    by apply snapshot_ok_fields in Hs'' as (? & ? & ?). }
  { intros j g c0 w0 Hne Hc0 _ _. by eapply unhighlight_propagate_other. }
  { apply Hact. }
  { apply Hact. }
  { by apply Forall_forall. }
  { intros k Hk. simpl. eapply NoDup_lookup; [apply Hact|done..]. }
  rewrite (bind_Ret _ _ _ _ _ Hrun).
  eexists. split; [reflexivity|].
  destruct Hsame as (Hd & Ho & Hp & Hr & Hzh & Hsh).
  split; [|split].
  - repeat split; cbn; try done. by rewrite Hsh, Hs.
  - exact Hheap.
  - exact Htrace.
Qed.

(** ** Detach *)

(** [updateOptions] with a redraw on a chart whose draw callback is the
    application's (or absent). *)
Lemma updateOptions_redraw_user (n : nat) (g : gid) (c : chart) (p : patch) (w : world) :
  heap w !! g = Some c →
  user_only (drawCallback (apply_patch p c)) = true →
  ∃ w', updateOptions (call (S n)) (VDygraph g) p false w = (Ret tt, w')
    ∧ same_handle w w'
    ∧ heap w' = alter (apply_patch p) g (heap w)
    ∧ trace w' = trace w ++ EvUpdateOptions g p false
        :: call_events (drawCallback (apply_patch p c)) (VDygraph g) [VDygraph g; VBool false].
Proof.
  intros Hc Hu. unfold updateOptions.
  rewrite (bind_Ret _ _ _ _ _ (as_dygraph_Some _ _ _ Hc)).
  unfold emit, modify_chart, modify, bind at 1 2.
  unfold redraw.
  erewrite bind_Ret; last first.
  { apply get_chart_Some. cbn. rewrite list_lookup_alter_eq, Hc. done. }
  rewrite call_user_only by done.
  eexists. split; [reflexivity|]. split; [by repeat split|]. split; [done|].
  cbn. by rewrite <- app_assoc.
Qed.

(** A slot that holds a callback of the application is well formed. *)
Lemma user_only_slot_ok (o : options) (name : hook) (cb : option callback) :
  user_only cb = true → slot_ok o name cb = true.
Proof. by destruct cb as [[]|]. Qed.

(** With [zoom] disabled a well-formed draw slot holds a callback of the
    application. *)
Lemma slot_ok_disabled (o : options) (cb : option callback) :
  truthy (zoom o) = false → slot_ok o HDraw cb = true → user_only cb = true.
Proof. intros Hz. destruct cb as [[]|]; simpl; congruence. Qed.

(** Restoring the captured callbacks keeps a chart well formed. *)
Lemma detach_update_chart_ok (o : options) (s : snapshot) (c : chart) :
  snapshot_ok s = true → chart_ok o c = true → chart_ok o (detach_update o s c) = true.
Proof.
  intros Hs Hc. apply snapshot_ok_fields in Hs as (Hd & Hh & Hu).
  unfold chart_ok in *.
  apply andb_prop in Hc as [Hc H3]. apply andb_prop in Hc as [H1 H2].
  unfold detach_update.
  destruct (truthy (zoom o)), (truthy (selection o)); cbn;
    rewrite ?H1, ?H2, ?H3, ?(user_only_slot_ok _ _ _ Hd),
      ?(user_only_slot_ok _ _ _ Hh), ?(user_only_slot_ok _ _ _ Hu); done.
Qed.

(** One turn of the loop of [detach]. *)
Lemma detach_chart_ok (n : nat) (o : options) (snaps : list snapshot) (s : snapshot)
    (i g : nat) (c : chart) (w : world) :
  opts w = Some o →
  prevCallbacks w = Some (Some <$> snaps) →
  snaps !! i = Some s →
  snapshot_ok s = true →
  heap w !! g = Some c →
  chart_ok o c = true →
  ∃ w', detach_chart (call (S n)) i (VDygraph g) w = (Ret tt, w')
    ∧ same_handle w w'
    ∧ heap w' = alter (detach_update o s) g (heap w)
    ∧ trace w' = trace w ++ detach_events o s g c.
Proof.
  intros Ho Hp Hs Hsok Hc Hcok.
  apply snapshot_ok_fields in Hsok as (Hd & Hh & Hu).
  pose proof (chart_ok_draw _ _ Hcok) as Hdraw.
  unfold detach_chart.
  assert (Hderef : ∀ w0, opts w0 = Some o → deref opts w0 = (Ret o, w0)).
  { intros w0 H0. unfold deref. by rewrite H0. }
  assert (Hprev : ∀ w0, prevCallbacks w0 = Some (Some <$> snaps) →
            deref prevCallbacks w0 = (Ret (Some <$> snaps), w0)).
  { intros w0 H0. unfold deref. by rewrite H0. }
  assert (Hentry : ∀ w0, deref (λ _, mjoin ((Some <$> snaps) !! i)) w0 = (Ret s, w0)).
  { intros w0. unfold deref. by rewrite list_lookup_fmap, Hs. }
  rewrite (bind_Ret _ _ _ _ _ (Hderef w Ho)).
  set (c1 := if truthy (zoom o) then apply_patch (restore_draw s) c else c).
  assert (Hu1 : truthy (selection o) = true →
            user_only (drawCallback (apply_patch (restore_selection s) c1)) = true).
  { intros _. subst c1. destruct (truthy (zoom o)) eqn:Hz; cbn; [done|].
    by apply (slot_ok_disabled o). }
  assert (Hfirst : ∃ w1,
    (if truthy (zoom o)
     then prev <- deref prevCallbacks ;;
          s0 <- deref (λ _, mjoin (prev !! i)) ;;
          updateOptions (call (S n)) (VDygraph g)
            (Patch (Some (s_drawCallback s0)) None None None None) false
     else ret tt) w = (Ret tt, w1)
    ∧ same_handle w w1
    ∧ heap w1 = alter (λ c, if truthy (zoom o) then apply_patch (restore_draw s) c else c)
                  g (heap w)
    ∧ trace w1 = trace w ++
        (if truthy (zoom o)
         then EvUpdateOptions g (restore_draw s) false
              :: call_events (drawCallback c1) (VDygraph g) [VDygraph g; VBool false]
         else [])).
  { subst c1. destruct (truthy (zoom o)).
    - rewrite (bind_Ret _ _ _ _ _ (Hprev w Hp)).
      rewrite (bind_Ret _ _ _ _ _ (Hentry w)).
      apply (updateOptions_redraw_user n g c (restore_draw s) w Hc). done.
    - exists w. split; [done|]. split; [apply same_handle_refl|].
      split; [|by rewrite app_nil_r].
      symmetry. by apply list_alter_id. }
  destruct Hfirst as (w1 & Hrun1 & Hsame1 & Hheap1 & Htrace1).
  rewrite (bind_Ret _ _ _ _ _ Hrun1).
  destruct Hsame1 as (Hd1 & Ho1 & Hp1 & Hr1 & Hz1 & Hs1).
  rewrite (bind_Ret _ _ _ _ _ (Hderef w1 ltac:(congruence))).
  assert (Hc1 : heap w1 !! g = Some c1).
  { rewrite Hheap1, list_lookup_alter_eq, Hc. done. }
  unfold detach_update, detach_events. fold c1.
  destruct (truthy (selection o)) eqn:Hsel.
  - rewrite (bind_Ret _ _ _ _ _ (Hprev w1 ltac:(congruence))).
    rewrite (bind_Ret _ _ _ _ _ (Hentry w1)).
    destruct (updateOptions_redraw_user n g c1 (restore_selection s) w1 Hc1 (Hu1 eq_refl))
      as (w2 & Hrun2 & Hsame2 & Hheap2 & Htrace2).
    exists w2. split; [done|]. split.
    { eapply same_handle_trans; [|exact Hsame2]. by repeat split. }
    split.
    + rewrite Hheap2, Hheap1, list_alter_alter_eq. done.
    + rewrite Htrace2, Htrace1, <- app_assoc. done.
  - exists w1. split; [done|]. split; [by repeat split|]. split.
    + rewrite Hheap1. done.
    + rewrite Htrace1. by rewrite app_nil_r.
Qed.

(** [zip_with] depends on the function only at the elements of the first
    list. *)
Lemma zip_with_ext_in {A B C} (f h : A → B → C) (l : list A) (k : list B) :
  (∀ x, x ∈ l → ∀ y, f x y = h x y) → zip_with f l k = zip_with h l k.
Proof.
  revert k. induction l as [|x l IH]; intros [|y k] Hext; simpl; try done.
  f_equal.
  - apply Hext. apply list_elem_of_here.
  - apply IH. intros x' Hx'. apply Hext. by apply list_elem_of_further.
Qed.

(** The loop of [detach] over a group of distinct charts. *)
Lemma detach_loop (n : nat) (o : options) (l : list gid) :
  ∀ (ss pre : list snapshot) (w : world),
    length l = length ss →
    opts w = Some o →
    prevCallbacks w = Some (Some <$> (pre ++ ss)) →
    Forall (λ s, snapshot_ok s = true) ss →
    NoDup l →
    Forall (λ g, is_Some (heap w !! g)) l →
    Forall (λ c, chart_ok o c = true) (heap w) →
    ∃ w', for_each (detach_chart (call (S n))) (length pre) (VDygraph <$> l) w = (Ret tt, w')
      ∧ same_handle w w'
      ∧ (∀ g, g ∉ l → heap w' !! g = heap w !! g)
      ∧ (∀ k g s, l !! k = Some g → ss !! k = Some s →
           heap w' !! g = detach_update o s <$> heap w !! g)
      ∧ trace w' = trace w ++
          concat (zip_with (λ g s, from_option (detach_events o s g) [] (heap w !! g)) l ss).
Proof.
  induction l as [|g l IH]; intros ss pre w Hlen Ho Hp Hss Hnd Hvalid Hok.
  - exists w. split; [reflexivity|]. split; [apply same_handle_refl|].
    split; [done|]. split; [by intros [|?] ?|]. by rewrite app_nil_r.
  - destruct ss as [|s ss]; [done|].
    apply NoDup_cons in Hnd as [Hnotin Hnd].
    apply Forall_cons in Hvalid as [[c Hc] Hvalid].
    apply Forall_cons in Hss as [Hs Hss].
    rewrite fmap_cons. cbn [for_each].
    destruct (detach_chart_ok n o (pre ++ s :: ss) s (length pre) g c w)
      as (w1 & Hstep & Hsame1 & Hheap1 & Htrace1); try done.
    { by rewrite lookup_app_r, Nat.sub_diag. }
    { exact (Forall_lookup_1 _ _ _ _ Hok Hc). }
    rewrite (bind_Ret _ _ _ _ _ Hstep).
    destruct Hsame1 as (Hd1 & Ho1 & Hp1 & Hr1 & Hz1 & Hs1).
    destruct (IH ss (pre ++ [s]) w1) as (w' & Hrun & Hsame & Hheap & Hat & Htrace).
    { simpl in Hlen. lia. }
    { congruence. }
    { rewrite Hp1, Hp, <- app_assoc. done. }
    { done. }
    { done. }
    { rewrite Hheap1. eapply Forall_impl; [exact Hvalid|].
      intros g' [c' Hc']. simpl.
      destruct (decide (g = g')) as [->|].
      - rewrite list_lookup_alter_eq. apply fmap_is_Some. by exists c'.
      - rewrite list_lookup_alter_ne by done. by eexists. }
    { rewrite Hheap1. apply Forall_alter; [done|].
      intros c' _. by apply detach_update_chart_ok. }
    rewrite length_app in Hrun. simpl in Hrun.
    replace (length pre + 1)%nat with (S (length pre)) in Hrun by lia.
    exists w'. split; [done|]. split.
    { eapply same_handle_trans; [|exact Hsame]. by repeat split. }
    split; [|split].
    + intros g' Hg'. apply not_elem_of_cons in Hg' as [Hne Hg'].
      rewrite (Hheap g' Hg'), Hheap1. by apply list_lookup_alter_ne.
    + intros [|k] g' s' Hg' Hs'; simplify_eq/=.
      * rewrite (Hheap g' Hnotin), Hheap1. apply list_lookup_alter_eq.
      * rewrite (Hat k g' s' Hg' Hs'), Hheap1.
        rewrite list_lookup_alter_ne; [done|].
        intros ->. apply Hnotin. by eapply list_elem_of_lookup_2.
    + rewrite Htrace, Htrace1. cbn [zip_with concat].
      rewrite <- app_assoc, Hc. f_equal. f_equal. f_equal.
      apply zip_with_ext_in. intros g' Hg' s'.
      rewrite Hheap1, list_lookup_alter_ne; [done|].
      intros ->. done.
Qed.

(** [detach] on an active handle returns, and this is what it did. *)
Lemma detach_active (n : nat) (w : world) (ids : list gid) (o : options)
    (snaps : list snapshot) :
  active w ids o snaps →
  ∃ w', detach (call (S n)) w = (Ret tt, w')
    ∧ dygraphs w' = None ∧ opts w' = None ∧ prevCallbacks w' = None
    ∧ (∀ g, g ∉ ids → heap w' !! g = heap w !! g)
    ∧ (∀ k g s, ids !! k = Some g → snaps !! k = Some s →
         heap w' !! g = detach_update o s <$> heap w !! g)
    ∧ trace w' = trace w ++
        concat (zip_with (λ g s, from_option (detach_events o s g) [] (heap w !! g))
                  ids snaps).
Proof.
  intros Hact. unfold detach.
  unfold deref at 1, bind at 1. rewrite (act_dygraphs _ _ _ _ Hact).
  destruct (detach_loop n o ids snaps [] w) as (w1 & Hrun & Hsame & Hheap & Hat & Htrace);
    try apply Hact.
  { symmetry. apply Hact. }
  simpl length in Hrun.
  rewrite (bind_Ret _ _ _ _ _ Hrun).
  eexists. split; [reflexivity|]. by repeat split.
Qed.

(** [detach] before the previous callbacks were captured. *)
Lemma detach_before_capture (call' : callback → value → list value → M unit)
    (w : world) (g : value) (gs : list value) (o : options) :
  dygraphs w = Some (g :: gs) →
  opts w = Some o →
  prevCallbacks w = Some [] →
  truthy (zoom o) || truthy (selection o) = true →
  detach call' w = (Throw TypeError, w).
Proof.
  intros Hd Ho Hp Hen. unfold detach.
  unfold deref at 1, bind at 1. rewrite Hd. cbn [for_each].
  unfold detach_chart.
  unfold deref at 1, bind at 1 2 3. rewrite Ho.
  destruct (truthy (zoom o)) eqn:Hz.
  - unfold deref, bind. rewrite Hp. done.
  - simpl in Hen. unfold ret at 1, deref, bind. rewrite Ho, Hen, Hp. done.
Qed.

(** A completed [detach] has set the three variables to null, after which
    reading [dygraphs.length] throws. *)
Lemma detach_completed (call' : callback → value → list value → M unit) (w w' : world) :
  detach call' w = (Ret tt, w') →
  dygraphs w' = None ∧ opts w' = None ∧ prevCallbacks w' = None.
Proof.
  unfold detach, bind, deref.
  destruct (dygraphs w) as [gs|]; [|done].
  destruct (for_each (detach_chart call') 0 gs w) as [[[]|e] w1]; [|done].
  unfold modify. by intros [= <-].
Qed.

(** [detach] on a released handle throws before anything else. *)
Lemma detach_released (call' : callback → value → list value → M unit) (w : world) :
  dygraphs w = None → detach call' w = (Throw TypeError, w).
Proof. intros H. unfold detach, bind, deref. by rewrite H. Qed.

(** ** The guards *)

(** The draw handler with the guard set, or on an initial draw, returns
    at once. *)
Lemma zoom_draw_guarded (n i : nat) (w : world) (z : zoom_closure)
    (this : value) (arguments : list value) :
  zoomH w = Some z →
  z_block z || truthy (arg 1 arguments) = true →
  call (S n) (SyncDraw i) this arguments w = (Ret tt, w).
Proof.
  intros Hz Hg. cbn [call]. unfold zoom_drawCallback, deref, bind.
  by rewrite Hz, Hg.
Qed.

(** The highlight handler with the guard set returns at once. *)
Lemma highlight_guarded (n i : nat) (w : world) (s : selection_closure)
    (this : value) (arguments : list value) :
  selH w = Some s → s_block s = true →
  call (S n) (SyncHighlight i) this arguments w = (Ret tt, w).
Proof.
  intros Hs Hg. cbn [call]. unfold selection_highlightCallback, deref, bind.
  by rewrite Hs, Hg.
Qed.

(** The unhighlight handler with the guard set returns at once. *)
Lemma unhighlight_guarded (n i : nat) (w : world) (s : selection_closure)
    (this : value) (arguments : list value) :
  selH w = Some s → s_block s = true →
  call (S n) (SyncUnhighlight i) this arguments w = (Ret tt, w).
Proof.
  intros Hs Hg. cbn [call]. unfold selection_unhighlightCallback, deref, bind.
  by rewrite Hs, Hg.
Qed.

(** ** Events on the page, from the active state *)

(** A pointwise update that leaves the callback slots alone: the slots of
    every chart are kept, and no chart disappears. *)
Lemma heap_update_slots (upd : chart → chart) (P : gid → Prop) `{∀ g, Decision (P g)}
    (h h' : list chart) :
  (∀ c, drawCallback (upd c) = drawCallback c
        ∧ highlightCallback (upd c) = highlightCallback c
        ∧ unhighlightCallback (upd c) = unhighlightCallback c) →
  (∀ g, h' !! g = if decide (P g) then upd <$> h !! g else h !! g) →
  (∀ g c', h' !! g = Some c' →
     ∃ c, h !! g = Some c
       ∧ drawCallback c' = drawCallback c
       ∧ highlightCallback c' = highlightCallback c
       ∧ unhighlightCallback c' = unhighlightCallback c)
  ∧ (∀ g, is_Some (h !! g) → is_Some (h' !! g)).
Proof.
  intros Hupd Hh. split.
  - intros g c'. rewrite Hh. destruct (decide (P g)).
    + intros Hc'. apply fmap_Some in Hc' as (c & Hc & ->). exists c. split; [done|]. apply Hupd.
    + intros Hc'. by exists c'.
  - intros g Hg. rewrite Hh. destruct (decide (P g)); [|done]. by apply fmap_is_Some.
Qed.

(** After a draw the handle is active again: in particular the guard is
    clear. *)
Lemma zoom_draw_active (n i m jm : nat) (w : world) (ids : list gid) (o : options)
    (snaps : list snapshot) (c : chart) (this : value) (arguments : list value) :
  active w ids o snaps →
  truthy (zoom o) = true →
  ids !! jm = Some m →
  heap w !! m = Some c →
  arg 0 arguments = VDygraph m →
  ∃ w', call (S (S n)) (SyncDraw i) this arguments w = (Ret tt, w')
    ∧ active w' ids o snaps.
Proof.
  intros Hact Hzoom Hjm Hc Hme.
  destruct (truthy (arg 1 arguments)) eqn:Hinit.
  - exists w. split; [|done].
    apply (zoom_draw_guarded _ _ _ _ _ _ (act_zoom _ _ _ _ Hact Hzoom)).
    by rewrite Hinit, orb_true_r.
  - destruct (zoom_draw_propagates n i m jm w ids o snaps c this arguments)
      as (w' & Hrun & Hsame & Hheap & _); try done.
    exists w'. split; [done|].
    destruct (heap_update_slots _ _ _ _ (zoom_update_slots _ _) Hheap) as [H1 H2].
    by eapply active_frame.
Qed.

(** The highlight handler of an active handle returns and keeps it active. *)
Lemma highlight_active (n i m jm : nat) (w : world) (ids : list gid) (o : options)
    (snaps : list snapshot) (arguments : list value) :
  active w ids o snaps →
  truthy (selection o) = true →
  ids !! jm = Some m →
  ∃ w', call (S (S n)) (SyncHighlight i) (VDygraph m) arguments w = (Ret tt, w')
    ∧ active w' ids o snaps.
Proof.
  intros Hact Hsel Hjm.
  destruct (highlight_propagates n i m jm w ids o snaps arguments)
    as (w' & Hrun & Hsame & Hheap & _); try done.
  exists w'. split; [done|].
  destruct (heap_update_slots _ _ _ _ (highlight_update_slots _ _) Hheap) as [H1 H2].
  by eapply active_frame.
Qed.

(** The unhighlight handler of an active handle returns and keeps it
    active. *)
Lemma unhighlight_active (n i m jm : nat) (w : world) (ids : list gid) (o : options)
    (snaps : list snapshot) (arguments : list value) :
  active w ids o snaps →
  truthy (selection o) = true →
  ids !! jm = Some m →
  ∃ w', call (S (S n)) (SyncUnhighlight i) (VDygraph m) arguments w = (Ret tt, w')
    ∧ active w' ids o snaps.
Proof.
  intros Hact Hsel Hjm.
  destruct (unhighlight_propagates n i m jm w ids o snaps arguments)
    as (w' & Hrun & Hsame & Hheap & _); try done.
  exists w'. split; [done|].
  assert (Hslots : ∀ c, drawCallback (with_selected None c) = drawCallback c
        ∧ highlightCallback (with_selected None c) = highlightCallback c
        ∧ unhighlightCallback (with_selected None c) = unhighlightCallback c) by done.
  destruct (heap_update_slots _ _ _ _ Hslots Hheap) as [H1 H2].
  by eapply active_frame.
Qed.

(** Changing a chart without touching its callback slots keeps the handle
    active. *)
Lemma active_alter (w : world) (ids : list gid) (o : options) (snaps : list snapshot)
    (f : chart → chart) (g : gid) :
  active w ids o snaps →
  (∀ c, drawCallback (f c) = drawCallback c
        ∧ highlightCallback (f c) = highlightCallback c
        ∧ unhighlightCallback (f c) = unhighlightCallback c) →
  active (set_heap (alter f g (heap w)) w) ids o snaps.
Proof.
  intros Hact Hf. eapply active_frame; [exact Hact|by repeat split|..].
  - intros g' c'. cbn [heap set_heap].
    destruct (decide (g = g')) as [->|Hne].
    + rewrite list_lookup_alter_eq. intros Hc'.
      apply fmap_Some in Hc' as (c & Hc & ->). exists c. split; [done|]. apply Hf.
    + rewrite list_lookup_alter_ne by done. intros Hc'. by exists c'.
  - intros g' Hg'. cbn [heap set_heap].
    destruct (decide (g = g')) as [->|Hne].
    + rewrite list_lookup_alter_eq. by apply fmap_is_Some.
    + by rewrite list_lookup_alter_ne.
Qed.

(** The user changes the viewport of chart [m], on which the draw handler
    is installed. *)
Lemma user_zoom_propagates (n i m jm : nat) (w : world) (ids : list gid) (o : options)
    (snaps : list snapshot) (c : chart) (xr yr : list Z) :
  active w ids o snaps →
  ids !! jm = Some m →
  heap w !! m = Some c →
  drawCallback c = Some (SyncDraw i) →
  let yr' := if truthy (range o) then Some yr else None in
  ∃ w', user_zoom (S (S n)) m xr yr w = (Ret tt, w')
    ∧ active w' ids o snaps
    ∧ heap w' !! m = Some (with_viewport xr yr c)
    ∧ (∀ g, g ≠ m → heap w' !! g =
            if decide (g ∈ ids) then zoom_update xr yr' <$> heap w !! g else heap w !! g)
    ∧ trace w' = trace w ++
        concat (loop_trace m
                  (call_events (snaps !! jm ≫= s_drawCallback) (VDygraph m)
                     [VDygraph m; VBool false])
                  (zoom_events_on xr yr') (heap w) <$> ids).
Proof.
  intros Hact Hjm Hc Hslot yr'.
  assert (Hzoom : truthy (zoom o) = true).
  { pose proof (Forall_lookup_1 _ _ _ _ (act_charts _ _ _ _ Hact) Hc) as Hok.
    apply chart_ok_draw in Hok. by rewrite Hslot in Hok. }
  unfold user_zoom.
  rewrite (bind_Ret _ _ _ _ _ (get_chart_Some _ _ _ Hc)).
  unfold modify_chart, modify, bind at 1.
  set (w1 := set_heap (alter (with_viewport xr yr) m (heap w)) w).
  assert (Hact1 : active w1 ids o snaps) by (by apply active_alter).
  assert (Hc1 : heap w1 !! m = Some (with_viewport xr yr c)).
  { subst w1. cbn [heap set_heap]. by rewrite list_lookup_alter_eq, Hc. }
  unfold redraw. rewrite (bind_Ret _ _ _ _ _ (get_chart_Some _ _ _ Hc1)).
  cbn [drawCallback with_viewport]. rewrite Hslot.
  destruct (zoom_draw_propagates n i m jm w1 ids o snaps (with_viewport xr yr c)
              (VDygraph m) [VDygraph m; VBool false])
    as (w' & Hrun & Hsame & Hheap & Htrace); try done.
  exists w'. split; [done|].
  cbn [xAxisRange yAxisRange with_viewport] in Hheap, Htrace.
  change (zoom_range o (with_viewport xr yr c)) with yr' in Hheap, Htrace.
  split; [|split; [|split]].
  - destruct (heap_update_slots _ _ _ _ (zoom_update_slots _ _) Hheap) as [H1 H2].
    by eapply active_frame.
  - rewrite Hheap. rewrite decide_False by (intros [_ ?]; done). done.
  - intros g Hne. rewrite Hheap. subst w1. cbn [heap set_heap].
    rewrite list_lookup_alter_ne by done.
    destruct (decide (g ∈ ids)).
    + by rewrite decide_True.
    + rewrite decide_False; [done|]. by intros [? _].
  - rewrite Htrace. f_equal. f_equal.
    apply list_fmap_ext. intros k g Hg. unfold loop_trace.
    destruct (Nat.eqb_spec g m) as [|Hne]; [done|].
    subst w1. cbn [heap set_heap]. by rewrite list_lookup_alter_ne.
Qed.

(** The pointer moves over chart [m], on which the highlight handler is
    installed. *)
Lemma pointer_move_propagates (n i m jm : nat) (w : world) (ids : list gid) (o : options)
    (snaps : list snapshot) (c : chart) (arguments : list value) :
  active w ids o snaps →
  ids !! jm = Some m →
  heap w !! m = Some c →
  highlightCallback c = Some (SyncHighlight i) →
  ∃ w', pointer_move (S (S n)) m arguments w = (Ret tt, w')
    ∧ active w' ids o snaps
    ∧ (∀ g, heap w' !! g =
            if decide (g ∈ ids ∧ g ≠ m)
            then highlight_update (arg 1 arguments) (arg 4 arguments) <$> heap w !! g
            else heap w !! g)
    ∧ trace w' = trace w ++
        concat (loop_trace m
                  (call_events (snaps !! jm ≫= s_highlightCallback) (VDygraph m) arguments)
                  (highlight_events_on (arg 1 arguments) (arg 4 arguments)) (heap w) <$> ids).
Proof.
  intros Hact Hjm Hc Hslot.
  assert (Hsel : truthy (selection o) = true).
  { pose proof (Forall_lookup_1 _ _ _ _ (act_charts _ _ _ _ Hact) Hc) as Hok.
    unfold chart_ok in Hok. apply andb_prop in Hok as [Hok _].
    apply andb_prop in Hok as [_ Hok]. by rewrite Hslot in Hok. }
  unfold pointer_move.
  rewrite (bind_Ret _ _ _ _ _ (get_chart_Some _ _ _ Hc)). rewrite Hslot.
  destruct (highlight_propagates n i m jm w ids o snaps arguments)
    as (w' & Hrun & Hsame & Hheap & Htrace); try done.
  exists w'. split; [done|]. split; [|done].
  destruct (heap_update_slots _ _ _ _ (highlight_update_slots _ _) Hheap) as [H1 H2].
  by eapply active_frame.
Qed.

(** Appending to the trace keeps the handle active. *)
Lemma active_log (w : world) (ids : list gid) (o : options) (snaps : list snapshot)
    (evs : list event) :
  active w ids o snaps → active (log evs w) ids o snaps.
Proof. intros []. by constructor. Qed.

(** The three slots of a well-formed chart. *)
Lemma chart_ok_slots (o : options) (c : chart) :
  chart_ok o c = true →
  slot_ok o HDraw (drawCallback c) = true
  ∧ slot_ok o HHighlight (highlightCallback c) = true
  ∧ slot_ok o HUnhighlight (unhighlightCallback c) = true.
Proof.
  unfold chart_ok. intros H.
  apply andb_prop in H as [H H3]. apply andb_prop in H as [H1 H2]. done.
Qed.

(** Every event on a chart of the group runs to completion and leaves the
    handle active. *)
Lemma fire_active (n : nat) (ev : page_event) (w : world) (ids : list gid) (o : options)
    (snaps : list snapshot) :
  active w ids o snaps →
  target ev ∈ ids →
  ∃ w', fire (S (S n)) ev w = (Ret tt, w') ∧ active w' ids o snaps.
Proof.
  intros Hact Hin.
  apply list_elem_of_lookup_1 in Hin as [jm Hjm].
  pose proof (act_valid _ _ _ _ Hact) as Hvalid.
  destruct (Forall_lookup_1 _ _ _ _ Hvalid Hjm) as [c Hc].
  pose proof (Forall_lookup_1 _ _ _ _ (act_charts _ _ _ _ Hact) Hc) as Hok.
  apply chart_ok_slots in Hok as (Hdraw & Hhigh & Hunhigh).
  destruct ev as [g xr yr|g arguments|g arguments]; cbn [target fire] in *.
  - destruct (drawCallback c) as [[f|i|i|i]|] eqn:Hslot; try done.
    + unfold user_zoom.
      rewrite (bind_Ret _ _ _ _ _ (get_chart_Some _ _ _ Hc)).
      unfold modify_chart, modify, bind at 1, redraw.
      erewrite bind_Ret; last first.
      { apply get_chart_Some. cbn [heap set_heap]. by rewrite list_lookup_alter_eq, Hc. }
      cbn [drawCallback with_viewport]. rewrite Hslot. cbn [call].
      eexists. split; [reflexivity|]. apply (active_log _ _ _ _ [_]).
      by apply active_alter.
    + destruct (user_zoom_propagates n i g jm w ids o snaps c xr yr)
        as (w' & Hrun & Hact' & _); try done. by exists w'.
    + unfold user_zoom.
      rewrite (bind_Ret _ _ _ _ _ (get_chart_Some _ _ _ Hc)).
      unfold modify_chart, modify, bind at 1, redraw.
      erewrite bind_Ret; last first.
      { apply get_chart_Some. cbn [heap set_heap]. by rewrite list_lookup_alter_eq, Hc. }
      cbn [drawCallback with_viewport]. rewrite Hslot.
      eexists. split; [reflexivity|]. by apply active_alter.
  - unfold pointer_move.
    rewrite (bind_Ret _ _ _ _ _ (get_chart_Some _ _ _ Hc)).
    destruct (highlightCallback c) as [[f|i|i|i]|] eqn:Hslot; try done.
    + eexists. split; [reflexivity|]. by apply (active_log _ _ _ _ [_]).
    + by apply (highlight_active n i g jm).
    + by exists w.
  - unfold pointer_out.
    rewrite (bind_Ret _ _ _ _ _ (get_chart_Some _ _ _ Hc)).
    destruct (unhighlightCallback c) as [[f|i|i|i]|] eqn:Hslot; try done.
    + eexists. split; [reflexivity|]. by apply (active_log _ _ _ _ [_]).
    + by apply (unhighlight_active n i g jm).
    + by exists w.
Qed.

(** Every sequence of page events on charts of the group runs to the end
    and keeps the handle active. *)
Lemma run_active (n : nat) (evs : list page_event) :
  ∀ (w : world) (ids : list gid) (o : options) (snaps : list snapshot),
    active w ids o snaps →
    Forall (λ ev, target ev ∈ ids) evs →
    ∃ w', run (S (S n)) evs w = (Ret tt, w') ∧ active w' ids o snaps.
Proof.
  induction evs as [|ev evs IH]; intros w ids o snaps Hact Hevs.
  - by exists w.
  - apply Forall_cons in Hevs as [Hev Hevs].
    destruct (fire_active n ev w ids o snaps Hact Hev) as (w1 & Hrun1 & Hact1).
    destruct (IH w1 ids o snaps Hact1 Hevs) as (w' & Hrun & Hact').
    exists w'. split; [|done].
    cbn [run]. by rewrite (bind_Ret _ _ _ _ _ Hrun1).
Qed.

(** ** The barrier *)

(** The [ready] calls of [synchronize], while the countdown stays above
    the number of rendered charts still to come: nothing is captured. *)
Lemma ready_loop_pending (call' : callback → value → list value → M unit) (l : list gid) :
  ∀ (j : nat) (w : world),
    Forall (λ g, is_Some (heap w !! g)) l →
    Z.of_nat (length (filter (λ g, rendered (heap w) g = true) l)) < readycount w →
    ∃ w', for_each (λ _ g, ready call' g) j (VDygraph <$> l) w = (Ret tt, w')
      ∧ dygraphs w' = dygraphs w ∧ opts w' = opts w ∧ prevCallbacks w' = prevCallbacks w
      ∧ zoomH w' = zoomH w ∧ selH w' = selH w
      ∧ readycount w' =
          readycount w - Z.of_nat (length (filter (λ g, rendered (heap w) g = true) l))
      ∧ trace w' = trace w ++ (EvReady <$> l)
      ∧ (∀ g, heap w' !! g =
              (λ c, Chart (is_initial_draw c)
                      (readyFns c + length (filter (λ g', g' = g ∧ rendered (heap w) g' = false) l))
                      (drawCallback c) (highlightCallback c) (unhighlightCallback c)
                      (dateWindow c) (valueRange c) (xAxisRange c) (yAxisRange c)
                      (rawX c) (selected c)) <$> heap w !! g).
Proof.
  induction l as [|g l IH]; intros j w Hvalid Hcount.
  - exists w. cbn [fmap list_fmap for_each filter list_filter length] in *.
    split_all; try done; [lia|by rewrite app_nil_r|].
    intros g. destruct (heap w !! g) as [[]|]; cbn; [|done].
    by rewrite Nat.add_0_r.
  - apply Forall_cons in Hvalid as [[c Hc] Hvalid].
    rewrite fmap_cons. cbn [for_each].
    assert (Hr : rendered (heap w) g = negb (is_initial_draw c)).
    { unfold rendered. by rewrite Hc. }
    rewrite filter_cons in Hcount.
    assert (Hstep : ∃ w1, ready call' (VDygraph g) w = (Ret tt, w1)
      ∧ dygraphs w1 = dygraphs w ∧ opts w1 = opts w ∧ prevCallbacks w1 = prevCallbacks w
      ∧ zoomH w1 = zoomH w ∧ selH w1 = selH w
      ∧ trace w1 = trace w ++ [EvReady g]
      ∧ heap w1 = (if is_initial_draw c then alter queue_ready g (heap w) else heap w)
      ∧ Z.of_nat (length (filter (λ g, rendered (heap w) g = true) l)) < readycount w1
      ∧ readycount w1 = readycount w - (if is_initial_draw c then 0 else 1)).
    { unfold ready.
      rewrite (bind_Ret _ _ _ _ _ (as_dygraph_Some _ _ _ Hc)).
      unfold emit, modify, bind at 1.
      erewrite bind_Ret; last by apply get_chart_Some.
      destruct (is_initial_draw c) eqn:Hinit.
      - eexists. split; [reflexivity|]. split_all; try done; [|cbn; lia].
        rewrite decide_False in Hcount by (by rewrite Hr). exact Hcount.
      - rewrite decide_True in Hcount by (by rewrite Hr).
        cbn [length] in Hcount.
        unfold ready_callback, gets, modify, bind at 1 2.
        cbn [readycount set_trace].
        destruct (Z.eqb_spec (readycount w - 1) 0) as [Hz|Hnz]; [lia|].
        cbn [negb]. eexists. split; [reflexivity|]. split_all; try done.
        cbn [readycount set_readycount set_trace]. lia. }
    destruct Hstep as (w1 & Hrun1 & Hd1 & Ho1 & Hp1 & Hz1 & Hs1 & Ht1 & Hh1 & Hc1 & Hn1).
    rewrite (bind_Ret _ _ _ _ _ Hrun1).
    assert (Hstable : ∀ g', rendered (heap w1) g' = rendered (heap w) g').
    { intros g'. rewrite Hh1. destruct (is_initial_draw c); [|done].
      unfold rendered. destruct (decide (g = g')) as [->|Hne].
      - rewrite list_lookup_alter_eq. by destruct (heap w !! g').
      - by rewrite list_lookup_alter_ne. }
    assert (Hfilter : filter (λ g, rendered (heap w1) g = true) l
                      = filter (λ g, rendered (heap w) g = true) l).
    { apply list_filter_iff. intros g'. by rewrite Hstable. }
    destruct (IH (S j) w1) as (w' & Hrun & Hd & Ho & Hp & Hz & Hs & Hpos & Ht & Hh).
    { eapply Forall_impl; [exact Hvalid|]. intros g' [c' Hc']. simpl.
      rewrite Hh1. destruct (is_initial_draw c); [|by eexists].
      destruct (decide (g = g')) as [->|Hne].
      - rewrite list_lookup_alter_eq. apply fmap_is_Some. by eexists.
      - rewrite list_lookup_alter_ne by done. by eexists. }
    { by rewrite Hfilter. }
    exists w'. split; [done|].
    split_all; try congruence.
    + rewrite Hpos, Hfilter, Hn1, filter_cons.
      destruct (is_initial_draw c) eqn:Hinit; cbn [negb] in Hr.
      * rewrite decide_False by (by rewrite Hr). lia.
      * rewrite decide_True by (by rewrite Hr). cbn [length]. lia.
    + rewrite Ht, Ht1, <- app_assoc. done.
    + intros g'. rewrite Hh.
      erewrite (list_filter_iff _ (λ g'0, g'0 = g' ∧ rendered (heap w) g'0 = false));
        last by (intros g''; rewrite Hstable).
      rewrite filter_cons.
      rewrite Hh1. destruct (is_initial_draw c) eqn:Hinit; cbn [negb] in Hr.
      * destruct (decide (g = g')) as [->|Hne].
        -- rewrite decide_True by done. rewrite list_lookup_alter_eq.
           destruct (heap w !! g') as [[]|]; cbn; [|done].
           do 2 f_equal. lia.
        -- rewrite decide_False by (intros [? _]; done).
           by rewrite list_lookup_alter_ne.
      * rewrite decide_False by (intros [_ ?]; congruence). done.
Qed.

(** [synchronize] on a group with a chart that has not rendered yet
    leaves the barrier closed: no callback is read or replaced. *)
Lemma synchronize_pending (call' : callback → value → list value → M unit)
    (arguments : list value) (ids : list gid) (o : options) (w : world) :
  collect arguments = inr (VDygraph <$> ids, o) →
  Forall (λ g, is_Some (heap w !! g)) ids →
  (∃ g, g ∈ ids ∧ rendered (heap w) g = false) →
  ∃ w', synchronize call' arguments w = (Ret tt, w')
    ∧ pending w' (VDygraph <$> ids) o
    ∧ zoomH w' = zoomH w ∧ selH w' = selH w
    ∧ trace w' = trace w ++ (EvReady <$> ids)
    ∧ (∀ g name, slot name <$> heap w' !! g = slot name <$> heap w !! g).
Proof.
  intros Hcollect Hvalid (g0 & Hg0 & Hr0).
  pose proof (collect_size _ _ _ Hcollect) as Hsize. rewrite length_fmap in Hsize.
  unfold synchronize. rewrite Hcollect.
  unfold modify, bind at 1.
  set (w0 := World (heap w) (Some (VDygraph <$> ids)) (Some o) (Some [])
               (Z.of_nat (length (VDygraph <$> ids))) (zoomH w) (selH w) (trace w)).
  assert (Hlt : Z.of_nat (length (filter (λ g, rendered (heap w0) g = true) ids))
                < readycount w0).
  { subst w0. cbn [heap readycount]. rewrite length_fmap.
    pose proof (length_filter_lt (λ g, rendered (heap w) g = true) ids g0 Hg0) as Hlt.
    apply inj_lt. apply Hlt. by rewrite Hr0. }
  destruct (ready_loop_pending call' ids 0 w0)
    as (w' & Hrun & Hd & Ho & Hp & Hz & Hs & Hpos & Ht & Hh); [done..|].
  exists w'. split; [done|]. split_all; try done.
  - constructor; try done; [by rewrite length_fmap|lia].
  - intros g name. rewrite Hh. subst w0. cbn [heap].
    destruct (heap w !! g) as [c|]; [|done]. by destruct name.
Qed.

(** The queued ready functions of a chart run while the countdown stays
    positive: nothing is captured. *)
Lemma fire_ready_pending (fuel : nat) (g : gid) (k : nat) :
  ∀ w : world,
    Z.of_nat k < readycount w →
    ∃ w', fire_ready fuel g k w = (Ret tt, w')
      ∧ dygraphs w' = dygraphs w ∧ opts w' = opts w ∧ prevCallbacks w' = prevCallbacks w
      ∧ zoomH w' = zoomH w ∧ selH w' = selH w ∧ trace w' = trace w
      ∧ readycount w' = readycount w - Z.of_nat k
      ∧ (∀ g' name, slot name <$> heap w' !! g' = slot name <$> heap w !! g').
Proof.
  induction k as [|k IH]; intros w Hk.
  - exists w. cbn [fire_ready]. split_all; try done. lia.
  - cbn [fire_ready].
    unfold modify_chart, modify, bind at 1.
    set (w1 := set_heap _ w).
    unfold ready_callback, gets, modify, bind at 1 2 3.
    change (readycount w1) with (readycount w).
    destruct (Z.eqb_spec (readycount w - 1) 0) as [Hz|Hnz]; [lia|]. cbn [negb].
    unfold ret at 1.
    destruct (IH (set_readycount (readycount w - 1) w1)) as
      (w' & Hrun & Hd & Ho & Hp & Hz & Hs & Ht & Hn & Hh).
    { cbn [readycount set_readycount]. lia. }
    exists w'. split; [done|]. split_all; try done.
    + rewrite Hn. cbn [readycount set_readycount]. lia.
    + intros g' name. rewrite Hh. subst w1. cbn [heap set_readycount set_heap].
      destruct (decide (g = g')) as [->|Hne].
      * rewrite list_lookup_alter_eq. destruct (heap w !! g') as [c|]; [|done].
        by destruct name.
      * by rewrite list_lookup_alter_ne.
Qed.

(** A chart completes its first render while other charts of the group
    are still to come: the barrier stays closed, and no callback slot
    changes. *)
Lemma first_render_pending (n : nat) (w : world) (gs : list value) (o : options)
    (g : gid) (c : chart) :
  pending w gs o →
  heap w !! g = Some c →
  is_initial_draw c = true →
  user_only (drawCallback c) = true →
  Z.of_nat (readyFns c) < readycount w →
  ∃ w', first_render (S n) g w = (Ret tt, w')
    ∧ pending w' gs o
    ∧ (∀ g' name, slot name <$> heap w' !! g' = slot name <$> heap w !! g').
Proof.
  intros [Hd Hg Ho Hp Hc] Hchart Hinit Huser Hcount.
  unfold first_render.
  rewrite (bind_Ret _ _ _ _ _ (get_chart_Some _ _ _ Hchart)). rewrite Hinit.
  unfold modify_chart, modify, bind at 1.
  set (w1 := set_heap _ w).
  rewrite (bind_Ret _ _ _ _ _ (call_user_only n (drawCallback c) _ _ w1 Huser)).
  destruct (fire_ready_pending (S n) g (readyFns c)
              (log (call_events (drawCallback c) (VDygraph g) [VDygraph g; VBool true]) w1))
    as (w' & Hrun & Hd' & Ho' & Hp' & Hz' & Hs' & Ht' & Hn' & Hh'); [done|].
  exists w'. split; [done|]. split.
  - subst w1. cbn [log set_trace set_heap dygraphs opts prevCallbacks readycount] in *.
    constructor; [congruence|done|congruence|congruence|lia].
  - intros g' name. rewrite Hh'. subst w1. cbn [heap log set_trace set_heap].
    destruct (decide (g = g')) as [->|Hne].
    + rewrite list_lookup_alter_eq. destruct (heap w !! g') as [c'|]; [|done].
      by destruct name.
    + by rewrite list_lookup_alter_ne.
Qed.

(** ** Activation *)

(** A loop over a concatenation continues after the loop over the first
    part. *)
Lemma for_each_app {A} (body : nat → A → M unit) (l1 l2 : list A) :
  ∀ (j : nat) (w w1 : world),
    for_each body j l1 w = (Ret tt, w1) →
    for_each body j (l1 ++ l2) w = for_each body (j + length l1) l2 w1.
Proof.
  induction l1 as [|x l1 IH]; intros j w w1 Hrun.
  - injection Hrun as ->. simpl. by rewrite Nat.add_0_r.
  - cbn [app for_each] in *. unfold bind in *.
    destruct (body j x w) as [[[]|e] w0]; [|done].
    rewrite (IH (S j) w0 w1 Hrun). simpl. f_equal. lia.
Qed.

(** Reading a callback slot of a chart of the heap. *)
Lemma getFunctionOption_Some (g : gid) (name : hook) (c : chart) (w : world) :
  heap w !! g = Some c →
  getFunctionOption (VDygraph g) name w
  = (Ret (slot name c), log [EvGetFunctionOption g name] w).
Proof.
  intros Hc. unfold getFunctionOption.
  rewrite (bind_Ret _ _ _ _ _ (as_dygraph_Some _ _ _ Hc)).
  unfold emit, modify, bind at 1.
  erewrite bind_Ret; [done|]. by apply get_chart_Some.
Qed.

(** Storing into the entry that was created last. *)
Lemma store_previous_last (j : nat) (name : hook) (v : option callback)
    (pre : list (option snapshot)) (s : snapshot) (w : world) :
  prevCallbacks w = Some (pre ++ [Some s]) →
  j = length pre →
  store_previous j name v w
  = (Ret tt, set_prevCallbacks
               (Some (pre ++ [Some match name with
                                   | HDraw =>
                                     Snapshot v (s_highlightCallback s) (s_unhighlightCallback s)
                                   | HHighlight =>
                                     Snapshot (s_drawCallback s) v (s_unhighlightCallback s)
                                   | HUnhighlight =>
                                     Snapshot (s_drawCallback s) (s_highlightCallback s) v
                                   end])) w).
Proof.
  intros Hp ->. unfold store_previous, deref, bind. rewrite Hp.
  rewrite list_lookup_middle by done.
  unfold modify. do 3 f_equal.
  rewrite insert_app_r_alt by done. by rewrite Nat.sub_diag.
Qed.

(** Capturing one chart appends its snapshot. *)
Lemma capture_chart (j g : nat) (c : chart) (ss : list snapshot) (w : world) :
  heap w !! g = Some c →
  prevCallbacks w = Some (Some <$> ss) →
  j = length ss →
  ∃ w', capture j (VDygraph g) w = (Ret tt, w')
    ∧ prevCallbacks w' = Some (Some <$> (ss ++ [snapshot_of c]))
    ∧ heap w' = heap w
    ∧ dygraphs w' = dygraphs w ∧ opts w' = opts w ∧ readycount w' = readycount w
    ∧ zoomH w' = zoomH w ∧ selH w' = selH w
    ∧ trace w' = trace w ++
        [EvGetFunctionOption g HUnhighlight; EvGetFunctionOption g HHighlight;
         EvGetFunctionOption g HDraw].
Proof.
  intros Hc Hp ->. unfold capture.
  unfold deref at 1, bind at 1. rewrite Hp.
  rewrite list_lookup_fmap, (lookup_ge_None_2 ss (length ss)) by lia.
  cbn [fmap option_fmap option_map].
  unfold modify at 1, bind at 1.
  unfold array_set. rewrite length_fmap, Nat.ltb_irrefl, Nat.sub_diag. cbn [replicate app].
  set (w1 := set_prevCallbacks _ w).
  rewrite (bind_Ret _ _ _ _ _ (getFunctionOption_Some g HUnhighlight c w1 Hc)).
  erewrite bind_Ret; last by (apply store_previous_last; [done|by rewrite length_fmap]).
  set (w2 := set_prevCallbacks _ _).
  rewrite (bind_Ret _ _ _ _ _ (getFunctionOption_Some g HHighlight c w2 Hc)).
  erewrite bind_Ret; last by (apply store_previous_last; [done|by rewrite length_fmap]).
  set (w3 := set_prevCallbacks _ _).
  rewrite (bind_Ret _ _ _ _ _ (getFunctionOption_Some g HDraw c w3 Hc)).
  erewrite store_previous_last; [|done|by rewrite length_fmap].
  eexists. split; [reflexivity|]. split_all; try done.
  - cbn. by rewrite fmap_app.
  - cbn. by rewrite <- !app_assoc.
Qed.

(** The capture loop appends the snapshots of the group, in order. *)
Lemma capture_loop (l : list gid) :
  ∀ (ss : list snapshot) (w : world),
    Forall (λ g, is_Some (heap w !! g)) l →
    prevCallbacks w = Some (Some <$> ss) →
    ∃ w', for_each capture (length ss) (VDygraph <$> l) w = (Ret tt, w')
      ∧ prevCallbacks w' = Some (Some <$> (ss ++ captured_snapshots (heap w) l))
      ∧ heap w' = heap w
      ∧ dygraphs w' = dygraphs w ∧ opts w' = opts w ∧ readycount w' = readycount w
      ∧ zoomH w' = zoomH w ∧ selH w' = selH w
      ∧ ∃ delta, trace w' = trace w ++ delta.
Proof.
  induction l as [|g l IH]; intros ss w Hvalid Hp.
  - exists w. cbn. rewrite app_nil_r. split_all; try done. exists []. by rewrite app_nil_r.
  - apply Forall_cons in Hvalid as [[c Hc] Hvalid].
    rewrite fmap_cons. cbn [for_each].
    destruct (capture_chart (length ss) g c ss w Hc Hp eq_refl)
      as (w1 & Hrun1 & Hp1 & Hh1 & Hd1 & Ho1 & Hr1 & Hz1 & Hs1 & Ht1).
    rewrite (bind_Ret _ _ _ _ _ Hrun1).
    destruct (IH (ss ++ [snapshot_of c]) w1) as (w' & Hrun & Hp' & Hh & Hd & Ho & Hr & Hz & Hs & delta & Ht).
    { by rewrite Hh1. }
    { done. }
    rewrite length_app in Hrun. cbn [length] in Hrun.
    replace (length ss + 1)%nat with (S (length ss)) in Hrun by lia.
    exists w'. split; [done|]. split_all; try congruence.
    + rewrite Hp', Hh1. unfold captured_snapshots. cbn [fmap list_fmap]. rewrite Hc.
      cbn [from_option]. by rewrite <- app_assoc.
    + eexists. rewrite Ht, Ht1, <- app_assoc. done.
Qed.

(** A loop that applies to each chart of a list of distinct charts an
    update that depends on the position. *)
Section Installation.

Context (body : nat → value → M unit) (upd : nat → chart → chart).

Hypothesis body_spec : ∀ j g c w, heap w !! g = Some c →
  ∃ w', body j (VDygraph g) w = (Ret tt, w')
    ∧ same_handle w w' ∧ heap w' = alter (upd j) g (heap w)
    ∧ ∃ delta, trace w' = trace w ++ delta.

(** An installation loop over distinct charts updates the chart at
    position [k] with the patch of position [k]. *)
Lemma installation_loop (l : list gid) :
  ∀ (j : nat) (w : world),
    NoDup l →
    Forall (λ g, is_Some (heap w !! g)) l →
    ∃ w', for_each body j (VDygraph <$> l) w = (Ret tt, w')
      ∧ same_handle w w'
      ∧ (∀ g, g ∉ l → heap w' !! g = heap w !! g)
      ∧ (∀ k g, l !! k = Some g → heap w' !! g = upd (j + k) <$> heap w !! g)
      ∧ ∃ delta, trace w' = trace w ++ delta.
Proof.
  induction l as [|g l IH]; intros j w Hnd Hvalid.
  - exists w. split; [done|]. split; [apply same_handle_refl|].
    split; [done|]. split; [by intros [|?] ?|]. exists []. by rewrite app_nil_r.
  - apply NoDup_cons in Hnd as [Hnotin Hnd].
    apply Forall_cons in Hvalid as [[c Hc] Hvalid].
    rewrite fmap_cons. cbn [for_each].
    destruct (body_spec j g c w Hc) as (w1 & Hrun1 & Hsame1 & Hheap1 & delta1 & Ht1).
    rewrite (bind_Ret _ _ _ _ _ Hrun1).
    destruct (IH (S j) w1) as (w' & Hrun & Hsame & Hout & Hat & delta & Ht); [done|..].
    { rewrite Hheap1. eapply Forall_impl; [exact Hvalid|].
      intros g' [c' Hc']. simpl.
      destruct (decide (g = g')) as [->|].
      - rewrite list_lookup_alter_eq. apply fmap_is_Some. by exists c'.
      - rewrite list_lookup_alter_ne by done. by eexists. }
    exists w'. split; [done|]. split; [by eapply same_handle_trans|].
    split; [|split].
    + intros g' Hg'. apply not_elem_of_cons in Hg' as [Hne Hg'].
      rewrite (Hout g' Hg'), Hheap1. by apply list_lookup_alter_ne.
    + intros [|k] g' Hg'; simplify_eq/=.
      * rewrite (Hout g' Hnotin), Hheap1, Nat.add_0_r. apply list_lookup_alter_eq.
      * rewrite (Hat k g' Hg'), Hheap1.
        rewrite list_lookup_alter_ne.
        -- do 2 f_equal. lia.
        -- intros ->. apply Hnotin. by eapply list_elem_of_lookup_2.
    + eexists. rewrite Ht, Ht1, <- app_assoc. done.
Qed.

End Installation.

(** [updateOptions] without a redraw. *)
Lemma updateOptions_blocked (call' : callback → value → list value → M unit)
    (g : gid) (p : patch) (c : chart) (w : world) :
  heap w !! g = Some c →
  ∃ w', updateOptions call' (VDygraph g) p true w = (Ret tt, w')
    ∧ same_handle w w' ∧ heap w' = alter (apply_patch p) g (heap w)
    ∧ ∃ delta, trace w' = trace w ++ delta.
Proof.
  intros Hc. unfold updateOptions.
  rewrite (bind_Ret _ _ _ _ _ (as_dygraph_Some _ _ _ Hc)).
  eexists. split; [reflexivity|]. split; [by repeat split|]. split; [done|].
  by eexists.
Qed.

(** The zoom phase of the barrier: when enabled, the closure is created
    and every chart of the group receives its draw handler. *)
Lemma zoom_phase (call' : callback → value → list value → M unit) (ids : list gid)
    (o : options) (w : world) :
  dygraphs w = Some (VDygraph <$> ids) →
  NoDup ids →
  Forall (λ g, is_Some (heap w !! g)) ids →
  ∃ w', (if truthy (zoom o)
         then gs <- gets dygraphs ;; prev <- gets prevCallbacks ;;
              attachZoomHandlers call' gs o prev
         else ret tt) w = (Ret tt, w')
    ∧ dygraphs w' = dygraphs w ∧ opts w' = opts w ∧ prevCallbacks w' = prevCallbacks w
    ∧ readycount w' = readycount w ∧ selH w' = selH w
    ∧ zoomH w' = (if truthy (zoom o)
                  then Some (ZoomClosure (VDygraph <$> ids) o (prevCallbacks w) false)
                  else zoomH w)
    ∧ (∀ g, g ∉ ids → heap w' !! g = heap w !! g)
    ∧ (∀ k g, ids !! k = Some g →
         heap w' !! g =
         (if truthy (zoom o) then apply_patch (zoom_install k) else id) <$> heap w !! g).
Proof.
  intros Hd Hnd Hvalid. destruct (truthy (zoom o)).
  - unfold gets, bind at 1 2. rewrite Hd.
    unfold attachZoomHandlers, deref, modify, bind at 1 2.
    destruct (installation_loop (install_zoom call') (λ j, apply_patch (zoom_install j)))
      with (l := ids) (j := 0%nat)
           (w := set_zoomH (Some (ZoomClosure (VDygraph <$> ids) o (prevCallbacks w) false)) w)
      as (w' & Hrun & Hsame & Hout & Hat & _); try done.
    { intros j g c w0 Hc. by eapply updateOptions_blocked. }
    exists w'. split; [done|].
    destruct Hsame as (? & ? & ? & ? & ? & ?).
    split_all; try done; try exact Hat. cbn in *; congruence.
  - exists w. split_all; try done. intros k g Hg. by destruct (heap w !! g).
Qed.

(** The selection phase of the barrier: when enabled, the closure is
    created and every chart of the group receives its two handlers. *)
Lemma selection_phase (call' : callback → value → list value → M unit) (ids : list gid)
    (o : options) (w : world) :
  dygraphs w = Some (VDygraph <$> ids) →
  NoDup ids →
  Forall (λ g, is_Some (heap w !! g)) ids →
  ∃ w', (if truthy (selection o)
         then gs <- gets dygraphs ;; prev <- gets prevCallbacks ;;
              attachSelectionHandlers call' gs prev
         else ret tt) w = (Ret tt, w')
    ∧ dygraphs w' = dygraphs w ∧ opts w' = opts w ∧ prevCallbacks w' = prevCallbacks w
    ∧ readycount w' = readycount w ∧ zoomH w' = zoomH w
    ∧ selH w' = (if truthy (selection o)
                 then Some (SelectionClosure (VDygraph <$> ids) (prevCallbacks w) false)
                 else selH w)
    ∧ (∀ g, g ∉ ids → heap w' !! g = heap w !! g)
    ∧ (∀ k g, ids !! k = Some g →
         heap w' !! g =
         (if truthy (selection o) then apply_patch (selection_install k) else id)
           <$> heap w !! g).
Proof.
  intros Hd Hnd Hvalid. destruct (truthy (selection o)).
  - unfold gets, bind at 1 2. rewrite Hd.
    unfold attachSelectionHandlers, deref, modify, bind at 1 2.
    destruct (installation_loop (install_selection call')
                (λ j, apply_patch (selection_install j)))
      with (l := ids) (j := 0%nat)
           (w := set_selH (Some (SelectionClosure (VDygraph <$> ids) (prevCallbacks w) false)) w)
      as (w' & Hrun & Hsame & Hout & Hat & _); try done.
    { intros j g c w0 Hc. by eapply updateOptions_blocked. }
    exists w'. split; [done|].
    destruct Hsame as (? & ? & ? & ? & ? & ?).
    split_all; try done; try exact Hat. cbn in *; congruence.
  - exists w. split_all; try done. intros k g Hg. by destruct (heap w !! g).
Qed.

(** The last [ready] callback: the original callbacks are stored, the
    handlers of the enabled protocols are installed, and the handle is
    active. *)
Lemma last_ready_activates (call' : callback → value → list value → M unit)
    (ids : list gid) (o : options) (w : world) :
  dygraphs w = Some (VDygraph <$> ids) →
  opts w = Some o →
  prevCallbacks w = Some [] →
  readycount w = 1 →
  zoomH w = None → selH w = None →
  NoDup ids →
  Forall (λ g, is_Some (heap w !! g)) ids →
  Forall (λ c, plain_chart c = true) (heap w) →
  ∃ w', ready_callback call' w = (Ret tt, w')
    ∧ active w' ids o (captured_snapshots (heap w) ids).
Proof.
  intros Hd Ho Hp Hn Hz Hs Hnd Hvalid Hplain.
  unfold ready_callback, gets, modify, bind at 1 2. rewrite Hn.
  change (negb (1 - 1 =? 0)) with false. cbn iota.
  set (w0 := set_readycount (1 - 1) w).
  unfold deref at 1, bind at 1. change (dygraphs w0) with (dygraphs w). rewrite Hd.
  destruct (capture_loop ids [] w0 Hvalid Hp)
    as (w1 & Hrun1 & Hp1 & Hh1 & Hd1 & Ho1 & Hr1 & Hz1 & Hs1 & _).
  cbn [length app] in Hrun1, Hp1. rewrite (bind_Ret _ _ _ _ _ Hrun1).
  change (heap w0) with (heap w) in *. change (dygraphs w0) with (dygraphs w) in *.
  change (opts w0) with (opts w) in *. change (zoomH w0) with (zoomH w) in *.
  change (selH w0) with (selH w) in *.
  unfold deref at 1, bind at 1. rewrite Ho1, Ho.
  destruct (zoom_phase call' ids o w1)
    as (w2 & Hrun2 & Hd2 & Ho2 & Hp2 & Hr2 & Hs2 & Hz2 & Hout2 & Hat2).
  { congruence. } { done. } { by rewrite Hh1. }
  rewrite (bind_Ret _ _ _ _ _ Hrun2).
  unfold deref at 1, bind at 1. rewrite Ho2, Ho1, Ho.
  destruct (selection_phase call' ids o w2)
    as (w3 & Hrun3 & Hd3 & Ho3 & Hp3 & Hr3 & Hz3 & Hs3 & Hout3 & Hat3).
  { congruence. } { done. }
  { eapply Forall_lookup. intros k g Hg. rewrite (Hat2 k g Hg), Hh1.
    apply fmap_is_Some. exact (Forall_lookup_1 _ _ _ _ Hvalid Hg). }
  exists w3. split; [done|].
  set (snaps := captured_snapshots (heap w) ids).
  assert (Hchart : ∀ k g c, ids !! k = Some g → heap w !! g = Some c →
            heap w3 !! g = Some
              ((if truthy (selection o) then apply_patch (selection_install k) else id)
                 ((if truthy (zoom o) then apply_patch (zoom_install k) else id) c))).
  { intros k g c Hg Hc. by rewrite (Hat3 k g Hg), (Hat2 k g Hg), Hh1, Hc. }
  assert (Hplain_c : ∀ c, plain_chart c = true →
            user_only (drawCallback c) = true ∧ user_only (highlightCallback c) = true
            ∧ user_only (unhighlightCallback c) = true).
  { intros c H. unfold plain_chart in H.
    apply andb_prop in H as [H H3]. apply andb_prop in H as [H1 H2]. done. }
  constructor.
  - congruence.
  - congruence.
  - by rewrite Hp3, Hp2, Hp1.
  - unfold snaps, captured_snapshots. by rewrite length_fmap.
  - done.
  - eapply Forall_lookup. intros k g Hg.
    destruct (Forall_lookup_1 _ _ _ _ Hvalid Hg) as [c Hc].
    rewrite (Hchart k g c Hg Hc). by eexists.
  - unfold snaps, captured_snapshots. apply Forall_fmap, Forall_forall.
    intros g _. unfold compose.
    destruct (heap w !! g) as [c|] eqn:Hc; cbn [from_option]; [|reflexivity].
    apply (Forall_lookup_1 _ _ _ _ Hplain), Hplain_c in Hc as (H1 & H2 & H3).
    unfold snapshot_ok, snapshot_of. cbn. by rewrite H1, H2, H3.
  - apply Forall_lookup. intros g c3 Hc3.
    destruct (decide (g ∈ ids)) as [Hin|Hout].
    + apply list_elem_of_lookup_1 in Hin as [k Hk].
      destruct (Forall_lookup_1 _ _ _ _ Hvalid Hk) as [c Hc].
      rewrite (Hchart k g c Hk Hc) in Hc3. injection Hc3 as <-.
      apply (Forall_lookup_1 _ _ _ _ Hplain), Hplain_c in Hc as (H1 & H2 & H3).
      unfold chart_ok.
      destruct (truthy (zoom o)) eqn:Ez, (truthy (selection o)) eqn:Es; cbn;
        rewrite ?Ez, ?Es, ?(user_only_slot_ok _ _ _ H1), ?(user_only_slot_ok _ _ _ H2),
          ?(user_only_slot_ok _ _ _ H3); done.
    + rewrite (Hout3 g Hout), (Hout2 g Hout), Hh1 in Hc3.
      apply (Forall_lookup_1 _ _ _ _ Hplain), Hplain_c in Hc3 as (H1 & H2 & H3).
      unfold chart_ok.
      by rewrite (user_only_slot_ok _ _ _ H1), (user_only_slot_ok _ _ _ H2),
        (user_only_slot_ok _ _ _ H3).
  - rewrite Hz3, Hz2, Hp1, Hz1, Hz. done.
  - rewrite Hs3, Hs2, Hp2, Hp1, Hs1, Hs. done.
Qed.

(** A chart is its fields. *)
Lemma chart_eta (c : chart) :
  Chart (is_initial_draw c) (readyFns c + 0) (drawCallback c) (highlightCallback c)
    (unhighlightCallback c) (dateWindow c) (valueRange c) (xAxisRange c) (yAxisRange c)
    (rawX c) (selected c) = c.
Proof. destruct c. cbn. by rewrite Nat.add_0_r. Qed.

(** Filtering by a predicate that no element satisfies. *)
Lemma filter_none {A} (P : A → Prop) `{∀ x, Decision (P x)} (l : list A) :
  (∀ x, x ∈ l → ¬ P x) → filter P l = [].
Proof.
  induction l as [|x l IH]; intros Hl; [done|].
  rewrite filter_cons, decide_False by (apply Hl, list_elem_of_here).
  apply IH. intros y Hy. by apply Hl, list_elem_of_further.
Qed.

(** Filtering by a predicate that every element satisfies. *)
Lemma filter_all {A} (P : A → Prop) `{∀ x, Decision (P x)} (l : list A) :
  (∀ x, x ∈ l → P x) → filter P l = l.
Proof.
  induction l as [|x l IH]; intros Hl; [done|].
  rewrite filter_cons, decide_True by (apply Hl, list_elem_of_here).
  f_equal. apply IH. intros y Hy. by apply Hl, list_elem_of_further.
Qed.

(** [synchronize] on a valid group of distinct charts that have all
    rendered, on a page where no synchronization is installed yet:
    the handle is active when the call returns. *)
Lemma synchronize_activates (call' : callback → value → list value → M unit)
    (arguments : list value) (ids : list gid) (o : options) (w : world) :
  collect arguments = inr (VDygraph <$> ids, o) →
  NoDup ids →
  Forall (λ g, is_Some (heap w !! g)) ids →
  Forall (λ g, rendered (heap w) g = true) ids →
  Forall (λ c, plain_chart c = true) (heap w) →
  zoomH w = None → selH w = None →
  ∃ w', synchronize call' arguments w = (Ret tt, w')
    ∧ active w' ids o (captured_snapshots (heap w) ids).
Proof.
  intros Hcollect Hnd Hvalid Hrendered Hplain Hz Hs.
  pose proof (collect_size _ _ _ Hcollect) as Hsize. rewrite length_fmap in Hsize.
  unfold synchronize. rewrite Hcollect.
  unfold modify, bind at 1. rewrite length_fmap.
  set (w0 := World (heap w) (Some (VDygraph <$> ids)) (Some o) (Some [])
               (Z.of_nat (length ids)) (zoomH w) (selH w) (trace w)).
  destruct (exists_last (l := ids)) as (init & g & Hids).
  { intros ->. simpl in Hsize. lia. }
  rewrite Forall_forall in Hrendered.
  assert (Hall : filter (λ g, rendered (heap w0) g = true) init = init).
  { apply filter_all. intros g' Hg'. apply Hrendered. rewrite Hids.
    apply elem_of_app. by left. }
  destruct (ready_loop_pending call' init 0 w0)
    as (w1 & Hrun1 & Hd1 & Ho1 & Hp1 & Hz1 & Hs1 & Hn1 & Ht1 & Hh1).
  { rewrite Hids in Hvalid. by apply Forall_app in Hvalid as [? _]. }
  { rewrite Hall. subst w0. cbn [readycount]. rewrite Hids, length_app. cbn [length]. lia. }
  assert (Hheap : heap w1 = heap w).
  { apply list_eq. intros g'. rewrite Hh1. subst w0. cbn [heap].
    rewrite filter_none.
    - destruct (heap w !! g') as [c|]; [|done]. cbn. by rewrite chart_eta.
    - intros g'' Hg'' [_ Hr]. rewrite Hrendered in Hr; [done|].
      rewrite Hids. apply elem_of_app. by left. }
  replace (VDygraph <$> ids) with ((VDygraph <$> init) ++ [VDygraph g])
    by (by rewrite Hids, fmap_app).
  rewrite (for_each_app _ _ _ _ _ _ Hrun1). cbn [for_each].
  assert (Hg : g ∈ ids) by (rewrite Hids; apply elem_of_app; right; apply list_elem_of_here).
  rewrite Forall_forall in Hvalid. destruct (Hvalid g Hg) as [c Hc].
  assert (Hinit : is_initial_draw c = false).
  { specialize (Hrendered g Hg). unfold rendered in Hrendered. rewrite Hc in Hrendered.
    cbn in Hrendered. by destruct (is_initial_draw c). }
  assert (Hready : ready call' (VDygraph g) w1
                   = ready_callback call' (set_trace (trace w1 ++ [EvReady g]) w1)).
  { unfold ready.
    erewrite bind_Ret; last by (apply (as_dygraph_Some _ c); rewrite Hheap).
    unfold emit, modify, bind at 1.
    erewrite bind_Ret; last by (apply (get_chart_Some _ c); cbn [heap set_trace]; rewrite Hheap).
    by rewrite Hinit. }
  destruct (last_ready_activates call' ids o (set_trace (trace w1 ++ [EvReady g]) w1))
    as (w' & Hrun & Hact); cbn [dygraphs opts prevCallbacks readycount zoomH selH heap set_trace];
    try (subst w0; cbn in *; congruence).
  { rewrite Hn1, Hall. subst w0. cbn [readycount]. rewrite Hids, length_app. cbn [length]. lia. }
  { rewrite Hheap. by apply Forall_forall. }
  cbn [heap set_trace] in Hact. rewrite Hheap in Hact.
  unfold bind at 1. rewrite Hready, Hrun.
  by exists w'.
Qed.

(** ** The page with three charts *)

(** The example group synchronized with the default options. *)
Lemma example_default_active :
  active Example.w_default Example.ids default_opts Example.snaps.
Proof. solve_active. Qed.

(** The example group synchronized with [range: false]. *)
Lemma example_x_only_active :
  active Example.w_x_only Example.ids Example.x_only Example.snaps.
Proof. solve_active. Qed.

(** The example group synchronized with [zoom: false]. *)
Lemma example_selection_only_active :
  active Example.w_selection_only Example.ids Example.selection_only Example.snaps.
Proof. solve_active. Qed.

(** The example group synchronized with [zoom: false], after the
    application replaced the draw callback of the first chart. *)
Lemma example_selection_only_redrawn_active :
  active w_selection_only_redrawn Example.ids Example.selection_only Example.snaps.
Proof. solve_active. Qed.

(** The example worlds are instances. *)
Lemma example_first_render_activates :
  ∃ w', first_render 2 2 w_waiting = (Ret tt, w')
    ∧ active w' Example.ids default_opts Example.snaps.
Proof.
  eexists. split; [vm_compute; reflexivity|]. solve_active.
Qed.


(** ** Counting the propagated updates *)

(** Calling a callback of the application updates no chart. *)
Lemma updated_call_events (cb : option callback) (this : value) (arguments : list value) :
  omap updated (call_events cb this arguments) = [].
Proof. by destruct cb as [[]|]. Qed.

(** The chart updated by one turn of the draw handler's loop, if any. *)
Lemma updated_zoom_turn (h : list chart) (m : gid) (previous : option callback)
    (this : value) (arguments : list value) (xr : list Z) (yr : option (list Z)) (g : gid) :
  omap updated
    (loop_trace m (call_events previous this arguments) (zoom_events_on xr yr) h g)
  = if zoom_applies h m xr yr g then [g] else [].
Proof.
  unfold loop_trace, zoom_applies.
  destruct (g =? m)%nat; cbn [negb andb].
  - apply updated_call_events.
  - destruct (h !! g) as [c|]; cbn [from_option]; [|done].
    unfold zoom_events_on. destruct (zoom_skips xr yr c); cbn [negb]; [done|].
    cbn [omap list_omap updated]. by rewrite updated_call_events.
Qed.

(** The charts updated by the draw handler's loop. *)
Lemma updated_zoom_trace (h : list chart) (m : gid) (previous : option callback)
    (this : value) (arguments : list value) (xr : list Z) (yr : option (list Z))
    (l : list gid) :
  omap updated
    (concat (loop_trace m (call_events previous this arguments) (zoom_events_on xr yr) h <$> l))
  = filter (λ g, zoom_applies h m xr yr g = true) l.
Proof.
  induction l as [|g l IH]; [done|].
  cbn [fmap list_fmap concat].
  rewrite omap_app, IH, filter_cons, updated_zoom_turn.
  destruct (zoom_applies h m xr yr g).
  - by rewrite decide_True.
  - by rewrite decide_False.
Qed.

(** All elements but one of a duplicate-free list. *)
Lemma filter_others_length (m : gid) (l : list gid) (P : gid → Prop) `{∀ g, Decision (P g)} :
  NoDup l → m ∈ l → ¬ P m → (∀ g, g ∈ l → g ≠ m → P g) →
  length (filter P l) = (length l - 1)%nat.
Proof.
  induction l as [|g l IH]; intros Hnd Hin Hm Hall.
  - by apply elem_of_nil in Hin.
  - apply NoDup_cons in Hnd as [Hnotin Hnd]. rewrite filter_cons.
    destruct (decide (g = m)) as [->|Hne].
    + rewrite decide_False by done. simpl.
      rewrite Nat.sub_0_r. f_equal.
      assert (Hfilter : filter P l = l); [|by rewrite Hfilter].
      clear IH Hin Hnd. induction l as [|g l IH]; [done|].
      rewrite filter_cons.
      apply not_elem_of_cons in Hnotin as [Hne Hnotin].
      rewrite decide_True.
      * f_equal. apply IH; [done|].
        intros g' Hg' Hne'. apply Hall; [|done].
        apply elem_of_cons in Hg' as [->|Hg']; [done|].
        by do 2 apply list_elem_of_further.
      * apply Hall; [|done]. apply list_elem_of_further, list_elem_of_here.
    + rewrite decide_True by (apply Hall; [apply list_elem_of_here|done]).
      apply elem_of_cons in Hin as [->|Hin]; [done|].
      simpl. rewrite IH; try done.
      * destruct l; [by apply elem_of_nil in Hin|]. simpl. lia.
      * intros g' Hg' Hne'. apply Hall; [|done]. by apply list_elem_of_further.
Qed.

(** Membership in a concatenation. *)
Lemma elem_of_concat_fmap {A B} (f : A → list B) (l : list A) (x : B) :
  x ∈ concat (f <$> l) ↔ ∃ a, a ∈ l ∧ x ∈ f a.
Proof.
  induction l as [|a l IH]; cbn [fmap list_fmap concat].
  - split; [by intros ?%elem_of_nil|]. by intros (a & ?%elem_of_nil & _).
  - rewrite elem_of_app, IH. split.
    + intros [Hx|(a' & Ha' & Hx)].
      * exists a. split; [apply list_elem_of_here|done].
      * exists a'. split; [by apply list_elem_of_further|done].
    + intros (a' & Ha' & Hx). apply elem_of_cons in Ha' as [->|Ha']; [by left|].
      right. by exists a'.
Qed.

(** The events of calling a callback of the application. *)
Lemma call_events_elem (cb : option callback) (this : value) (arguments : list value)
    (e : event) :
  e ∈ call_events cb this arguments ↔ ∃ f, cb = Some (UserFn f) ∧ e = EvCall f this arguments.
Proof.
  destruct cb as [[f| | |]|]; cbn [call_events];
    rewrite ?elem_of_cons, ?elem_of_nil; split;
    try (intros []; done); try (intros (f' & [= ] & _); done).
  - intros [->|[]]. by exists f.
  - intros (f' & [= <-] & ->). by left.
Qed.

(** Every update in the trace of the draw handler's loop carries the
    propagated patch, redraws, and is on another chart of the group. *)
Lemma zoom_delta_update (h : list chart) (m : gid) (previous : option callback)
    (this : value) (arguments : list value) (xr : list Z) (yr : option (list Z))
    (l : list gid) (g : gid) (p : patch) (b : bool) :
  EvUpdateOptions g p b ∈
    concat (loop_trace m (call_events previous this arguments) (zoom_events_on xr yr) h <$> l) →
  p = zoom_patch xr yr ∧ b = false ∧ g ∈ l ∧ g ≠ m.
Proof.
  intros Hin. apply elem_of_concat_fmap in Hin as (g' & Hg' & Hin).
  unfold loop_trace in Hin. destruct (Nat.eqb_spec g' m) as [|Hne].
  { apply call_events_elem in Hin as (f & _ & [=]). }
  destruct (h !! g') as [c'|]; cbn [from_option] in Hin; [|by apply elem_of_nil in Hin].
  unfold zoom_events_on in Hin.
  destruct (zoom_skips xr yr c'); [by apply elem_of_nil in Hin|].
  apply elem_of_cons in Hin as [[= -> -> ->]|Hin]; [done|].
  apply call_events_elem in Hin as (f & _ & [=]).
Qed.

(** The events in the trace of the highlight handler's loop. *)
Lemma highlight_delta_elem (h : list chart) (m : gid) (evm : list event)
    (x seriesName : value) (l : list gid) (e : event) :
  e ∈ concat (loop_trace m evm (highlight_events_on x seriesName) h <$> l) ↔
  (m ∈ l ∧ e ∈ evm)
  ∨ (∃ g c row, g ∈ l ∧ g ≠ m ∧ h !! g = Some c ∧ row_for x c = Some row
       ∧ e = EvSetSelection g row seriesName).
Proof.
  rewrite elem_of_concat_fmap. unfold loop_trace, highlight_events_on. split.
  - intros (g & Hg & Hin). destruct (Nat.eqb_spec g m) as [->|Hne]; [by left|].
    destruct (h !! g) as [c|] eqn:Hc; cbn [from_option] in Hin;
      [|by apply elem_of_nil in Hin].
    destruct (row_for x c) as [row|] eqn:Hrow; [|by apply elem_of_nil in Hin].
    apply elem_of_cons in Hin as [->|Hin]; [|by apply elem_of_nil in Hin].
    right. by exists g, c, row.
  - intros [[Hm Hin]|(g & c & row & Hg & Hne & Hc & Hrow & ->)].
    + exists m. split; [done|]. by rewrite Nat.eqb_refl.
    + exists g. split; [done|]. destruct (Nat.eqb_spec g m); [done|].
      rewrite Hc. cbn [from_option]. rewrite Hrow. apply list_elem_of_here.
Qed.

(** ** What [synchronize] can throw once the arguments are accepted *)













(** * The statements of the specification *)

(** ** C1 *)

(** C1, counterexample: with [zoom: false] the handle is active, [detach]
    returns, and the first chart keeps the draw callback it had (function
    99) instead of the captured one (function 1): [detach] made no write to
    a draw slot. *)
Lemma C1_detach_leaves_draw_slot_without_zoom :
  let w := w_selection_only_redrawn in
  let w' := snd (detach (call 2) w) in
  active w Example.ids Example.selection_only Example.snaps
  ∧ detach (call 2) w = (Ret tt, w')
  ∧ drawCallback <$> heap w' !! 0%nat = Some (Some (UserFn 99))
  ∧ s_drawCallback <$> Example.snaps !! 0%nat = Some (Some (UserFn 1))
  ∧ ¬ restores_all_hooks Example.ids Example.snaps w'.
Proof.
  split; [exact example_selection_only_redrawn_active|].
  split; [vm_compute; reflexivity|].
  split; [vm_compute; reflexivity|].
  split; [vm_compute; reflexivity|].
  intros H. destruct (H 0%nat 0%nat (Snapshot (Some (UserFn 1)) (Some (UserFn 11)) (Some (UserFn 21))))
    as (c' & Hc' & Hd & _); [done..|].
  vm_compute in Hc'. injection Hc' as <-. discriminate Hd.
Qed.

(** C1, as amended: on an active handle [detach] returns, and for every
    chart of the group it has written the captured draw callback back when
    [zoom] is enabled, and the captured highlight and unhighlight callbacks
    when [selection] is enabled, each exactly as stored; the slots of a
    protocol that is not enabled are not written and keep their value. *)
Theorem C1_detach_restores_enabled_slots (n : nat) (w : world) (ids : list gid)
    (o : options) (snaps : list snapshot) :
  active w ids o snaps →
  ∃ w', detach (call (S n)) w = (Ret tt, w')
    ∧ (∀ k g s c, ids !! k = Some g → snaps !! k = Some s → heap w !! g = Some c →
         ∃ c', heap w' !! g = Some c'
           ∧ drawCallback c' =
               (if truthy (zoom o) then s_drawCallback s else drawCallback c)
           ∧ highlightCallback c' =
               (if truthy (selection o) then s_highlightCallback s else highlightCallback c)
           ∧ unhighlightCallback c' =
               (if truthy (selection o) then s_unhighlightCallback s
                else unhighlightCallback c))
    ∧ trace w' = trace w ++
        concat (zip_with (λ g s, from_option (detach_events o s g) [] (heap w !! g))
                  ids snaps).
Proof.
  intros Hact.
  destruct (detach_active n w ids o snaps Hact)
    as (w' & Hrun & _ & _ & _ & _ & Hat & Htrace).
  exists w'. split; [done|]. split; [|done].
  intros k g s c Hg Hs Hc. rewrite (Hat k g s Hg Hs), Hc.
  eexists. split; [reflexivity|].
  unfold detach_update. by destruct (truthy (zoom o)), (truthy (selection o)).
Qed.

(** An instance: the example group, synchronized with the default options. *)
Lemma C1_detach_restores_enabled_slots_witness :
  ∃ w', detach (call 2) Example.w_default = (Ret tt, w')
    ∧ (∀ k g s c, Example.ids !! k = Some g → Example.snaps !! k = Some s →
         heap Example.w_default !! g = Some c →
         ∃ c', heap w' !! g = Some c'
           ∧ drawCallback c' =
               (if truthy (zoom default_opts) then s_drawCallback s else drawCallback c)
           ∧ highlightCallback c' =
               (if truthy (selection default_opts) then s_highlightCallback s
                else highlightCallback c)
           ∧ unhighlightCallback c' =
               (if truthy (selection default_opts) then s_unhighlightCallback s
                else unhighlightCallback c))
    ∧ trace w' = trace Example.w_default ++
        concat (zip_with (λ g s, from_option (detach_events default_opts s g) []
                                   (heap Example.w_default !! g))
                  Example.ids Example.snaps).
Proof.
  apply (C1_detach_restores_enabled_slots 1 Example.w_default Example.ids default_opts
           Example.snaps).
  solve_active.
Defined.

(** ** C2 *)

(** C2, counterexample: the handler of the first chart is called for an
    initial draw, and then with the guard set; the captured draw callback
    of that chart is function 1, and in both cases the handler returns
    with the world as it was, in whose trace no function of the
    application has been called: function 1 is not called. *)
Lemma C2_guarded_draw_calls_nothing :
  let w := Example.w_default in
  let blocked := propagating w in
  s_drawCallback <$> captured_by_zoom w 0 = Some (Some (UserFn 1))
  ∧ call 2 (SyncDraw 0) (VDygraph 0) [VDygraph 0; VBool true] w = (Ret tt, w)
  ∧ call 2 (SyncDraw 0) (VDygraph 0) [VDygraph 0; VBool false] blocked = (Ret tt, blocked)
  ∧ omap called (trace w) = []
  ∧ omap called (trace blocked) = [].
Proof. split_all; vm_compute; reflexivity. Qed.

(** C2, as amended: when the zoom guard is set, or the draw is the chart's
    initial draw, the handler returns at once: it propagates nothing, calls
    no callback (the captured one included), and leaves the world as it
    was. *)
Theorem C2_guarded_draw_returns_at_once (n i : nat) (w : world) (z : zoom_closure)
    (this : value) (arguments : list value) :
  zoomH w = Some z →
  z_block z = true ∨ truthy (arg 1 arguments) = true →
  call (S n) (SyncDraw i) this arguments w = (Ret tt, w).
Proof.
  intros Hz Hg. apply (zoom_draw_guarded n i w z this arguments Hz).
  destruct Hg as [->| ->]; [done|apply orb_true_r].
Qed.

(** An instance: an initial draw of the first chart of the example group. *)
Lemma C2_guarded_draw_returns_at_once_witness :
  call 2 (SyncDraw 0) (VDygraph 0) [VDygraph 0; VBool true] Example.w_default
  = (Ret tt, Example.w_default).
Proof.
  apply (C2_guarded_draw_returns_at_once 1 0 Example.w_default
           (ZoomClosure Example.group default_opts (Some (Some <$> Example.snaps)) false)).
  - vm_compute; reflexivity.
  - right. reflexivity.
Defined.

(** ** C3 *)

(** C3, at the failing input: with [range: false] the second chart is
    configured with the window [10, 40]; the first chart is moved to
    [10, 40]; the handler does not skip the second chart but calls
    [updateOptions] on it with the same window. *)
Theorem C3_x_only_never_skips :
  let w := Example.w_x_only in
  let w' := snd (user_zoom 2 0 [10; 40] [0; 1] w) in
  (z_syncOpts <$> zoomH w) = Some Example.x_only
  ∧ dateWindow <$> heap w !! 1%nat = Some (Some [10; 40])
  ∧ user_zoom 2 0 [10; 40] [0; 1] w = (Ret tt, w')
  ∧ trace w' = trace w ++
      [EvCall 1 (VDygraph 0) [VDygraph 0; VBool false];
       EvUpdateOptions 1 (zoom_patch [10; 40] None) false;
       EvUpdateOptions 2 (zoom_patch [10; 40] None) false].
Proof. split_all; vm_compute; reflexivity. Qed.

(** ** C4 *)




(** ** C5 *)

(** C5, counterexample: default options, three charts; the second chart
    is already configured with the window and the range that the first
    chart is moved to.  The draw propagates one update (to the third
    chart), not two. *)
Lemma C5_configured_chart_is_not_updated :
  let w := Example.w_default in
  let w' := snd (user_zoom 2 0 [10; 40] [0; 1] w) in
  user_zoom 2 0 [10; 40] [0; 1] w = (Ret tt, w')
  ∧ omap updated (drop (length (trace w)) (trace w')) = [2%nat]
  ∧ length (omap updated (drop (length (trace w)) (trace w')))
    ≠ (length Example.ids - 1)%nat.
Proof. split_all; vm_compute; [reflexivity..|discriminate]. Qed.

(** C5, as amended: with the draw handler installed on chart [m] of a
    group of distinct charts, a change of the viewport of [m] makes the
    handler call [updateOptions] once on each other chart that it does not
    skip, in group order, with the new viewport, and on no other chart;
    the redraws that these calls cause add nothing.  So there are at most
    N-1 propagated updates, and exactly N-1 when no other chart is
    skipped. *)
Theorem C5_one_update_per_chart_not_skipped (n i m jm : nat) (w : world) (ids : list gid)
    (o : options) (snaps : list snapshot) (c : chart) (xr yr : list Z) :
  active w ids o snaps →
  ids !! jm = Some m →
  heap w !! m = Some c →
  drawCallback c = Some (SyncDraw i) →
  let yr' := if truthy (range o) then Some yr else None in
  ∃ w' delta,
    user_zoom (S (S n)) m xr yr w = (Ret tt, w')
    ∧ trace w' = trace w ++ delta
    ∧ omap updated delta = filter (λ g, zoom_applies (heap w) m xr yr' g = true) ids
    ∧ (∀ g p b, EvUpdateOptions g p b ∈ delta → p = zoom_patch xr yr' ∧ b = false)
    ∧ NoDup (omap updated delta)
    ∧ (length (omap updated delta) ≤ length ids - 1)%nat
    ∧ ((∀ g c', g ∈ ids → g ≠ m → heap w !! g = Some c' → zoom_skips xr yr' c' = false) →
       length (omap updated delta) = (length ids - 1)%nat).
Proof.
  intros Hact Hjm Hc Hslot yr'.
  destruct (user_zoom_propagates n i m jm w ids o snaps c xr yr Hact Hjm Hc Hslot)
    as (w' & Hrun & _ & _ & _ & Htrace).
  fold yr' in Htrace.
  eexists w', _. split; [exact Hrun|]. split; [exact Htrace|].
  assert (Hm : m ∈ ids) by (by eapply list_elem_of_lookup_2).
  assert (Hnot : ¬ zoom_applies (heap w) m xr yr' m = true).
  { unfold zoom_applies. by rewrite Nat.eqb_refl. }
  rewrite updated_zoom_trace.
  split; [done|]. split; [|split; [|split]].
  - intros g p b Hin. by apply zoom_delta_update in Hin as (? & ? & _).
  - apply NoDup_filter, Hact.
  - pose proof (length_filter_lt (λ g, zoom_applies (heap w) m xr yr' g = true) ids m Hm Hnot).
    lia.
  - intros Hall. apply (filter_others_length m); try done; [apply Hact|].
    intros g Hg Hne. unfold zoom_applies.
    destruct (Nat.eqb_spec g m); [done|]. cbn [negb andb].
    pose proof (act_valid _ _ _ _ Hact) as Hvalid.
    rewrite Forall_forall in Hvalid. destruct (Hvalid g Hg) as [c' Hc'].
    rewrite Hc'. cbn [from_option]. by rewrite (Hall g c' Hg Hne Hc').
Qed.

(** An instance: the first chart of the example group is zoomed. *)
Lemma C5_one_update_per_chart_not_skipped_witness :
  let w := Example.w_default in
  let yr' := if truthy (range default_opts) then Some [0; 5] else None in
  ∃ w' delta,
    user_zoom 2 0 [20; 30] [0; 5] w = (Ret tt, w')
    ∧ trace w' = trace w ++ delta
    ∧ omap updated delta
      = filter (λ g, zoom_applies (heap w) 0 [20; 30] yr' g = true) Example.ids
    ∧ (∀ g p b, EvUpdateOptions g p b ∈ delta → p = zoom_patch [20; 30] yr' ∧ b = false)
    ∧ NoDup (omap updated delta)
    ∧ (length (omap updated delta) ≤ length Example.ids - 1)%nat
    ∧ ((∀ g c', g ∈ Example.ids → g ≠ 0%nat → heap w !! g = Some c' →
          zoom_skips [20; 30] yr' c' = false) →
       length (omap updated delta) = (length Example.ids - 1)%nat).
Proof.
  apply (C5_one_update_per_chart_not_skipped 0 0 0 0 Example.w_default Example.ids
           default_opts Example.snaps
           (Chart false 0 (Some (SyncDraw 0)) (Some (SyncHighlight 0))
              (Some (SyncUnhighlight 0)) None None [0; 100] [0; 1] [0; 10; 20; 30] None)).
  - solve_active.
  - reflexivity.
  - vm_compute; reflexivity.
  - reflexivity.
Defined.

(** ** C6 *)

(** C6: the pointer moves over chart [m], on which the highlight handler
    is installed, with x-position [x] and series [seriesName].  The
    handler returns.  On every other chart of the group whose [getRowForX]
    finds a row for [x], the selection is set to that row and series; a
    chart with no such row is left as it was.  Chart [m] is left as it
    was and no selection is set on it.  The only function of the
    application that is called is the captured highlight callback of [m],
    with [m] as receiver and the arguments of the event. *)
Theorem C6_highlight_selects_matching_rows (n i m jm : nat) (w : world) (ids : list gid)
    (o : options) (snaps : list snapshot) (c : chart) (arguments : list value) :
  active w ids o snaps →
  ids !! jm = Some m →
  heap w !! m = Some c →
  highlightCallback c = Some (SyncHighlight i) →
  let x := arg 1 arguments in
  let seriesName := arg 4 arguments in
  ∃ w' delta,
    pointer_move (S (S n)) m arguments w = (Ret tt, w')
    ∧ trace w' = trace w ++ delta
    ∧ (∀ g cg, g ∈ ids → g ≠ m → heap w !! g = Some cg →
         match row_for x cg with
         | Some row =>
           heap w' !! g = Some (with_selected (Some (row, seriesName)) cg)
           ∧ EvSetSelection g row seriesName ∈ delta
         | None =>
           heap w' !! g = Some cg ∧ ∀ row s, EvSetSelection g row s ∉ delta
         end)
    ∧ heap w' !! m = Some c
    ∧ (∀ row s, EvSetSelection m row s ∉ delta)
    ∧ (∀ f this args, EvCall f this args ∈ delta →
         snaps !! jm ≫= s_highlightCallback = Some (UserFn f)
         ∧ this = VDygraph m ∧ args = arguments)
    ∧ (∀ f, snaps !! jm ≫= s_highlightCallback = Some (UserFn f) →
         EvCall f (VDygraph m) arguments ∈ delta).
Proof.
  intros Hact Hjm Hc Hslot x seriesName.
  destruct (pointer_move_propagates n i m jm w ids o snaps c arguments Hact Hjm Hc Hslot)
    as (w' & Hrun & _ & Hheap & Htrace).
  fold x seriesName in Hheap, Htrace.
  assert (Hm : m ∈ ids) by (by eapply list_elem_of_lookup_2).
  eexists w', _. split; [exact Hrun|]. split; [exact Htrace|].
  split; [|split; [|split; [|split]]].
  - intros g cg Hg Hne Hcg.
    rewrite Hheap, decide_True, Hcg by done. unfold highlight_update. cbn [fmap option_fmap option_map].
    destruct (row_for x cg) as [row|] eqn:Hrow.
    + split; [done|]. apply highlight_delta_elem. right. by exists g, cg, row.
    + split; [done|]. intros row s Hin.
      apply highlight_delta_elem in Hin as [[_ Hin]|(g' & c' & row' & _ & _ & Hc' & Hrow' & Heq)].
      * apply call_events_elem in Hin as (f & _ & [=]).
      * injection Heq as -> -> ->. congruence.
  - rewrite Hheap, decide_False; [done|]. by intros [_ ?].
  - intros row s Hin.
    apply highlight_delta_elem in Hin as [[_ Hin]|(g' & c' & row' & _ & Hne & _ & _ & Heq)].
    + apply call_events_elem in Hin as (f & _ & [=]).
    + injection Heq as -> -> ->. done.
  - intros f this args Hin.
    apply highlight_delta_elem in Hin as [[_ Hin]|(g' & c' & row' & _ & _ & _ & _ & [=])].
    apply call_events_elem in Hin as (f' & Hf' & [= -> -> ->]). done.
  - intros f Hf. apply highlight_delta_elem. left. split; [done|].
    apply call_events_elem. by exists f.
Qed.

(** An instance: the pointer moves over the first chart of the example
    group. *)
Lemma C6_highlight_selects_matching_rows_witness :
  let w := Example.w_default in
  let arguments := [VObject []; VNum 20; VArray []; VNum 2; VStr "temp"] in
  ∃ w' delta,
    pointer_move 2 0 arguments w = (Ret tt, w')
    ∧ trace w' = trace w ++ delta
    ∧ (∀ g cg, g ∈ Example.ids → g ≠ 0%nat → heap w !! g = Some cg →
         match row_for (VNum 20) cg with
         | Some row =>
           heap w' !! g = Some (with_selected (Some (row, VStr "temp")) cg)
           ∧ EvSetSelection g row (VStr "temp") ∈ delta
         | None =>
           heap w' !! g = Some cg ∧ ∀ row s, EvSetSelection g row s ∉ delta
         end)
    ∧ heap w' !! 0%nat = heap w !! 0%nat
    ∧ (∀ row s, EvSetSelection 0 row s ∉ delta)
    ∧ (∀ f this args, EvCall f this args ∈ delta →
         Example.snaps !! 0%nat ≫= s_highlightCallback = Some (UserFn f)
         ∧ this = VDygraph 0 ∧ args = arguments)
    ∧ (∀ f, Example.snaps !! 0%nat ≫= s_highlightCallback = Some (UserFn f) →
         EvCall f (VDygraph 0) arguments ∈ delta).
Proof.
  apply (C6_highlight_selects_matching_rows 0 0 0 0 Example.w_default Example.ids
           default_opts Example.snaps
           (Chart false 0 (Some (SyncDraw 0)) (Some (SyncHighlight 0))
              (Some (SyncUnhighlight 0)) None None [0; 100] [0; 1] [0; 10; 20; 30] None)).
  - solve_active.
  - reflexivity.
  - vm_compute; reflexivity.
  - reflexivity.
Defined.

(** ** C7 *)

(** C7: with [range] false, a change of the viewport of chart [m] makes
    the handler pass only the date window on: every [updateOptions] it
    calls carries [dateWindow] and no [valueRange]; the configured value
    range of every chart, and the y-viewport of every chart but the one the
    user moved, are as before; and every other chart of the group is
    configured with the new date window. *)
Theorem C7_x_only_leaves_value_range (n i m jm : nat) (w : world) (ids : list gid)
    (o : options) (snaps : list snapshot) (c : chart) (xr yr : list Z) :
  active w ids o snaps →
  truthy (range o) = false →
  ids !! jm = Some m →
  heap w !! m = Some c →
  drawCallback c = Some (SyncDraw i) →
  ∃ w' delta,
    user_zoom (S (S n)) m xr yr w = (Ret tt, w')
    ∧ trace w' = trace w ++ delta
    ∧ (∀ g p b, EvUpdateOptions g p b ∈ delta →
         p_dateWindow p = Some xr ∧ p_valueRange p = None)
    ∧ (∀ g cg, heap w !! g = Some cg →
         ∃ cg', heap w' !! g = Some cg'
           ∧ valueRange cg' = valueRange cg
           ∧ (g ≠ m → yAxisRange cg' = yAxisRange cg))
    ∧ (∀ g cg, g ∈ ids → g ≠ m → heap w !! g = Some cg →
         ∃ cg', heap w' !! g = Some cg'
           ∧ dateWindow cg' = Some xr).
Proof.
  intros Hact Hrange Hjm Hc Hslot.
  destruct (user_zoom_propagates n i m jm w ids o snaps c xr yr Hact Hjm Hc Hslot)
    as (w' & Hrun & _ & Hm & Hheap & Htrace).
  rewrite Hrange in Hheap, Htrace.
  eexists w', _. split; [exact Hrun|]. split; [exact Htrace|].
  assert (Hupd : ∀ cg, zoom_update xr None cg = apply_patch (zoom_patch xr None) cg).
  { intros cg. unfold zoom_update. by rewrite zoom_skips_no_range. }
  split; [|split].
  - intros g p b Hin. by apply zoom_delta_update in Hin as (-> & _).
  - intros g cg Hcg. destruct (decide (g = m)) as [->|Hne].
    + rewrite Hm. eexists. split; [done|]. split; [|done].
      rewrite Hc in Hcg. by injection Hcg as <-.
    + rewrite (Hheap g Hne), Hcg. destruct (decide (g ∈ ids)).
      * eexists. split; [done|]. by rewrite Hupd.
      * by exists cg.
  - intros g cg Hg Hne Hcg.
    rewrite (Hheap g Hne), decide_True, Hcg by done.
    eexists. split; [done|]. by rewrite Hupd.
Qed.

(** An instance: the first chart of the example group, synchronized with
    [range: false], is zoomed. *)
Lemma C7_x_only_leaves_value_range_witness :
  let w := Example.w_x_only in
  ∃ w' delta,
    user_zoom 2 0 [20; 30] [0; 5] w = (Ret tt, w')
    ∧ trace w' = trace w ++ delta
    ∧ (∀ g p b, EvUpdateOptions g p b ∈ delta →
         p_dateWindow p = Some [20; 30] ∧ p_valueRange p = None)
    ∧ (∀ g cg, heap w !! g = Some cg →
         ∃ cg', heap w' !! g = Some cg'
           ∧ valueRange cg' = valueRange cg
           ∧ (g ≠ 0%nat → yAxisRange cg' = yAxisRange cg))
    ∧ (∀ g cg, g ∈ Example.ids → g ≠ 0%nat → heap w !! g = Some cg →
         ∃ cg', heap w' !! g = Some cg'
           ∧ dateWindow cg' = Some [20; 30]).
Proof.
  apply (C7_x_only_leaves_value_range 0 0 0 0 Example.w_x_only Example.ids
           Example.x_only Example.snaps
           (Chart false 0 (Some (SyncDraw 0)) (Some (SyncHighlight 0))
              (Some (SyncUnhighlight 0)) None None [0; 100] [0; 1] [0; 10; 20; 30] None)).
  - solve_active.
  - reflexivity.
  - reflexivity.
  - vm_compute; reflexivity.
  - reflexivity.
Defined.

(** ** C8 *)

(** C8: once [detach] has completed, the three variables of the handle
    are null, and a further [detach] fails with a TypeError, leaving the
    world as it is. *)
Theorem C8_second_detach_fails (call1 call2 : callback → value → list value → M unit)
    (w w' : world) :
  detach call1 w = (Ret tt, w') →
  dygraphs w' = None ∧ opts w' = None ∧ prevCallbacks w' = None
  ∧ detach call2 w' = (Throw TypeError, w').
Proof.
  intros Hrun. destruct (detach_completed call1 w w' Hrun) as (Hd & Ho & Hp).
  split_all; try done. by apply detach_released.
Qed.

(** An instance: the example group is detached twice. *)
Lemma C8_second_detach_fails_witness :
  let w' := snd (detach (call 2) Example.w_default) in
  detach (call 2) Example.w_default = (Ret tt, w')
  ∧ dygraphs w' = None ∧ opts w' = None ∧ prevCallbacks w' = None
  ∧ detach (call 2) w' = (Throw TypeError, w').
Proof.
  intros w'.
  assert (Hrun : detach (call 2) Example.w_default = (Ret tt, w')) by (vm_compute; reflexivity).
  split; [exact Hrun|].
  exact (C8_second_detach_fails (call 2) (call 2) Example.w_default w' Hrun).
Defined.

(** ** C9 *)

(** C9: from the active state, (1) every sequence of events on charts of
    the group runs to completion and ends with both guards clear; (2) a
    handler that is entered with its guard clear returns with the guard
    clear, and, unless it is the draw handler on an initial draw, has
    walked the whole group, the previous callback of the chart that fired
    included; (3) a handler that is entered with its guard set returns at
    once and changes nothing. *)
Theorem C9_guards_clear_between_events (n : nat) (w : world) (ids : list gid)
    (o : options) (snaps : list snapshot) :
  active w ids o snaps →
  (∀ evs, Forall (λ ev, target ev ∈ ids) evs →
     ∃ w', run (S (S n)) evs w = (Ret tt, w') ∧ guards_clear w')
  ∧ (∀ i m jm c this arguments,
       ids !! jm = Some m → heap w !! m = Some c →
       (truthy (zoom o) = true → arg 0 arguments = VDygraph m →
          ∃ w', call (S (S n)) (SyncDraw i) this arguments w = (Ret tt, w')
            ∧ guards_clear w'
            ∧ (truthy (arg 1 arguments) = false →
               trace w' = trace w ++
                 concat (loop_trace m
                           (call_events (snaps !! jm ≫= s_drawCallback) this arguments)
                           (zoom_events_on (xAxisRange c) (zoom_range o c))
                           (heap w) <$> ids)))
       ∧ (truthy (selection o) = true →
          (∃ w', call (S (S n)) (SyncHighlight i) (VDygraph m) arguments w = (Ret tt, w')
             ∧ guards_clear w'
             ∧ trace w' = trace w ++
                 concat (loop_trace m
                           (call_events (snaps !! jm ≫= s_highlightCallback)
                              (VDygraph m) arguments)
                           (highlight_events_on (arg 1 arguments) (arg 4 arguments))
                           (heap w) <$> ids))
          ∧ (∃ w', call (S (S n)) (SyncUnhighlight i) (VDygraph m) arguments w = (Ret tt, w')
               ∧ guards_clear w'
               ∧ trace w' = trace w ++
                   concat (loop_trace m
                             (call_events (snaps !! jm ≫= s_unhighlightCallback)
                                (VDygraph m) arguments)
                             (λ g _, [EvClearSelection g]) (heap w) <$> ids))))
  ∧ (∀ i this arguments w0,
       (∀ z, zoomH w0 = Some z → z_block z = true →
          call (S n) (SyncDraw i) this arguments w0 = (Ret tt, w0))
       ∧ (∀ s, selH w0 = Some s → s_block s = true →
            call (S n) (SyncHighlight i) this arguments w0 = (Ret tt, w0)
            ∧ call (S n) (SyncUnhighlight i) this arguments w0 = (Ret tt, w0))).
Proof.
  intros Hact. split; [|split].
  - intros evs Hevs.
    destruct (run_active n evs w ids o snaps Hact Hevs) as (w' & Hrun & Hact').
    exists w'. split; [done|]. by eapply active_guards_clear.
  - intros i m jm c this arguments Hjm Hc. split.
    + intros Hzoom Hme.
      destruct (zoom_draw_active n i m jm w ids o snaps c this arguments)
        as (w' & Hrun & Hact'); try done.
      exists w'. split; [done|]. split; [by eapply active_guards_clear|].
      intros Hinit.
      destruct (zoom_draw_propagates n i m jm w ids o snaps c this arguments)
        as (w'' & Hrun' & _ & _ & Htrace); try done.
      rewrite Hrun in Hrun'. by injection Hrun' as ->.
    + intros Hsel. split.
      * destruct (highlight_propagates n i m jm w ids o snaps arguments)
          as (w' & Hrun & _ & _ & Htrace); try done.
        destruct (highlight_active n i m jm w ids o snaps arguments)
          as (w'' & Hrun' & Hact'); try done.
        rewrite Hrun in Hrun'. injection Hrun' as <-.
        exists w'. split; [done|]. split; [by eapply active_guards_clear|done].
      * destruct (unhighlight_propagates n i m jm w ids o snaps arguments)
          as (w' & Hrun & _ & _ & Htrace); try done.
        destruct (unhighlight_active n i m jm w ids o snaps arguments)
          as (w'' & Hrun' & Hact'); try done.
        rewrite Hrun in Hrun'. injection Hrun' as <-.
        exists w'. split; [done|]. split; [by eapply active_guards_clear|done].
  - intros i this arguments w0. split.
    + intros z Hz Hb. apply (zoom_draw_guarded n i w0 z this arguments Hz). by rewrite Hb.
    + intros s Hs Hb. split.
      * by apply (highlight_guarded n i w0 s).
      * by apply (unhighlight_guarded n i w0 s).
Qed.

(** An instance: a zoom, a pointer move and a pointer exit on the example
    group. *)
Lemma C9_guards_clear_between_events_witness :
  ∃ w', run 2 [Zoom 0 [20; 30] [0; 5];
               PointerMove 1 [VObject []; VNum 20; VArray []; VNum 1; VStr "temp"];
               PointerOut 1 [VObject []]]
          Example.w_default = (Ret tt, w')
    ∧ guards_clear w'.
Proof.
  destruct (C9_guards_clear_between_events 0 Example.w_default Example.ids default_opts
              Example.snaps) as [Hrun _].
  - solve_active.
  - apply Hrun. by (apply (bool_decide_unpack _); vm_compute).
Defined.

(** ** C10 *)

(** C10: while the barrier has not released, with [zoom] or [selection]
    enabled, [detach] throws a TypeError at the first chart, on the absent
    entry of [prevCallbacks]; the world is as before: no callback of any
    chart is restored and the variables of the handle are not cleared. *)
Theorem C10_detach_before_ready_throws (call' : callback → value → list value → M unit)
    (w : world) (gs : list value) (o : options) :
  pending w gs o →
  truthy (zoom o) || truthy (selection o) = true →
  detach call' w = (Throw TypeError, w)
  ∧ dygraphs w = Some gs ∧ opts w = Some o ∧ prevCallbacks w = Some [].
Proof.
  intros [Hd Hg Ho Hp Hc] Hen. split; [|done].
  destruct gs as [|g gs]; [simpl in Hg; lia|].
  by eapply detach_before_capture.
Qed.

(** An instance: the handle of the example group while its third chart
    has not rendered. *)
Lemma C10_detach_before_ready_throws_witness :
  detach (call 2) w_waiting = (Throw TypeError, w_waiting)
  ∧ dygraphs w_waiting = Some Example.group
  ∧ opts w_waiting = Some default_opts
  ∧ prevCallbacks w_waiting = Some [].
Proof.
  apply (C10_detach_before_ready_throws (call 2) w_waiting Example.group default_opts).
  - constructor; vm_compute; try reflexivity. lia.
  - reflexivity.
Defined.

(** * Further properties of the code *)

(** ** [arraysAreEqual] on any two operands *)

(** X1: [arraysAreEqual(a, b)] is true exactly when both operands are
    arrays with the same elements in the same order; an operand that is
    not an array (undefined, null) makes it false, also against itself. *)
Theorem X1_arraysAreEqual_true_iff (a b : option (list Z)) :
  arraysAreEqual a b = true ↔ ∃ l, a = Some l ∧ b = Some l.
Proof.
  destruct a as [a|], b as [b|].
  - rewrite arraysAreEqual_Some. split.
    + intros ->. by exists b.
    + by intros (l & [= ->] & [= ->]).
  - rewrite arraysAreEqual_not_array. split; [done|]. by intros (l & _ & [=]).
  - rewrite arraysAreEqual_undefined. split; [done|]. by intros (l & [=] & _).
  - rewrite arraysAreEqual_undefined. split; [done|]. by intros (l & [=] & _).
Qed.

(** ** The argument check, case by case *)

(** The first loop on a list of Dygraphs. *)
Lemma forallb_dygraphs (gs : list gid) :
  forallb instanceof_Dygraph (VDygraph <$> gs) = true.
Proof. induction gs as [|g gs IH]; [done|]. exact IH. Qed.

(** The Dygraph branch of the argument check, on Dygraphs followed by
    one more argument. *)
Lemma collect_dygraphs_snoc (g : gid) (gs : list gid) (x : value) :
  collect ((VDygraph <$> g :: gs) ++ [x])
  = if instanceof_Dygraph x
    then inr ((VDygraph <$> g :: gs) ++ [x], default_opts)
    else match parseOpts x default_opts with
         | inl e => inl e
         | inr o => if (length gs <? 1)%nat then inl (ThrowString msg_two_or_more)
                    else inr (VDygraph <$> g :: gs, o)
         end.
Proof.
  unfold collect. rewrite fmap_cons. cbn [app instanceof_Dygraph].
  change (VDygraph g :: (VDygraph <$> gs) ++ [x]) with ((VDygraph <$> g :: gs) ++ [x]).
  rewrite GroupBuilderFacts.leading_dygraphs_snoc by apply forallb_dygraphs.
  rewrite last_snoc. cbn [default]. unfold id.
  destruct (instanceof_Dygraph x) eqn:Hx;
    rewrite ?length_app, ?length_fmap; cbn [length].
  - destruct (Z.ltb_spec0 (Z.of_nat (S (length gs) + 1)) (Z.of_nat (S (length gs) + 1) - 1));
      [lia|].
    destruct (Z.eqb_spec (Z.of_nat (S (length gs) + 1)) (Z.of_nat (S (length gs) + 1) - 1));
      [lia|].
    rewrite ?length_app, ?length_fmap; cbn [length].
    destruct (Nat.ltb_spec (S (length gs) + 1) 2); [lia|done].
  - destruct (Z.ltb_spec0 (Z.of_nat (S (length gs))) (Z.of_nat (S (length gs) + 1) - 1)); [lia|].
    destruct (Z.eqb_spec (Z.of_nat (S (length gs))) (Z.of_nat (S (length gs) + 1) - 1)); [|lia].
    destruct (parseOpts x default_opts) as [err|o]; [reflexivity|].
    rewrite ?length_fmap; cbn [length].
    destruct (Nat.ltb_spec (S (length gs)) 2), (Nat.ltb_spec (length gs) 1); try lia; done.
Qed.

(** The Dygraph branch of the argument check, on Dygraphs only. *)
Lemma collect_dygraphs (g : gid) (gs : list gid) :
  collect (VDygraph <$> g :: gs)
  = if (length gs <? 1)%nat then inl (ThrowString msg_two_or_more)
    else inr (VDygraph <$> g :: gs, default_opts).
Proof.
  destruct gs as [|g' gs]; [done|].
  destruct (exists_last (l := g' :: gs)) as (init & l & Heq); [done|].
  rewrite Heq.
  change (VDygraph <$> g :: init ++ [l]) with (VDygraph <$> (g :: init) ++ [l]).
  rewrite fmap_app. change (VDygraph <$> [l]) with [VDygraph l].
  rewrite collect_dygraphs_snoc. cbn [instanceof_Dygraph].
  rewrite length_app. cbn [length].
  destruct (Nat.ltb_spec (length init + 1) 1); [lia|done].
Qed.


(** The array branch of the argument check, on an array that is not
    empty. *)
Lemma collect_array (x : value) (elems rest : list value) :
  collect (VArray (x :: elems) :: rest)
  = match rest with
    | [] => if (length elems <? 1)%nat then inl (ThrowString msg_two_or_more)
            else inr (x :: elems, default_opts)
    | [obj] => match parseOpts obj default_opts with
               | inl e => inl e
               | inr o => if (length elems <? 1)%nat then inl (ThrowString msg_two_or_more)
                          else inr (x :: elems, o)
               end
    | _ => inl (ThrowString msg_two_arguments)
    end.
Proof.
  unfold collect. cbn [instanceof_Dygraph]. rewrite length_of_array.
  destruct rest as [|obj [|obj' rest]].
  - cbn. by destruct elems.
  - cbn -[parseOpts]. destruct (parseOpts obj default_opts); [done|]. by destruct elems.
  - cbn [length].
    destruct (Z.eqb_spec (Z.of_nat (S (S (S (length rest))))) 2); [lia|].
    destruct (Z.gtb_spec (Z.of_nat (S (S (S (length rest))))) 2); [done|lia].
Qed.

(** A list of Dygraph references. *)
Lemma dygraphs_are_references (elems : list value) :
  Forall (λ v, instanceof_Dygraph v = true) elems → ∃ ids : list gid, elems = VDygraph <$> ids.
Proof.
  induction 1 as [|v l Hv _ [ids ->]]; [by exists []|].
  destruct v; try done. by exists (g :: ids).
Qed.



(** X3: the two ways to call agree.  For a non-empty array of Dygraphs,
    alone or followed by one value that is not a Dygraph, passing the
    array and passing its elements as leading arguments give the same
    result of the argument check, and so the same run of [synchronize]:
    the same group and options, or the same exception. *)
Theorem X3_array_call_agrees_with_positional
    (call' : callback → value → list value → M unit)
    (elems rest : list value) (w : world) :
  elems ≠ [] →
  Forall (λ v, instanceof_Dygraph v = true) elems →
  (length rest ≤ 1)%nat →
  Forall (λ v, instanceof_Dygraph v = false) rest →
  collect (VArray elems :: rest) = collect (elems ++ rest)
  ∧ synchronize call' (VArray elems :: rest) w = synchronize call' (elems ++ rest) w.
Proof.
  intros Hne Hall Hlen Hrest.
  assert (Hcollect : collect (VArray elems :: rest) = collect (elems ++ rest)).
  { destruct (dygraphs_are_references elems Hall) as [[|g ids] ->]; [done|].
    rewrite fmap_cons, collect_array, length_fmap. rewrite <- fmap_cons.
    destruct rest as [|x [|x' rest]]; [| |simpl in Hlen; lia].
    - by rewrite app_nil_r, collect_dygraphs.
    - apply Forall_cons in Hrest as [Hx _].
      by rewrite collect_dygraphs_snoc, Hx. }
  split; [done|]. unfold synchronize. by rewrite Hcollect.
Qed.

(** An instance: the example group with [range: false]. *)
Lemma X3_array_call_agrees_with_positional_witness :
  let obj := VObject [("range"%string, VBool false)] in
  collect [VArray Example.group; obj] = collect (Example.group ++ [obj])
  ∧ synchronize (call 2) [VArray Example.group; obj] (page Example.charts)
    = synchronize (call 2) (Example.group ++ [obj]) (page Example.charts).
Proof.
  apply (X3_array_call_agrees_with_positional (call 2) Example.group
           [VObject [("range"%string, VBool false)]] (page Example.charts)).
  - done.
  - by repeat constructor.
  - simpl. lia.
  - by repeat constructor.
Defined.

(** An object with a length and indexed properties is taken as the list
    of charts, like an array: [{length: 2, 0: g0, 1: g1}] gives the group
    [g0, g1], and a length above the indexed properties gives undefined
    elements. *)
Lemma collect_array_like_object :
  collect [VObject [("length"%string, VNum 2); ("0"%string, VDygraph 0);
                    ("1"%string, VDygraph 1)]]
  = inr ([VDygraph 0; VDygraph 1], default_opts)
  ∧ collect [VObject [("length"%string, VNum 2); ("0"%string, VDygraph 0)]]
    = inr ([VDygraph 0; VUndefined], default_opts).
Proof. split; vm_compute; reflexivity. Qed.



(** ** The activation, call by call *)

(** The capture loop, with the reads it makes. *)
Lemma capture_loop_events (l : list gid) :
  ∀ (ss : list snapshot) (w : world),
    Forall (λ g, is_Some (heap w !! g)) l →
    prevCallbacks w = Some (Some <$> ss) →
    ∃ w', for_each capture (length ss) (VDygraph <$> l) w = (Ret tt, w')
      ∧ trace w' = trace w ++ concat (capture_events <$> l).
Proof.
  induction l as [|g l IH]; intros ss w Hvalid Hp.
  - exists w. cbn. by rewrite app_nil_r.
  - apply Forall_cons in Hvalid as [[c Hc] Hvalid].
    rewrite fmap_cons. cbn [for_each].
    destruct (capture_chart (length ss) g c ss w Hc Hp eq_refl)
      as (w1 & Hrun1 & Hp1 & Hh1 & _ & _ & _ & _ & _ & Ht1).
    rewrite (bind_Ret _ _ _ _ _ Hrun1).
    destruct (IH (ss ++ [snapshot_of c]) w1) as (w' & Hrun & Ht); [by rewrite Hh1|done|].
    rewrite length_app in Hrun. cbn [length] in Hrun.
    replace (length ss + 1)%nat with (S (length ss)) in Hrun by lia.
    exists w'. split; [done|].
    rewrite Ht, Ht1, <- app_assoc. done.
Qed.

(** An installation loop, with the calls it makes. *)
Lemma installation_loop_events (call' : callback → value → list value → M unit)
    (p : nat → patch) (l : list gid) :
  ∀ (j : nat) (w : world),
    Forall (λ g, is_Some (heap w !! g)) l →
    ∃ w', for_each (λ i g, updateOptions call' g (p i) true) j (VDygraph <$> l) w = (Ret tt, w')
      ∧ trace w' = trace w ++ imap (λ k g, EvUpdateOptions g (p (j + k)%nat) true) l.
Proof.
  induction l as [|g l IH]; intros j w Hvalid.
  - exists w. cbn. by rewrite app_nil_r.
  - apply Forall_cons in Hvalid as [[c Hc] Hvalid].
    rewrite fmap_cons. cbn [for_each].
    set (w1 := set_heap (alter (apply_patch (p j)) g (heap w))
                 (set_trace (trace w ++ [EvUpdateOptions g (p j) true]) w)).
    assert (Hstep : updateOptions call' (VDygraph g) (p j) true w = (Ret tt, w1)).
    { unfold updateOptions. by rewrite (bind_Ret _ _ _ _ _ (as_dygraph_Some _ _ _ Hc)). }
    rewrite (bind_Ret _ _ _ _ _ Hstep).
    destruct (IH (S j) w1) as (w' & Hrun & Ht).
    { eapply Forall_impl; [exact Hvalid|]. intros g' [c' Hc']. subst w1. cbn [heap set_heap set_trace].
      destruct (decide (g = g')) as [->|].
      - rewrite list_lookup_alter_eq. apply fmap_is_Some. by exists c'.
      - rewrite list_lookup_alter_ne by done. by eexists. }
    exists w'. split; [done|].
    rewrite Ht. subst w1. cbn [trace set_heap set_trace imap].
    rewrite Nat.add_0_r, <- app_assoc. cbn [app]. do 2 f_equal.
    apply imap_ext. intros k g' _. cbn. do 2 f_equal. lia.
Qed.

(** The zoom phase of the barrier, with the calls it makes. *)
Lemma zoom_phase_events (call' : callback → value → list value → M unit) (ids : list gid)
    (o : options) (w : world) :
  dygraphs w = Some (VDygraph <$> ids) →
  Forall (λ g, is_Some (heap w !! g)) ids →
  ∃ w', (if truthy (zoom o)
         then gs <- gets dygraphs ;; prev <- gets prevCallbacks ;;
              attachZoomHandlers call' gs o prev
         else ret tt) w = (Ret tt, w')
    ∧ trace w' = trace w ++
        (if truthy (zoom o)
         then imap (λ k g, EvUpdateOptions g (zoom_install k) true) ids else []).
Proof.
  intros Hd Hvalid. destruct (truthy (zoom o)).
  - unfold gets, bind at 1 2. rewrite Hd.
    unfold attachZoomHandlers, deref, modify, bind at 1 2.
    destruct (installation_loop_events call' zoom_install ids 0
                (set_zoomH (Some (ZoomClosure (VDygraph <$> ids) o (prevCallbacks w) false)) w))
      as (w' & Hrun & Ht); [done|].
    exists w'. split; [exact Hrun|]. exact Ht.
  - exists w. by rewrite app_nil_r.
Qed.

(** The selection phase of the barrier, with the calls it makes. *)
Lemma selection_phase_events (call' : callback → value → list value → M unit)
    (ids : list gid) (o : options) (w : world) :
  dygraphs w = Some (VDygraph <$> ids) →
  Forall (λ g, is_Some (heap w !! g)) ids →
  ∃ w', (if truthy (selection o)
         then gs <- gets dygraphs ;; prev <- gets prevCallbacks ;;
              attachSelectionHandlers call' gs prev
         else ret tt) w = (Ret tt, w')
    ∧ trace w' = trace w ++
        (if truthy (selection o)
         then imap (λ k g, EvUpdateOptions g (selection_install k) true) ids else []).
Proof.
  intros Hd Hvalid. destruct (truthy (selection o)).
  - unfold gets, bind at 1 2. rewrite Hd.
    unfold attachSelectionHandlers, deref, modify, bind at 1 2.
    destruct (installation_loop_events call' selection_install ids 0
                (set_selH (Some (SelectionClosure (VDygraph <$> ids) (prevCallbacks w) false)) w))
      as (w' & Hrun & Ht); [done|].
    exists w'. split; [exact Hrun|]. exact Ht.
  - exists w. by rewrite app_nil_r.
Qed.

(** The last [ready] callback, in full: what is captured, what every
    chart holds afterwards, and the calls made on the charts. *)
Lemma last_ready_installs (call' : callback → value → list value → M unit)
    (ids : list gid) (o : options) (w : world) :
  dygraphs w = Some (VDygraph <$> ids) →
  opts w = Some o →
  prevCallbacks w = Some [] →
  readycount w = 1 →
  zoomH w = None → selH w = None →
  NoDup ids →
  Forall (λ g, is_Some (heap w !! g)) ids →
  Forall (λ c, plain_chart c = true) (heap w) →
  ∃ w', ready_callback call' w = (Ret tt, w')
    ∧ active w' ids o (captured_snapshots (heap w) ids)
    ∧ (∀ g, g ∉ ids → heap w' !! g = heap w !! g)
    ∧ (∀ k g, ids !! k = Some g → heap w' !! g = installed o k <$> heap w !! g)
    ∧ trace w' = trace w ++ activation_events o ids.
Proof.
  intros Hd Ho Hp Hn Hz Hs Hnd Hvalid Hplain.
  destruct (last_ready_activates call' ids o w) as (w' & Hrun & Hact); try done.
  exists w'. split; [done|]. split; [done|].
  revert Hrun.
  unfold ready_callback, gets, modify, bind at 1 2. rewrite Hn.
  change (negb (1 - 1 =? 0)) with false. cbn iota.
  set (w0 := set_readycount (1 - 1) w).
  unfold deref at 1, bind at 1. change (dygraphs w0) with (dygraphs w). rewrite Hd.
  destruct (capture_loop ids [] w0 Hvalid Hp)
    as (w1 & Hrun1 & Hp1 & Hh1 & Hd1 & Ho1 & Hr1 & Hz1 & Hs1 & _).
  destruct (capture_loop_events ids [] w0 Hvalid Hp) as (w1' & Hrun1' & Ht1).
  assert (w1' = w1) as -> by congruence. clear Hrun1'.
  cbn [length app] in Hrun1. rewrite (bind_Ret _ _ _ _ _ Hrun1).
  change (heap w0) with (heap w) in *. change (dygraphs w0) with (dygraphs w) in *.
  change (opts w0) with (opts w) in *. change (trace w0) with (trace w) in *.
  unfold deref at 1, bind at 1. rewrite Ho1, Ho.
  assert (Hvalid1 : Forall (λ g, is_Some (heap w1 !! g)) ids) by (by rewrite Hh1).
  assert (Hdy1 : dygraphs w1 = Some (VDygraph <$> ids)) by congruence.
  destruct (zoom_phase call' ids o w1)
    as (w2 & Hrun2 & Hd2 & Ho2 & Hp2 & Hr2 & Hs2 & Hz2 & Hout2 & Hat2); try done.
  destruct (zoom_phase_events call' ids o w1) as (w2' & Hrun2' & Ht2); try done.
  assert (w2' = w2) as -> by congruence. clear Hrun2'.
  rewrite (bind_Ret _ _ _ _ _ Hrun2).
  unfold deref at 1, bind at 1. rewrite Ho2, Ho1, Ho.
  assert (Hvalid2 : Forall (λ g, is_Some (heap w2 !! g)) ids).
  { eapply Forall_lookup. intros k g Hg. rewrite (Hat2 k g Hg), Hh1.
    apply fmap_is_Some. exact (Forall_lookup_1 _ _ _ _ Hvalid Hg). }
  assert (Hdy2 : dygraphs w2 = Some (VDygraph <$> ids)) by congruence.
  destruct (selection_phase call' ids o w2)
    as (w3 & Hrun3 & Hd3 & Ho3 & Hp3 & Hr3 & Hz3 & Hs3 & Hout3 & Hat3); try done.
  destruct (selection_phase_events call' ids o w2) as (w3' & Hrun3' & Ht3); try done.
  assert (w3' = w3) as -> by congruence. clear Hrun3'.
  intros Hend.
  assert (Heq : (Ret tt, w3) = (Ret tt, w')) by (rewrite <- Hrun3; exact Hend).
  injection Heq as <-.
  split_all.
  - intros g Hg. by rewrite (Hout3 g Hg), (Hout2 g Hg), Hh1.
  - intros k g Hg. rewrite (Hat3 k g Hg), (Hat2 k g Hg), Hh1.
    unfold installed. by destruct (heap w !! g).
  - rewrite Ht3, Ht2, Ht1. unfold activation_events. by rewrite <- !app_assoc.
Qed.

(** [synchronize] on a valid group of distinct charts that have all
    rendered, in full. *)
Lemma synchronize_installs (call' : callback → value → list value → M unit)
    (arguments : list value) (ids : list gid) (o : options) (w : world) :
  collect arguments = inr (VDygraph <$> ids, o) →
  NoDup ids →
  Forall (λ g, is_Some (heap w !! g)) ids →
  Forall (λ g, rendered (heap w) g = true) ids →
  Forall (λ c, plain_chart c = true) (heap w) →
  zoomH w = None → selH w = None →
  ∃ w', synchronize call' arguments w = (Ret tt, w')
    ∧ active w' ids o (captured_snapshots (heap w) ids)
    ∧ (∀ g, g ∉ ids → heap w' !! g = heap w !! g)
    ∧ (∀ k g, ids !! k = Some g → heap w' !! g = installed o k <$> heap w !! g)
    ∧ trace w' = trace w ++ (EvReady <$> ids) ++ activation_events o ids.
Proof.
  intros Hcollect Hnd Hvalid Hrendered Hplain Hz Hs.
  pose proof (collect_size _ _ _ Hcollect) as Hsize. rewrite length_fmap in Hsize.
  unfold synchronize. rewrite Hcollect.
  unfold modify, bind at 1. rewrite length_fmap.
  set (w0 := World (heap w) (Some (VDygraph <$> ids)) (Some o) (Some [])
               (Z.of_nat (length ids)) (zoomH w) (selH w) (trace w)).
  destruct (exists_last (l := ids)) as (init & g & Hids).
  { intros ->. simpl in Hsize. lia. }
  rewrite Forall_forall in Hrendered.
  assert (Hall : filter (λ g, rendered (heap w0) g = true) init = init).
  { apply filter_all. intros g' Hg'. apply Hrendered. rewrite Hids.
    apply elem_of_app. by left. }
  destruct (ready_loop_pending call' init 0 w0)
    as (w1 & Hrun1 & Hd1 & Ho1 & Hp1 & Hz1 & Hs1 & Hn1 & Ht1 & Hh1).
  { rewrite Hids in Hvalid. by apply Forall_app in Hvalid as [? _]. }
  { rewrite Hall. subst w0. cbn [readycount]. rewrite Hids, length_app. cbn [length]. lia. }
  assert (Hheap : heap w1 = heap w).
  { apply list_eq. intros g'. rewrite Hh1. subst w0. cbn [heap].
    rewrite filter_none.
    - destruct (heap w !! g') as [c|]; [|done]. cbn. by rewrite chart_eta.
    - intros g'' Hg'' [_ Hr]. rewrite Hrendered in Hr; [done|].
      rewrite Hids. apply elem_of_app. by left. }
  replace (VDygraph <$> ids) with ((VDygraph <$> init) ++ [VDygraph g])
    by (by rewrite Hids, fmap_app).
  rewrite (for_each_app _ _ _ _ _ _ Hrun1). cbn [for_each].
  assert (Hg : g ∈ ids) by (rewrite Hids; apply elem_of_app; right; apply list_elem_of_here).
  rewrite Forall_forall in Hvalid. destruct (Hvalid g Hg) as [c Hc].
  assert (Hinit : is_initial_draw c = false).
  { specialize (Hrendered g Hg). unfold rendered in Hrendered. rewrite Hc in Hrendered.
    cbn in Hrendered. by destruct (is_initial_draw c). }
  assert (Hready : ready call' (VDygraph g) w1
                   = ready_callback call' (set_trace (trace w1 ++ [EvReady g]) w1)).
  { unfold ready.
    erewrite bind_Ret; last by (apply (as_dygraph_Some _ c); rewrite Hheap).
    unfold emit, modify, bind at 1.
    erewrite bind_Ret; last by (apply (get_chart_Some _ c); cbn [heap set_trace]; rewrite Hheap).
    by rewrite Hinit. }
  destruct (last_ready_installs call' ids o (set_trace (trace w1 ++ [EvReady g]) w1))
    as (w' & Hrun & Hact & Hout & Hat & Ht);
    cbn [dygraphs opts prevCallbacks readycount zoomH selH heap set_trace];
    try (subst w0; cbn in *; congruence).
  { rewrite Hn1, Hall. subst w0. cbn [readycount]. rewrite Hids, length_app. cbn [length]. lia. }
  { rewrite Hheap. by apply Forall_forall. }
  cbn [heap trace set_trace] in Hact, Hout, Hat, Ht. rewrite Hheap in Hact, Hout, Hat.
  unfold bind at 1. rewrite Hready, Hrun.
  exists w'. split_all; try done.
  rewrite Ht, Ht1. subst w0. cbn [trace]. rewrite Hids, fmap_app, <- !app_assoc. done.
Qed.

(** The elements that satisfy a decidable test and those that do not. *)
Lemma length_filter_split {A} (P : A → Prop) `{∀ x, Decision (P x)} (l : list A) :
  (length (filter P l) + length (filter (λ x, ¬ P x) l) = length l)%nat.
Proof.
  induction l as [|x l IH]; [done|].
  rewrite !filter_cons. destruct (decide (P x)).
  - rewrite decide_False by tauto. cbn [length]. lia.
  - rewrite decide_True by done. cbn [length]. lia.
Qed.

(** No event of the activation is a call of a function of the
    application. *)
Lemma activation_events_call_nothing (o : options) (ids : list gid) (e : event) :
  e ∈ (EvReady <$> ids) ++ activation_events o ids → called e = None.
Proof.
  unfold activation_events. rewrite !elem_of_app.
  intros [H|[H|[H|H]]].
  - apply list_elem_of_fmap in H as (g & -> & _). done.
  - apply elem_of_concat_fmap in H as (g & _ & He).
    unfold capture_events in He. rewrite !elem_of_cons in He.
    destruct He as [->|[->|[->|He]]]; try done. by apply elem_of_nil in He.
  - destruct (truthy (zoom o)); [|by apply elem_of_nil in H].
    apply elem_of_lookup_imap in H as (k & g & -> & _). done.
  - destruct (truthy (selection o)); [|by apply elem_of_nil in H].
    apply elem_of_lookup_imap in H as (k & g & -> & _). done.
Qed.

(** X5: [synchronize] on a valid group of distinct charts that have all
    rendered, whose callbacks are the application's.  The call returns
    with the synchronization in place.  [prevCallbacks] holds, position by
    position, the three callbacks each chart had.  The chart at position
    [k] holds the draw handler of position [k] when [zoom] is enabled, and
    the highlight and unhighlight handlers of position [k] when
    [selection] is enabled; a slot of a protocol that is not enabled, and
    everything else about the chart (configured windows, viewport, data,
    selection), is as before.  Charts outside the group are as before.  The
    calls made on the charts are: [ready] on each chart in order; then the
    three reads of the capture on each chart; then one [updateOptions] per
    chart for the draw handler, then one per chart for the selection
    handlers, each with the redraw blocked.  No function of the application
    is called. *)
Theorem X5_synchronize_installs_handlers (call' : callback → value → list value → M unit)
    (arguments : list value) (ids : list gid) (o : options) (w : world) :
  collect arguments = inr (VDygraph <$> ids, o) →
  NoDup ids →
  Forall (λ g, is_Some (heap w !! g)) ids →
  Forall (λ g, rendered (heap w) g = true) ids →
  Forall (λ c, plain_chart c = true) (heap w) →
  zoomH w = None → selH w = None →
  ∃ w', synchronize call' arguments w = (Ret tt, w')
    ∧ dygraphs w' = Some (VDygraph <$> ids) ∧ opts w' = Some o
    ∧ prevCallbacks w' = Some (Some <$> captured_snapshots (heap w) ids)
    ∧ (∀ k g c, ids !! k = Some g → heap w !! g = Some c →
         captured_snapshots (heap w) ids !! k = Some (snapshot_of c)
         ∧ heap w' !! g = Some
             (Chart (is_initial_draw c) (readyFns c)
                (if truthy (zoom o) then Some (SyncDraw k) else drawCallback c)
                (if truthy (selection o) then Some (SyncHighlight k) else highlightCallback c)
                (if truthy (selection o) then Some (SyncUnhighlight k)
                 else unhighlightCallback c)
                (dateWindow c) (valueRange c) (xAxisRange c) (yAxisRange c)
                (rawX c) (selected c)))
    ∧ (∀ g, g ∉ ids → heap w' !! g = heap w !! g)
    ∧ trace w' = trace w ++ (EvReady <$> ids) ++ activation_events o ids
    ∧ (∀ e, e ∈ (EvReady <$> ids) ++ activation_events o ids → called e = None).
Proof.
  intros Hcollect Hnd Hvalid Hrendered Hplain Hz Hs.
  destruct (synchronize_installs call' arguments ids o w)
    as (w' & Hrun & Hact & Hout & Hat & Ht); try done.
  exists w'. split; [done|].
  split; [apply Hact|]. split; [apply Hact|]. split; [apply Hact|].
  split_all.
  - intros k g c Hg Hc. split.
    + unfold captured_snapshots. by rewrite list_lookup_fmap, Hg; cbn; rewrite Hc.
    + rewrite (Hat k g Hg), Hc. cbn [fmap option_fmap option_map]. f_equal.
      unfold installed. destruct c. by destruct (truthy (zoom o)), (truthy (selection o)).
  - exact Hout.
  - exact Ht.
  - apply activation_events_call_nothing.
Qed.

(** An instance: the example page. *)
Lemma X5_synchronize_installs_handlers_witness :
  ∃ w', synchronize (call 2) Example.group (page Example.charts) = (Ret tt, w')
    ∧ dygraphs w' = Some (VDygraph <$> Example.ids) ∧ opts w' = Some default_opts
    ∧ prevCallbacks w' = Some (Some <$> captured_snapshots Example.charts Example.ids)
    ∧ (∀ k g c, Example.ids !! k = Some g → Example.charts !! g = Some c →
         captured_snapshots Example.charts Example.ids !! k = Some (snapshot_of c)
         ∧ heap w' !! g = Some
             (Chart (is_initial_draw c) (readyFns c)
                (if truthy (zoom default_opts) then Some (SyncDraw k) else drawCallback c)
                (if truthy (selection default_opts) then Some (SyncHighlight k)
                 else highlightCallback c)
                (if truthy (selection default_opts) then Some (SyncUnhighlight k)
                 else unhighlightCallback c)
                (dateWindow c) (valueRange c) (xAxisRange c) (yAxisRange c)
                (rawX c) (selected c)))
    ∧ (∀ g, g ∉ Example.ids → heap w' !! g = Example.charts !! g)
    ∧ trace w' = [] ++ (EvReady <$> Example.ids) ++ activation_events default_opts Example.ids
    ∧ (∀ e, e ∈ (EvReady <$> Example.ids) ++ activation_events default_opts Example.ids →
         called e = None).
Proof.
  apply (X5_synchronize_installs_handlers (call 2) Example.group Example.ids default_opts
           (page Example.charts)).
  - vm_compute; reflexivity.
  - by (apply (bool_decide_unpack _); vm_compute).
  - by (apply (bool_decide_unpack _); vm_compute).
  - by (apply (bool_decide_unpack _); vm_compute).
  - by (apply (bool_decide_unpack _); vm_compute).
  - reflexivity.
  - reflexivity.
Defined.

(** ** The barrier *)

(** X6: [synchronize] on a valid group in which some chart has not
    completed its first render.  The call returns with the barrier
    closed: the countdown is the number of charts of the group still to
    render, nothing is stored in [prevCallbacks], no handler exists.  The
    only calls made on the charts are the [ready] calls, one per chart in
    group order; no callback slot is read or written, and nothing of any
    chart changes but its queue of ready functions. *)
Theorem X6_synchronize_waits_for_first_renders
    (call' : callback → value → list value → M unit)
    (arguments : list value) (ids : list gid) (o : options) (w : world) :
  collect arguments = inr (VDygraph <$> ids, o) →
  Forall (λ g, is_Some (heap w !! g)) ids →
  (∃ g, g ∈ ids ∧ rendered (heap w) g = false) →
  ∃ w', synchronize call' arguments w = (Ret tt, w')
    ∧ dygraphs w' = Some (VDygraph <$> ids) ∧ opts w' = Some o
    ∧ prevCallbacks w' = Some []
    ∧ readycount w' = Z.of_nat (length (filter (λ g, ¬ rendered (heap w) g = true) ids))
    ∧ 0 < readycount w'
    ∧ zoomH w' = zoomH w ∧ selH w' = selH w
    ∧ trace w' = trace w ++ (EvReady <$> ids)
    ∧ (∀ g c, heap w !! g = Some c →
         ∃ queued, heap w' !! g = Some (with_render_state (is_initial_draw c) queued c)).
Proof.
  intros Hcollect Hvalid (g0 & Hg0 & Hr0).
  unfold synchronize. rewrite Hcollect.
  unfold modify, bind at 1.
  set (w0 := World (heap w) (Some (VDygraph <$> ids)) (Some o) (Some [])
               (Z.of_nat (length (VDygraph <$> ids))) (zoomH w) (selH w) (trace w)).
  pose proof (length_filter_split (λ g, rendered (heap w) g = true) ids) as Hsplit.
  assert (Hpos : (0 < length (filter (λ g, ¬ rendered (heap w) g = true) ids))%nat).
  { assert (Hin : g0 ∈ filter (λ g, ¬ rendered (heap w) g = true) ids).
    { apply list_elem_of_filter. split; [by rewrite Hr0|done]. }
    apply list_elem_of_lookup_1 in Hin as [i Hi]. apply lookup_lt_Some in Hi. lia. }
  destruct (ready_loop_pending call' ids 0 w0)
    as (w' & Hrun & Hd & Ho & Hp & Hz & Hs & Hcount & Ht & Hh); [done|..].
  { subst w0. cbn [heap readycount]. rewrite length_fmap. lia. }
  exists w'. split; [done|].
  assert (Hn : readycount w'
               = Z.of_nat (length (filter (λ g, ¬ rendered (heap w) g = true) ids))).
  { rewrite Hcount. subst w0. cbn [heap readycount]. rewrite length_fmap. lia. }
  split_all; try done.
  - lia.
  - intros g c Hc. rewrite Hh. subst w0. cbn [heap]. rewrite Hc.
    cbn [fmap option_fmap option_map]. by eexists.
Qed.

(** An instance: the third chart of the example has not rendered. *)
Lemma X6_synchronize_waits_for_first_renders_witness :
  let h := [Example.g0; Example.g1;
            Chart true 0 None None None None None [0; 100] [0; 1] [7; 8] None] in
  ∃ w', synchronize (call 2) Example.group (page h) = (Ret tt, w')
    ∧ dygraphs w' = Some (VDygraph <$> Example.ids) ∧ opts w' = Some default_opts
    ∧ prevCallbacks w' = Some []
    ∧ readycount w' = Z.of_nat (length (filter (λ g, ¬ rendered h g = true) Example.ids))
    ∧ 0 < readycount w'
    ∧ zoomH w' = None ∧ selH w' = None
    ∧ trace w' = [] ++ (EvReady <$> Example.ids)
    ∧ (∀ g c, h !! g = Some c →
         ∃ queued, heap w' !! g = Some (with_render_state (is_initial_draw c) queued c)).
Proof.
  intros h.
  apply (X6_synchronize_waits_for_first_renders (call 2) Example.group Example.ids
           default_opts (page h)).
  - vm_compute; reflexivity.
  - by (apply (bool_decide_unpack _); vm_compute).
  - exists 2%nat. split; [|reflexivity]. by (apply (bool_decide_unpack _); vm_compute).
Defined.

(** The first render of a chart up to the point where its queue of ready
    functions runs: the chart is marked as rendered and its draw callback,
    a function of the application or none, is called for the initial
    draw. *)
Lemma first_render_draws (n : nat) (g : gid) (c : chart) (w : world) :
  heap w !! g = Some c →
  is_initial_draw c = true →
  user_only (drawCallback c) = true →
  first_render (S n) g w
  = fire_ready (S n) g (readyFns c)
      (log (call_events (drawCallback c) (VDygraph g) [VDygraph g; VBool true])
         (set_heap (alter (λ c, with_render_state false (readyFns c) c) g (heap w)) w)).
Proof.
  intros Hc Hinit Huser. unfold first_render.
  rewrite (bind_Ret _ _ _ _ _ (get_chart_Some _ _ _ Hc)). rewrite Hinit.
  unfold modify_chart, modify, bind at 1.
  by rewrite (bind_Ret _ _ _ _ _ (call_user_only n (drawCallback c) _ _ _ Huser)).
Qed.

(** The queue of ready functions of a chart runs while the countdown
    stays positive: the queue empties, the countdown goes down by its
    length, and nothing else changes. *)
Lemma fire_ready_counts (fuel : nat) (g : gid) (k : nat) :
  ∀ w : world,
    Z.of_nat k < readycount w →
    (∀ c, heap w !! g = Some c → readyFns c = k) →
    ∃ w', fire_ready fuel g k w = (Ret tt, w')
      ∧ dygraphs w' = dygraphs w ∧ opts w' = opts w ∧ prevCallbacks w' = prevCallbacks w
      ∧ zoomH w' = zoomH w ∧ selH w' = selH w ∧ trace w' = trace w
      ∧ readycount w' = readycount w - Z.of_nat k
      ∧ (∀ g', heap w' !! g' =
               if decide (g' = g)
               then (λ c, with_render_state (is_initial_draw c) 0 c) <$> heap w !! g'
               else heap w !! g').
Proof.
  induction k as [|k IH]; intros w Hk Hq.
  - exists w. cbn [fire_ready]. split_all; try done; [lia|].
    intros g'. destruct (decide (g' = g)) as [->|]; [|done].
    destruct (heap w !! g) as [c|] eqn:Hc; [|done].
    specialize (Hq c eq_refl). destruct c. cbn in *. by subst.
  - cbn [fire_ready].
    unfold modify_chart, modify, bind at 1.
    set (w1 := set_heap _ w).
    unfold ready_callback, gets, modify, bind at 1 2 3.
    change (readycount w1) with (readycount w).
    destruct (Z.eqb_spec (readycount w - 1) 0) as [Hz|Hnz]; [lia|]. cbn [negb].
    unfold ret at 1.
    destruct (IH (set_readycount (readycount w - 1) w1)) as
      (w' & Hrun & Hd & Ho & Hp & Hz & Hs & Ht & Hn & Hh).
    { cbn [readycount set_readycount]. lia. }
    { intros c. subst w1. cbn [heap set_readycount set_heap].
      rewrite list_lookup_alter_eq. destruct (heap w !! g); [|done]. by intros [= <-]. }
    exists w'. split; [done|]. split_all; try done.
    + rewrite Hn. cbn [readycount set_readycount]. lia.
    + intros g'. rewrite Hh. subst w1. cbn [heap set_readycount set_heap].
      destruct (decide (g' = g)) as [->|Hne].
      * rewrite list_lookup_alter_eq. by destruct (heap w !! g).
      * by rewrite list_lookup_alter_ne.
Qed.

(** X7: a chart of a waiting group completes its first render while the
    countdown is above the number of ready functions in its queue (other
    charts are still to render).  The first render returns; the draw
    callback of the chart, if any, was called once, for the initial draw;
    the countdown went down by the length of the queue; and the barrier is
    still closed: nothing is captured, no handler is installed, and no
    chart but this one has changed, which is now rendered with an empty
    queue. *)
Theorem X7_first_render_keeps_barrier_closed (n : nat) (w : world) (gs : list value)
    (o : options) (g : gid) (c : chart) :
  pending w gs o →
  heap w !! g = Some c →
  is_initial_draw c = true →
  user_only (drawCallback c) = true →
  Z.of_nat (readyFns c) < readycount w →
  ∃ w', first_render (S n) g w = (Ret tt, w')
    ∧ pending w' gs o
    ∧ readycount w' = readycount w - Z.of_nat (readyFns c)
    ∧ zoomH w' = zoomH w ∧ selH w' = selH w
    ∧ heap w' !! g = Some (with_render_state false 0 c)
    ∧ (∀ g', g' ≠ g → heap w' !! g' = heap w !! g')
    ∧ trace w' = trace w ++
        call_events (drawCallback c) (VDygraph g) [VDygraph g; VBool true].
Proof.
  intros [Hd Hg Ho Hp Hcount] Hc Hinit Huser Hlt.
  rewrite (first_render_draws n g c w Hc Hinit Huser).
  set (w1 := log _ _).
  assert (Hc1 : heap w1 !! g = Some (with_render_state false (readyFns c) c)).
  { subst w1. cbn [heap log set_trace set_heap]. by rewrite list_lookup_alter_eq, Hc. }
  destruct (fire_ready_counts (S n) g (readyFns c) w1)
    as (w' & Hrun & Hd' & Ho' & Hp' & Hz' & Hs' & Ht' & Hn' & Hh'); [done|..].
  { intros c1. rewrite Hc1. by intros [= <-]. }
  exists w'. split; [done|]. split_all; try done.
  - subst w1. cbn [log set_trace set_heap dygraphs opts prevCallbacks readycount] in *.
    constructor; [congruence|done|congruence|congruence|lia].
  - rewrite Hh', decide_True, Hc1 by done. done.
  - intros g' Hne. rewrite Hh', decide_False by done.
    subst w1. cbn [heap log set_trace set_heap]. by rewrite list_lookup_alter_ne.
Qed.

(** An instance: on a page where two charts of the example have not
    rendered, one of them completes its first render. *)
Lemma X7_first_render_keeps_barrier_closed_witness :
  let c := Chart true 1 (Some (UserFn 2)) (Some (UserFn 12)) None
             (Some [10; 40]) (Some [0; 1]) [10; 40] [0; 1] [5; 20; 35] None in
  let w :=
    snd (synchronize (call 2) Example.group
           (page [Example.g0;
                  Chart true 0 (Some (UserFn 2)) (Some (UserFn 12)) None
                    (Some [10; 40]) (Some [0; 1]) [10; 40] [0; 1] [5; 20; 35] None;
                  Chart true 0 None None None None None [0; 100] [0; 1] [7; 8] None])) in
  ∃ w', first_render 2 1 w = (Ret tt, w')
    ∧ pending w' Example.group default_opts
    ∧ readycount w' = readycount w - Z.of_nat (readyFns c)
    ∧ zoomH w' = zoomH w ∧ selH w' = selH w
    ∧ heap w' !! 1%nat = Some (with_render_state false 0 c)
    ∧ (∀ g', g' ≠ 1%nat → heap w' !! g' = heap w !! g')
    ∧ trace w' = trace w ++
        call_events (drawCallback c) (VDygraph 1) [VDygraph 1; VBool true].
Proof.
  intros c w.
  apply (X7_first_render_keeps_barrier_closed 1 w Example.group default_opts 1 c).
  - constructor; vm_compute; try reflexivity. lia.
  - reflexivity.
  - reflexivity.
  - reflexivity.
  - vm_compute. reflexivity.
Defined.

(** The capture depends on the callback slots only. *)
Lemma captured_snapshots_slots (h h' : list chart) (ids : list gid) :
  (∀ g name, slot name <$> h' !! g = slot name <$> h !! g) →
  captured_snapshots h' ids = captured_snapshots h ids.
Proof.
  intros Hslots. unfold captured_snapshots. apply list_fmap_ext. intros _ g _.
  pose proof (Hslots g HDraw) as H1. pose proof (Hslots g HHighlight) as H2.
  pose proof (Hslots g HUnhighlight) as H3.
  destruct (h' !! g) as [c'|], (h !! g) as [c|]; simplify_eq/=; try done.
  unfold snapshot_of. congruence.
Qed.

(** X8: the last chart of a waiting group completes its first render:
    the countdown is one and its queue holds the one ready function of
    [synchronize].  The first render returns with the synchronization in
    place.  The draw callback of the chart was called once for the initial
    draw, before any handler was installed; then the callbacks were
    captured as the charts hold them at this moment, not at the time of
    the call of [synchronize]; then the handlers of the enabled protocols
    were installed without a redraw. *)
Theorem X8_last_first_render_releases_barrier (n : nat) (w : world) (ids : list gid)
    (o : options) (g : gid) (c : chart) :
  pending w (VDygraph <$> ids) o →
  readycount w = 1 →
  zoomH w = None → selH w = None →
  NoDup ids →
  Forall (λ g, is_Some (heap w !! g)) ids →
  Forall (λ c, plain_chart c = true) (heap w) →
  g ∈ ids →
  heap w !! g = Some c →
  is_initial_draw c = true →
  readyFns c = 1%nat →
  ∃ w', first_render (S n) g w = (Ret tt, w')
    ∧ active w' ids o (captured_snapshots (heap w) ids)
    ∧ (∀ k g' c', ids !! k = Some g' → heap w !! g' = Some c' →
         heap w' !! g' = Some
           (installed o k (if decide (g' = g) then with_render_state false 0 c' else c')))
    ∧ (∀ g', g' ∉ ids → heap w' !! g' = heap w !! g')
    ∧ trace w' = trace w ++
        call_events (drawCallback c) (VDygraph g) [VDygraph g; VBool true]
        ++ activation_events o ids.
Proof.
  intros [Hd Hg Ho Hp Hcount] Hone Hz Hs Hnd Hvalid Hplain Hin Hc Hinit Hq.
  assert (Huser : user_only (drawCallback c) = true).
  { pose proof (Forall_lookup_1 _ _ _ _ Hplain Hc) as H. unfold plain_chart in H.
    apply andb_prop in H as [H _]. by apply andb_prop in H as [H _]. }
  rewrite (first_render_draws n g c w Hc Hinit Huser). rewrite Hq.
  set (w1 := log _ _).
  cbn [fire_ready]. unfold modify_chart, modify, bind at 1.
  set (w2 := set_heap _ w1).
  assert (Hheap2 : ∀ g', heap w2 !! g' =
            if decide (g' = g) then Some (with_render_state false 0 c) else heap w !! g').
  { intros g'. subst w2 w1. cbn [heap log set_trace set_heap].
    destruct (decide (g' = g)) as [->|Hne].
    - by rewrite !list_lookup_alter_eq, Hc.
    - by rewrite !list_lookup_alter_ne. }
  assert (Hslots : ∀ g' name, slot name <$> heap w2 !! g' = slot name <$> heap w !! g').
  { intros g' name. rewrite Hheap2. destruct (decide (g' = g)) as [->|]; [|done].
    rewrite Hc. by destruct name. }
  destruct (last_ready_installs (call (S n)) ids o w2)
    as (w' & Hrun & Hact & Hout & Hat & Ht); try done.
  { eapply Forall_impl; [exact Hvalid|]. intros g' Hg'. simpl. rewrite Hheap2.
    by destruct (decide (g' = g)). }
  { apply Forall_lookup. intros g' c'. rewrite Hheap2.
    destruct (decide (g' = g)) as [->|].
    - intros [= <-]. exact (Forall_lookup_1 _ _ _ _ Hplain Hc).
    - apply (Forall_lookup_1 _ _ _ _ Hplain). }
  rewrite (bind_Ret _ _ _ _ _ Hrun). unfold bind, ret.
  exists w'. split; [done|].
  rewrite (captured_snapshots_slots _ _ _ Hslots) in Hact.
  split_all; try done.
  - intros k g' c' Hk Hc'. rewrite (Hat k g' Hk), Hheap2.
    destruct (decide (g' = g)) as [->|]; [|by rewrite Hc'].
    rewrite Hc in Hc'. by injection Hc' as <-.
  - intros g' Hg'. rewrite (Hout g' Hg'), Hheap2.
    rewrite decide_False; [done|]. by intros ->.
  - rewrite Ht. subst w2 w1. cbn [trace log set_trace set_heap]. by rewrite <- app_assoc.
Qed.

(** An instance: the third chart of the example renders last. *)
Lemma X8_last_first_render_releases_barrier_witness :
  let c := Chart true 1 None None None None None [0; 100] [0; 1] [7; 8] None in
  ∃ w', first_render 2 2 w_waiting = (Ret tt, w')
    ∧ active w' Example.ids default_opts (captured_snapshots (heap w_waiting) Example.ids)
    ∧ (∀ k g' c', Example.ids !! k = Some g' → heap w_waiting !! g' = Some c' →
         heap w' !! g' = Some
           (installed default_opts k
              (if decide (g' = 2%nat) then with_render_state false 0 c' else c')))
    ∧ (∀ g', g' ∉ Example.ids → heap w' !! g' = heap w_waiting !! g')
    ∧ trace w' = trace w_waiting ++
        call_events (drawCallback c) (VDygraph 2) [VDygraph 2; VBool true]
        ++ activation_events default_opts Example.ids.
Proof.
  intros c.
  apply (X8_last_first_render_releases_barrier 1 w_waiting Example.ids default_opts 2 c).
  - constructor; vm_compute; try reflexivity. lia.
  - reflexivity.
  - reflexivity.
  - reflexivity.
  - by (apply (bool_decide_unpack _); vm_compute).
  - by (apply (bool_decide_unpack _); vm_compute).
  - by (apply (bool_decide_unpack _); vm_compute).
  - by (apply (bool_decide_unpack _); vm_compute).
  - reflexivity.
  - reflexivity.
  - reflexivity.
Defined.

(** X9: the array form does not look at the elements of the array
    before it uses them.  When the argument check passes with a group
    whose first element that is not a Dygraph is [x] (an array of two or
    more values was given), [synchronize] calls [ready] on the charts
    before [x], in order, and then throws a TypeError on [x.ready]: the
    handle is left waiting with a countdown that stays positive, nothing
    is captured, no handler is installed, and no callback slot of any
    chart is read or written. *)
Theorem X9_array_element_not_a_chart (call' : callback → value → list value → M unit)
    (arguments : list value) (ids : list gid) (x : value) (tail : list value)
    (o : options) (w : world) :
  collect arguments = inr ((VDygraph <$> ids) ++ x :: tail, o) →
  instanceof_Dygraph x = false →
  Forall (λ g, is_Some (heap w !! g)) ids →
  ∃ w', synchronize call' arguments w = (Throw TypeError, w')
    ∧ pending w' ((VDygraph <$> ids) ++ x :: tail) o
    ∧ zoomH w' = zoomH w ∧ selH w' = selH w
    ∧ trace w' = trace w ++ (EvReady <$> ids)
    ∧ (∀ g c, heap w !! g = Some c →
         ∃ queued, heap w' !! g = Some (with_render_state (is_initial_draw c) queued c)).
Proof.
  intros Hcollect Hx Hvalid.
  pose proof (collect_size _ _ _ Hcollect) as Hsize.
  unfold synchronize. rewrite Hcollect.
  unfold modify, bind at 1.
  set (gs := (VDygraph <$> ids) ++ x :: tail) in *.
  set (w0 := World (heap w) (Some gs) (Some o) (Some [])
               (Z.of_nat (length gs)) (zoomH w) (selH w) (trace w)).
  assert (Hlen : (length ids < length gs)%nat).
  { subst gs. rewrite length_app, length_fmap. cbn [length]. lia. }
  destruct (ready_loop_pending call' ids 0 w0)
    as (w1 & Hrun & Hd & Ho & Hp & Hz & Hs & Hcount & Ht & Hh); [done|..].
  { subst w0. cbn [heap readycount]. apply inj_lt.
    eapply Nat.le_lt_trans; [apply length_filter|exact Hlen]. }
  subst gs. rewrite (for_each_app _ _ _ _ _ _ Hrun). cbn [for_each].
  assert (Hthrow : ready call' x w1 = (Throw TypeError, w1)) by (by destruct x).
  unfold bind at 1. rewrite Hthrow.
  exists w1. split; [done|]. split_all; try done.
  - constructor; try done. rewrite Hcount. subst w0. cbn [heap readycount].
    pose proof (length_filter (λ g, rendered (heap w) g = true) ids).
    rewrite length_app, length_fmap. cbn [length]. lia.
  - intros g c Hc. rewrite Hh. subst w0. cbn [heap]. rewrite Hc.
    cbn [fmap option_fmap option_map]. by eexists.
Qed.

(** An instance: [synchronize([g0, 5])] on the example page. *)
Lemma X9_array_element_not_a_chart_witness :
  ∃ w', synchronize (call 2) [VArray [VDygraph 0; VNum 5]] (page Example.charts)
        = (Throw TypeError, w')
    ∧ pending w' ((VDygraph <$> [0%nat]) ++ VNum 5 :: []) default_opts
    ∧ zoomH w' = None ∧ selH w' = None
    ∧ trace w' = [] ++ (EvReady <$> [0%nat])
    ∧ (∀ g c, Example.charts !! g = Some c →
         ∃ queued, heap w' !! g = Some (with_render_state (is_initial_draw c) queued c)).
Proof.
  apply (X9_array_element_not_a_chart (call 2) [VArray [VDygraph 0; VNum 5]] [0%nat]
           (VNum 5) [] default_opts (page Example.charts)).
  - reflexivity.
  - reflexivity.
  - by (apply (bool_decide_unpack _); vm_compute).
Defined.

(** ** The unhighlight handler *)

(** X10: the pointer leaves chart [m] of an active group, on which the
    unhighlight handler is installed.  The handler returns and the handle
    stays active.  Walking the group in order, it calls [clearSelection]
    once on every other chart, and at the position of [m] it calls the
    captured unhighlight callback of [m], if there is one, with [m] as
    receiver and the arguments of the event; it makes no other call.
    Afterwards no other chart of the group has a selection; [m] and the
    charts outside the group are as before. *)
Theorem X10_unhighlight_clears_other_charts (n i m jm : nat) (w : world) (ids : list gid)
    (o : options) (snaps : list snapshot) (c : chart) (arguments : list value) :
  active w ids o snaps →
  ids !! jm = Some m →
  heap w !! m = Some c →
  unhighlightCallback c = Some (SyncUnhighlight i) →
  ∃ w', pointer_out (S (S n)) m arguments w = (Ret tt, w')
    ∧ active w' ids o snaps
    ∧ trace w' = trace w ++
        concat ((λ g, if (g =? m)%nat
                      then call_events (snaps !! jm ≫= s_unhighlightCallback)
                             (VDygraph m) arguments
                      else [EvClearSelection g]) <$> ids)
    ∧ (∀ g cg, g ∈ ids → g ≠ m → heap w !! g = Some cg →
         heap w' !! g = Some (with_selected None cg))
    ∧ heap w' !! m = Some c
    ∧ (∀ g, g ∉ ids → heap w' !! g = heap w !! g).
Proof.
  intros Hact Hjm Hc Hslot.
  assert (Hsel : truthy (selection o) = true).
  { pose proof (Forall_lookup_1 _ _ _ _ (act_charts _ _ _ _ Hact) Hc) as Hok.
    apply chart_ok_slots in Hok as (_ & _ & Hok). by rewrite Hslot in Hok. }
  unfold pointer_out.
  rewrite (bind_Ret _ _ _ _ _ (get_chart_Some _ _ _ Hc)). rewrite Hslot.
  destruct (unhighlight_propagates n i m jm w ids o snaps arguments)
    as (w' & Hrun & Hsame & Hheap & Htrace); try done.
  exists w'. split; [done|]. split_all.
  - assert (Hslots : ∀ c, drawCallback (with_selected None c) = drawCallback c
        ∧ highlightCallback (with_selected None c) = highlightCallback c
        ∧ unhighlightCallback (with_selected None c) = unhighlightCallback c) by done.
    destruct (heap_update_slots _ _ _ _ Hslots Hheap) as [H1 H2].
    by eapply active_frame.
  - rewrite Htrace. do 2 f_equal. apply list_fmap_ext. intros k g Hg.
    unfold loop_trace. destruct (g =? m)%nat; [done|].
    destruct (Forall_lookup_1 _ _ _ _ (act_valid _ _ _ _ Hact) Hg) as [cg Hcg].
    by rewrite Hcg.
  - intros g cg Hg Hne Hcg. rewrite Hheap, decide_True, Hcg by done. done.
  - rewrite Hheap, decide_False by (intros [_ ?]; done). done.
  - intros g Hg. rewrite Hheap, decide_False by (intros [? _]; done). done.
Qed.

(** An instance: the pointer leaves the first chart of the example
    group. *)
Lemma X10_unhighlight_clears_other_charts_witness :
  let w := Example.w_default in
  ∃ w', pointer_out 2 0 [VObject []] w = (Ret tt, w')
    ∧ active w' Example.ids default_opts Example.snaps
    ∧ trace w' = trace w ++
        concat ((λ g, if (g =? 0)%nat
                      then call_events (Example.snaps !! 0%nat ≫= s_unhighlightCallback)
                             (VDygraph 0) [VObject []]
                      else [EvClearSelection g]) <$> Example.ids)
    ∧ (∀ g cg, g ∈ Example.ids → g ≠ 0%nat → heap w !! g = Some cg →
         heap w' !! g = Some (with_selected None cg))
    ∧ heap w' !! 0%nat =
        Some (Chart false 0 (Some (SyncDraw 0)) (Some (SyncHighlight 0))
                (Some (SyncUnhighlight 0)) None None [0; 100] [0; 1] [0; 10; 20; 30] None)
    ∧ (∀ g, g ∉ Example.ids → heap w' !! g = heap w !! g).
Proof.
  intros w.
  apply (X10_unhighlight_clears_other_charts 0 0 0 0 w Example.ids default_opts Example.snaps
           (Chart false 0 (Some (SyncDraw 0)) (Some (SyncHighlight 0))
              (Some (SyncUnhighlight 0)) None None [0; 100] [0; 1] [0; 10; 20; 30] None)
           [VObject []]).
  - solve_active.
  - reflexivity.
  - vm_compute; reflexivity.
  - reflexivity.
Defined.

(** ** Repeating a change of the viewport *)

(** A walk over a group of distinct charts in which only the chart that
    fired leaves events. *)
Lemma loop_trace_only_source (m : gid) (evm : list event) (ev : gid → chart → list event)
    (h : list chart) (l : list gid) :
  NoDup l →
  (∀ g c, g ∈ l → g ≠ m → h !! g = Some c → ev g c = []) →
  concat (loop_trace m evm ev h <$> l) = if decide (m ∈ l) then evm else [].
Proof.
  intros Hnd Hev. induction l as [|g l IH]; [done|].
  apply NoDup_cons in Hnd as [Hnotin Hnd].
  rewrite fmap_cons. cbn [concat]. rewrite IH; [|done|]; last first.
  { intros g' c' Hg'. apply Hev. by apply list_elem_of_further. }
  unfold loop_trace. destruct (Nat.eqb_spec g m) as [->|Hne].
  - rewrite (decide_False (P := m ∈ l)) by done.
    rewrite (decide_True (P := m ∈ m :: l)) by apply list_elem_of_here.
    by rewrite app_nil_r.
  - assert (Hnil : from_option (ev g) [] (h !! g) = []).
    { destruct (h !! g) as [c|] eqn:Hc; [|done]. cbn.
      apply Hev; [apply list_elem_of_here|done..]. }
    rewrite Hnil. cbn [app].
    destruct (decide (m ∈ l)).
    + by rewrite decide_True by (by apply list_elem_of_further).
    + rewrite decide_False; [done|]. rewrite elem_of_cons. intros [->|]; done.
Qed.

(** After the propagation with [range] enabled, a chart is configured
    with the window and the range that were propagated. *)
Lemma zoom_update_configures (xr yr : list Z) (c : chart) :
  dateWindow (zoom_update xr (Some yr) c) = Some xr
  ∧ valueRange (zoom_update xr (Some yr) c) = Some yr
  ∧ zoom_skips xr (Some yr) (zoom_update xr (Some yr) c) = true.
Proof.
  assert (H : dateWindow (zoom_update xr (Some yr) c) = Some xr
              ∧ valueRange (zoom_update xr (Some yr) c) = Some yr).
  { unfold zoom_update. destruct (zoom_skips xr (Some yr) c) eqn:Hskip.
    - by apply zoom_skips_range in Hskip.
    - done. }
  split; [apply H|]. split; [apply H|]. by apply zoom_skips_range.
Qed.

(** X11: with [range] enabled, the viewport of chart [m] of an active
    group is changed, and then changed again to the same window and
    range.  After the first change every other chart of the group is
    configured with that window and that range.  The second change
    propagates nothing: the handler calls [updateOptions] on no chart, the
    only call it makes is the captured draw callback of [m], and no chart
    changes. *)
Theorem X11_repeated_zoom_propagates_nothing (n i m jm : nat) (w : world) (ids : list gid)
    (o : options) (snaps : list snapshot) (c : chart) (xr yr : list Z) :
  active w ids o snaps →
  truthy (range o) = true →
  ids !! jm = Some m →
  heap w !! m = Some c →
  drawCallback c = Some (SyncDraw i) →
  ∃ w1 w2,
    user_zoom (S (S n)) m xr yr w = (Ret tt, w1)
    ∧ (∀ g, g ∈ ids → g ≠ m →
         ∃ c1, heap w1 !! g = Some c1
           ∧ dateWindow c1 = Some xr ∧ valueRange c1 = Some yr)
    ∧ user_zoom (S (S n)) m xr yr w1 = (Ret tt, w2)
    ∧ heap w2 = heap w1
    ∧ trace w2 = trace w1 ++
        call_events (snaps !! jm ≫= s_drawCallback) (VDygraph m) [VDygraph m; VBool false].
Proof.
  intros Hact Hrange Hjm Hc Hslot.
  destruct (user_zoom_propagates n i m jm w ids o snaps c xr yr)
    as (w1 & Hrun1 & Hact1 & Hm1 & Hother1 & _); try done.
  rewrite Hrange in Hother1.
  assert (Hconf : ∀ g, g ∈ ids → g ≠ m →
            ∃ c1, heap w1 !! g = Some c1
              ∧ dateWindow c1 = Some xr ∧ valueRange c1 = Some yr
              ∧ zoom_skips xr (Some yr) c1 = true).
  { intros g Hg Hne. rewrite (Hother1 g Hne), decide_True by done.
    apply list_elem_of_lookup_1 in Hg as [k Hk].
    destruct (Forall_lookup_1 _ _ _ _ (act_valid _ _ _ _ Hact) Hk) as [cg Hcg].
    rewrite Hcg. eexists. split; [reflexivity|]. apply zoom_update_configures. }
  destruct (user_zoom_propagates n i m jm w1 ids o snaps (with_viewport xr yr c) xr yr)
    as (w2 & Hrun2 & _ & Hm2 & Hother2 & Ht2); try done.
  rewrite Hrange in Hother2, Ht2.
  exists w1, w2. split; [done|]. split_all.
  - intros g Hg Hne. destruct (Hconf g Hg Hne) as (c1 & ? & ? & ? & _). by exists c1.
  - done.
  - apply list_eq. intros g. destruct (decide (g = m)) as [->|Hne].
    + by rewrite Hm2, Hm1.
    + rewrite (Hother2 g Hne). destruct (decide (g ∈ ids)) as [Hg|]; [|done].
      destruct (Hconf g Hg Hne) as (c1 & Hc1 & _ & _ & Hskip).
      rewrite Hc1. cbn [fmap option_fmap option_map]. unfold zoom_update. by rewrite Hskip.
  - rewrite Ht2. f_equal.
    rewrite loop_trace_only_source; [|apply Hact|].
    + rewrite decide_True; [done|]. by eapply list_elem_of_lookup_2.
    + intros g cg Hg Hne Hcg. destruct (Hconf g Hg Hne) as (c1 & Hc1 & _ & _ & Hskip).
      rewrite Hcg in Hc1. injection Hc1 as ->. unfold zoom_events_on. by rewrite Hskip.
Qed.

(** An instance: the first chart of the example group is moved twice to
    the same window. *)
Lemma X11_repeated_zoom_propagates_nothing_witness :
  let w := Example.w_default in
  ∃ w1 w2,
    user_zoom 2 0 [20; 30] [0; 5] w = (Ret tt, w1)
    ∧ (∀ g, g ∈ Example.ids → g ≠ 0%nat →
         ∃ c1, heap w1 !! g = Some c1
           ∧ dateWindow c1 = Some [20; 30] ∧ valueRange c1 = Some [0; 5])
    ∧ user_zoom 2 0 [20; 30] [0; 5] w1 = (Ret tt, w2)
    ∧ heap w2 = heap w1
    ∧ trace w2 = trace w1 ++
        call_events (Example.snaps !! 0%nat ≫= s_drawCallback) (VDygraph 0)
          [VDygraph 0; VBool false].
Proof.
  intros w.
  apply (X11_repeated_zoom_propagates_nothing 0 0 0 0 w Example.ids default_opts
           Example.snaps
           (Chart false 0 (Some (SyncDraw 0)) (Some (SyncHighlight 0))
              (Some (SyncUnhighlight 0)) None None [0; 100] [0; 1] [0; 10; 20; 30] None)).
  - solve_active.
  - reflexivity.
  - reflexivity.
  - vm_compute; reflexivity.
  - reflexivity.
Defined.

(** ** The callback slots over the life of a handle *)

(** A pointwise update of the charts of the group that keeps the
    callback slots: slots are kept everywhere, and the charts outside the
    group are as before. *)
Lemma heap_update_frame (upd : chart → chart) (P : gid → Prop) `{∀ g, Decision (P g)}
    (ids : list gid) (h h' : list chart) :
  (∀ c name, slot name (upd c) = slot name c) →
  (∀ g, P g → g ∈ ids) →
  (∀ g, h' !! g = if decide (P g) then upd <$> h !! g else h !! g) →
  (∀ g name, slot name <$> h' !! g = slot name <$> h !! g)
  ∧ (∀ g, g ∉ ids → h' !! g = h !! g).
Proof.
  intros Hupd HP Hh. split.
  - intros g name. rewrite Hh. destruct (decide (P g)); [|done].
    destruct (h !! g) as [c|]; [|done]. cbn. by rewrite Hupd.
  - intros g Hg. rewrite Hh. rewrite decide_False; [done|]. intros HPg. by apply Hg, HP.
Qed.

(** Every event on a chart of an active group runs to completion, keeps
    the handle active, leaves every callback slot as it was, and leaves
    the charts outside the group as they were. *)
Lemma fire_frame (n : nat) (ev : page_event) (w : world) (ids : list gid) (o : options)
    (snaps : list snapshot) :
  active w ids o snaps →
  target ev ∈ ids →
  ∃ w', fire (S (S n)) ev w = (Ret tt, w')
    ∧ active w' ids o snaps
    ∧ (∀ g name, slot name <$> heap w' !! g = slot name <$> heap w !! g)
    ∧ (∀ g, g ∉ ids → heap w' !! g = heap w !! g).
Proof.
  intros Hact Hin.
  destruct (fire_active n ev w ids o snaps Hact Hin) as (w' & Hrun & Hact').
  exists w'. split; [done|]. split; [done|].
  revert Hrun. pose proof Hin as Hin'.
  apply list_elem_of_lookup_1 in Hin as [jm Hjm].
  destruct (Forall_lookup_1 _ _ _ _ (act_valid _ _ _ _ Hact) Hjm) as [c Hc].
  pose proof (Forall_lookup_1 _ _ _ _ (act_charts _ _ _ _ Hact) Hc) as Hok.
  apply chart_ok_slots in Hok as (Hdraw & Hhigh & Hunhigh).
  assert (Hviewport : ∀ xr yr g,
    (∀ g' name, slot name <$> alter (with_viewport xr yr) g (heap w) !! g'
                = slot name <$> heap w !! g')).
  { intros xr yr g g' name. destruct (decide (g = g')) as [->|].
    - rewrite list_lookup_alter_eq. destruct (heap w !! g'); [|done]. by destruct name.
    - by rewrite list_lookup_alter_ne. }
  destruct ev as [g xr yr|g arguments|g arguments]; cbn [target fire] in *.
  - destruct (drawCallback c) as [[f|i|i|i]|] eqn:Hslot; try done.
    + unfold user_zoom.
      rewrite (bind_Ret _ _ _ _ _ (get_chart_Some _ _ _ Hc)).
      unfold modify_chart, modify, bind at 1, redraw.
      erewrite bind_Ret; last first.
      { apply get_chart_Some. cbn [heap set_heap]. by rewrite list_lookup_alter_eq, Hc. }
      cbn [drawCallback with_viewport]. rewrite Hslot. cbn [call].
      intros [= <-]. cbn [heap set_heap set_trace]. split; [apply Hviewport|].
      intros g' Hg'. apply list_lookup_alter_ne. by intros ->.
    + destruct (user_zoom_propagates n i g jm w ids o snaps c xr yr)
        as (w1 & Hrun1 & _ & Hm & Hother & _); try done.
      rewrite Hrun1. intros [= <-]. split.
      * intros g' name. destruct (decide (g' = g)) as [->|Hne].
        -- rewrite Hm, Hc. by destruct name.
        -- rewrite (Hother g' Hne). destruct (decide (g' ∈ ids)); [|done].
           destruct (heap w !! g') as [c'|]; [|done]. cbn.
           destruct (zoom_update_slots xr (if truthy (range o) then Some yr else None) c')
             as (H1 & H2 & H3).
           destruct name; cbn; congruence.
      * intros g' Hg'. rewrite Hother by (by intros ->). by rewrite decide_False.
    + unfold user_zoom.
      rewrite (bind_Ret _ _ _ _ _ (get_chart_Some _ _ _ Hc)).
      unfold modify_chart, modify, bind at 1, redraw.
      erewrite bind_Ret; last first.
      { apply get_chart_Some. cbn [heap set_heap]. by rewrite list_lookup_alter_eq, Hc. }
      cbn [drawCallback with_viewport]. rewrite Hslot.
      intros [= <-]. cbn [heap set_heap]. split; [apply Hviewport|].
      intros g' Hg'. apply list_lookup_alter_ne. by intros ->.
  - destruct (highlightCallback c) as [[f|i|i|i]|] eqn:Hslot; try done.
    + unfold pointer_move.
      rewrite (bind_Ret _ _ _ _ _ (get_chart_Some _ _ _ Hc)). rewrite Hslot.
      cbn [call]. by intros [= <-].
    + destruct (pointer_move_propagates n i g jm w ids o snaps c arguments)
        as (w1 & Hrun1 & _ & Hheap & _); try done.
      rewrite Hrun1. intros [= <-].
      apply (heap_update_frame (highlight_update (arg 1 arguments) (arg 4 arguments))
               (λ g', g' ∈ ids ∧ g' ≠ g) ids (heap w) (heap w1)); [|tauto|done].
      intros c' name. destruct (highlight_update_slots (arg 1 arguments) (arg 4 arguments) c')
        as (H1 & H2 & H3). by destruct name.
    + unfold pointer_move.
      rewrite (bind_Ret _ _ _ _ _ (get_chart_Some _ _ _ Hc)). rewrite Hslot.
      by intros [= <-].
  - destruct (unhighlightCallback c) as [[f|i|i|i]|] eqn:Hslot; try done.
    + unfold pointer_out.
      rewrite (bind_Ret _ _ _ _ _ (get_chart_Some _ _ _ Hc)). rewrite Hslot.
      cbn [call]. by intros [= <-].
    + unfold pointer_out.
      rewrite (bind_Ret _ _ _ _ _ (get_chart_Some _ _ _ Hc)). rewrite Hslot.
      destruct (unhighlight_propagates n i g jm w ids o snaps arguments)
        as (w1 & Hrun1 & _ & Hheap & _); try done.
      rewrite Hrun1. intros [= <-].
      apply (heap_update_frame (with_selected None)
               (λ g', g' ∈ ids ∧ g' ≠ g) ids (heap w) (heap w1)); [|tauto|done].
      intros c' name. by destruct name.
    + unfold pointer_out.
      rewrite (bind_Ret _ _ _ _ _ (get_chart_Some _ _ _ Hc)). rewrite Hslot.
      by intros [= <-].
Qed.

(** The same over a sequence of events. *)
Lemma run_frame (n : nat) (evs : list page_event) :
  ∀ (w : world) (ids : list gid) (o : options) (snaps : list snapshot),
    active w ids o snaps →
    Forall (λ ev, target ev ∈ ids) evs →
    ∃ w', run (S (S n)) evs w = (Ret tt, w')
      ∧ active w' ids o snaps
      ∧ (∀ g name, slot name <$> heap w' !! g = slot name <$> heap w !! g)
      ∧ (∀ g, g ∉ ids → heap w' !! g = heap w !! g).
Proof.
  induction evs as [|ev evs IH]; intros w ids o snaps Hact Hevs.
  - by exists w.
  - apply Forall_cons in Hevs as [Hev Hevs].
    destruct (fire_frame n ev w ids o snaps Hact Hev) as (w1 & Hrun1 & Hact1 & Hs1 & Ho1).
    destruct (IH w1 ids o snaps Hact1 Hevs) as (w' & Hrun & Hact' & Hs & Ho).
    exists w'. split; [|split; [done|split]].
    + cbn [run]. by rewrite (bind_Ret _ _ _ _ _ Hrun1).
    + intros g name. by rewrite Hs, Hs1.
    + intros g Hg. by rewrite Ho, Ho1.
Qed.

(** Restoring the snapshot of a chart on a chart that holds what the
    activation installed gives the slots the chart had. *)
Lemma detach_update_installed (o : options) (k : nat) (c c2 : chart) (name : hook) :
  (∀ name, slot name c2 = slot name (installed o k c)) →
  slot name (detach_update o (snapshot_of c) c2) = slot name c.
Proof.
  intros Hslots.
  pose proof (Hslots HDraw) as H1. pose proof (Hslots HHighlight) as H2.
  pose proof (Hslots HUnhighlight) as H3.
  unfold detach_update, installed in *.
  destruct (truthy (zoom o)), (truthy (selection o)), name; cbn in *; congruence.
Qed.

(** X12: the life of a handle.  [synchronize] is called on a valid group
    of distinct rendered charts whose callbacks are the application's; then
    any sequence of viewport changes and pointer events happens on charts
    of the group; then [detach] is called.  All three run to completion.
    The events change no callback slot, so the handlers stay installed
    while the handle is in use; after [detach] every chart holds in its
    three slots exactly what it held before [synchronize], whichever
    protocols were enabled; the handle is released; and the charts outside
    the group are as they were before [synchronize]. *)
Theorem X12_detach_after_use_restores_callbacks
    (call' : callback → value → list value → M unit) (n : nat)
    (arguments : list value) (ids : list gid) (o : options) (w : world)
    (evs : list page_event) :
  collect arguments = inr (VDygraph <$> ids, o) →
  NoDup ids →
  Forall (λ g, is_Some (heap w !! g)) ids →
  Forall (λ g, rendered (heap w) g = true) ids →
  Forall (λ c, plain_chart c = true) (heap w) →
  zoomH w = None → selH w = None →
  Forall (λ ev, target ev ∈ ids) evs →
  ∃ w1 w2 w3,
    synchronize call' arguments w = (Ret tt, w1)
    ∧ run (S (S n)) evs w1 = (Ret tt, w2)
    ∧ detach (call (S n)) w2 = (Ret tt, w3)
    ∧ (∀ g name, slot name <$> heap w2 !! g = slot name <$> heap w1 !! g)
    ∧ (∀ g name, slot name <$> heap w3 !! g = slot name <$> heap w !! g)
    ∧ (∀ g, g ∉ ids → heap w3 !! g = heap w !! g)
    ∧ dygraphs w3 = None ∧ opts w3 = None ∧ prevCallbacks w3 = None.
Proof.
  intros Hcollect Hnd Hvalid Hrendered Hplain Hz Hs Hevs.
  destruct (synchronize_installs call' arguments ids o w)
    as (w1 & Hrun1 & Hact1 & Hout1 & Hat1 & _); try done.
  destruct (run_frame n evs w1 ids o _ Hact1 Hevs) as (w2 & Hrun2 & Hact2 & Hslots2 & Hout2).
  destruct (detach_active n w2 ids o _ Hact2)
    as (w3 & Hrun3 & Hd3 & Ho3 & Hp3 & Hout3 & Hat3 & _).
  exists w1, w2, w3. split_all; try done.
  - intros g name. destruct (decide (g ∈ ids)) as [Hg|Hg].
    + apply list_elem_of_lookup_1 in Hg as [k Hk].
      destruct (Forall_lookup_1 _ _ _ _ Hvalid Hk) as [c Hc].
      assert (Hsnap : captured_snapshots (heap w) ids !! k = Some (snapshot_of c)).
      { unfold captured_snapshots. by rewrite list_lookup_fmap, Hk; cbn; rewrite Hc. }
      rewrite (Hat3 k g _ Hk Hsnap).
      pose proof (λ name, Hslots2 g name) as H2. rewrite (Hat1 k g Hk), Hc in H2.
      destruct (heap w2 !! g) as [c2|]; [|by specialize (H2 HDraw)].
      rewrite Hc. cbn [fmap option_fmap option_map]. f_equal.
      apply (detach_update_installed o k). intros name'.
      specialize (H2 name'). by injection H2.
    + by rewrite (Hout3 g Hg), (Hout2 g Hg), (Hout1 g Hg).
  - intros g Hg. by rewrite (Hout3 g Hg), (Hout2 g Hg), (Hout1 g Hg).
Qed.

(** An instance: the example page, a zoom, a pointer move and a pointer
    exit. *)
Lemma X12_detach_after_use_restores_callbacks_witness :
  let w := page Example.charts in
  let evs := [Zoom 0 [20; 30] [0; 5];
              PointerMove 1 [VObject []; VNum 20; VArray []; VNum 1; VStr "temp"];
              PointerOut 1 [VObject []]] in
  ∃ w1 w2 w3,
    synchronize (call 2) Example.group w = (Ret tt, w1)
    ∧ run 2 evs w1 = (Ret tt, w2)
    ∧ detach (call 1) w2 = (Ret tt, w3)
    ∧ (∀ g name, slot name <$> heap w2 !! g = slot name <$> heap w1 !! g)
    ∧ (∀ g name, slot name <$> heap w3 !! g = slot name <$> heap w !! g)
    ∧ (∀ g, g ∉ Example.ids → heap w3 !! g = heap w !! g)
    ∧ dygraphs w3 = None ∧ opts w3 = None ∧ prevCallbacks w3 = None.
Proof.
  intros w evs.
  apply (X12_detach_after_use_restores_callbacks (call 2) 0 Example.group Example.ids
           default_opts w evs).
  - vm_compute; reflexivity.
  - by (apply (bool_decide_unpack _); vm_compute).
  - by (apply (bool_decide_unpack _); vm_compute).
  - by (apply (bool_decide_unpack _); vm_compute).
  - by (apply (bool_decide_unpack _); vm_compute).
  - reflexivity.
  - reflexivity.
  - by (apply (bool_decide_unpack _); vm_compute).
Defined.

(** ** After [detach] *)

(** With [selection] disabled a well-formed highlight or unhighlight slot
    holds a callback of the application. *)
Lemma slot_ok_selection_disabled (o : options) (name : hook) (cb : option callback) :
  truthy (selection o) = false → name ≠ HDraw → slot_ok o name cb = true →
  user_only cb = true.
Proof.
  intros Hsel Hname. destruct cb as [[]|], name; cbn; try done; by rewrite Hsel.
Qed.

(** Restoring a snapshot of callbacks of the application on a well-formed
    chart leaves only callbacks of the application in its slots. *)
Lemma detach_update_plain (o : options) (s : snapshot) (c : chart) :
  snapshot_ok s = true → chart_ok o c = true → plain_chart (detach_update o s c) = true.
Proof.
  intros Hs Hc.
  apply snapshot_ok_fields in Hs as (S1 & S2 & S3).
  apply chart_ok_slots in Hc as (C1 & C2 & C3).
  unfold plain_chart, detach_update.
  destruct (truthy (zoom o)) eqn:Ez, (truthy (selection o)) eqn:Es; cbn;
    rewrite ?S1, ?S2, ?S3, ?(slot_ok_disabled o _ Ez C1),
      ?(slot_ok_selection_disabled o HHighlight _ Es ltac:(done) C2),
      ?(slot_ok_selection_disabled o HUnhighlight _ Es ltac:(done) C3); done.
Qed.

(** An event on a chart whose callbacks are the application's: the
    callback of the event is called, a change of the viewport is recorded
    on the chart, and nothing else happens. *)
Lemma fire_plain (n : nat) (ev : page_event) (c : chart) (w : world) :
  heap w !! target ev = Some c →
  plain_chart c = true →
  ∃ w' delta, fire (S n) ev w = (Ret tt, w')
    ∧ same_handle w w'
    ∧ heap w' = match ev with
                | Zoom g xr yr => alter (with_viewport xr yr) g (heap w)
                | _ => heap w
                end
    ∧ trace w' = trace w ++ delta
    ∧ (∀ e, e ∈ delta → is_Some (called e)).
Proof.
  intros Hc Hplain. unfold plain_chart in Hplain.
  apply andb_prop in Hplain as [Hplain H3]. apply andb_prop in Hplain as [H1 H2].
  assert (Hcalls : ∀ cb this args e,
            e ∈ call_events cb this args → is_Some (called e)).
  { intros cb this args e He. apply call_events_elem in He as (f & _ & ->). by eexists. }
  destruct ev as [g xr yr|g arguments|g arguments]; cbn [target fire] in *.
  - unfold user_zoom.
    rewrite (bind_Ret _ _ _ _ _ (get_chart_Some _ _ _ Hc)).
    unfold modify_chart, modify, bind at 1, redraw.
    erewrite bind_Ret; last first.
    { apply get_chart_Some. cbn [heap set_heap]. by rewrite list_lookup_alter_eq, Hc. }
    cbn [drawCallback with_viewport].
    rewrite (call_user_only n (drawCallback c) _ _ _ H1).
    eexists _, _. split; [reflexivity|]. split; [by repeat split|].
    split; [done|]. split; [done|]. apply Hcalls.
  - unfold pointer_move.
    rewrite (bind_Ret _ _ _ _ _ (get_chart_Some _ _ _ Hc)).
    rewrite (call_user_only n (highlightCallback c) _ _ _ H2).
    eexists _, _. split; [reflexivity|]. split; [by repeat split|].
    split; [done|]. split; [done|]. apply Hcalls.
  - unfold pointer_out.
    rewrite (bind_Ret _ _ _ _ _ (get_chart_Some _ _ _ Hc)).
    rewrite (call_user_only n (unhighlightCallback c) _ _ _ H3).
    eexists _, _. split; [reflexivity|]. split; [by repeat split|].
    split; [done|]. split; [done|]. apply Hcalls.
Qed.

(** A sequence of events on charts whose callbacks are the
    application's. *)
Lemma run_plain (n : nat) (ids : list gid) (evs : list page_event) :
  ∀ w : world,
    (∀ g, g ∈ ids → ∃ c, heap w !! g = Some c ∧ plain_chart c = true) →
    Forall (λ ev, target ev ∈ ids) evs →
    ∃ w' delta, run (S n) evs w = (Ret tt, w')
      ∧ same_handle w w'
      ∧ trace w' = trace w ++ delta
      ∧ (∀ e, e ∈ delta → is_Some (called e))
      ∧ (∀ g, (∀ xr yr, Zoom g xr yr ∉ evs) → heap w' !! g = heap w !! g)
      ∧ (∀ g c, heap w !! g = Some c →
           heap w' !! g = Some c ∨ ∃ xr yr, heap w' !! g = Some (with_viewport xr yr c)).
Proof.
  induction evs as [|ev evs IH]; intros w Hplain Hevs.
  - exists w, []. cbn [run]. split; [done|]. split; [apply same_handle_refl|].
    split; [by rewrite app_nil_r|]. split; [by intros e He%elem_of_nil|].
    split; [done|]. intros g c Hc. by left.
  - apply Forall_cons in Hevs as [Hev Hevs].
    destruct (Hplain _ Hev) as (c & Hc & Hpc).
    destruct (fire_plain n ev c w Hc Hpc) as (w1 & d1 & Hrun1 & Hsame1 & Hheap1 & Ht1 & Hd1).
    assert (Hstep : ∀ g cg, heap w !! g = Some cg →
              heap w1 !! g = Some cg
              ∨ ∃ xr yr, ev = Zoom g xr yr ∧ heap w1 !! g = Some (with_viewport xr yr cg)).
    { intros g cg Hcg. rewrite Hheap1. destruct ev as [g' xr yr| |]; try by left.
      destruct (decide (g' = g)) as [->|Hne].
      - right. exists xr, yr. by rewrite list_lookup_alter_eq, Hcg.
      - left. by rewrite list_lookup_alter_ne. }
    destruct (IH w1) as (w' & d & Hrun & Hsame & Ht & Hd & Hkeep & Hview); [|done|].
    { intros g Hg. destruct (Hplain g Hg) as (cg & Hcg & Hpg).
      destruct (Hstep g cg Hcg) as [H|(xr & yr & _ & H)]; eauto. }
    exists w', (d1 ++ d). split; [|split; [|split; [|split; [|split]]]].
    + cbn [run]. by rewrite (bind_Ret _ _ _ _ _ Hrun1).
    + by eapply same_handle_trans.
    + by rewrite Ht, Ht1, <- app_assoc.
    + intros e. rewrite elem_of_app. intros [He|He]; auto.
    + intros g Hg. rewrite Hkeep.
      * rewrite Hheap1. destruct ev as [g' xr yr| |]; try done.
        apply list_lookup_alter_ne. intros ->. apply (Hg xr yr), list_elem_of_here.
      * intros xr yr Hin. apply (Hg xr yr). by apply list_elem_of_further.
    + intros g cg Hcg.
      destruct (Hstep g cg Hcg) as [H|(xr & yr & _ & H)].
      * exact (Hview g cg H).
      * right. destruct (Hview g _ H) as [H'|(xr' & yr' & H')]; eauto.
Qed.

(** X13: after [detach] on an active handle the charts of the group are
    independent again.  [detach] returns, and then every sequence of
    viewport changes and pointer events on charts of the group runs to
    completion with no call on any chart: no [updateOptions], no
    [setSelection], no [clearSelection]; the only thing called is a
    callback of the application.  A chart changes only through its own
    viewport changes, and then only in its viewport. *)
Theorem X13_no_propagation_after_detach (n : nat) (w : world) (ids : list gid)
    (o : options) (snaps : list snapshot) (evs : list page_event) :
  active w ids o snaps →
  Forall (λ ev, target ev ∈ ids) evs →
  ∃ w1 w2 delta,
    detach (call (S n)) w = (Ret tt, w1)
    ∧ run (S n) evs w1 = (Ret tt, w2)
    ∧ trace w2 = trace w1 ++ delta
    ∧ (∀ e, e ∈ delta → is_Some (called e))
    ∧ (∀ g, (∀ xr yr, Zoom g xr yr ∉ evs) → heap w2 !! g = heap w1 !! g)
    ∧ (∀ g c, heap w1 !! g = Some c →
         heap w2 !! g = Some c ∨ ∃ xr yr, heap w2 !! g = Some (with_viewport xr yr c)).
Proof.
  intros Hact Hevs.
  destruct (detach_active n w ids o snaps Hact)
    as (w1 & Hrun1 & _ & _ & _ & _ & Hat & _).
  destruct (run_plain n ids evs w1) as (w2 & delta & Hrun2 & _ & Ht & Hd & Hkeep & Hview);
    [|done|].
  { intros g Hg. apply list_elem_of_lookup_1 in Hg as [k Hk].
    destruct (Forall_lookup_1 _ _ _ _ (act_valid _ _ _ _ Hact) Hk) as [c Hc].
    destruct (lookup_lt_is_Some_2 snaps k) as [s Hs].
    { rewrite (act_length _ _ _ _ Hact). by eapply lookup_lt_Some. }
    exists (detach_update o s c). split.
    - by rewrite (Hat k g s Hk Hs), Hc.
    - apply detach_update_plain.
      + exact (Forall_lookup_1 _ _ _ _ (act_snaps _ _ _ _ Hact) Hs).
      + exact (Forall_lookup_1 _ _ _ _ (act_charts _ _ _ _ Hact) Hc). }
  by exists w1, w2, delta.
Qed.

(** An instance: the example group is detached, and then the first chart
    is moved and the pointer passes over the second chart. *)
Lemma X13_no_propagation_after_detach_witness :
  let evs := [Zoom 0 [20; 30] [0; 5];
              PointerMove 1 [VObject []; VNum 20; VArray []; VNum 1; VStr "temp"];
              PointerOut 1 [VObject []]] in
  ∃ w1 w2 delta,
    detach (call 1) Example.w_default = (Ret tt, w1)
    ∧ run 1 evs w1 = (Ret tt, w2)
    ∧ trace w2 = trace w1 ++ delta
    ∧ (∀ e, e ∈ delta → is_Some (called e))
    ∧ (∀ g, (∀ xr yr, Zoom g xr yr ∉ evs) → heap w2 !! g = heap w1 !! g)
    ∧ (∀ g c, heap w1 !! g = Some c →
         heap w2 !! g = Some c ∨ ∃ xr yr, heap w2 !! g = Some (with_viewport xr yr c)).
Proof.
  intros evs.
  apply (X13_no_propagation_after_detach 0 Example.w_default Example.ids default_opts
           Example.snaps evs).
  - solve_active.
  - by (apply (bool_decide_unpack _); vm_compute).
Defined.

(** ** A protocol that is not enabled *)

(** An event on a chart whose slot for that event holds a callback of the
    application, or nothing. *)
Lemma fire_user_only (n : nat) (ev : page_event) (c : chart) (w : world) :
  heap w !! target ev = Some c →
  user_only (slot (hook_of ev) c) = true →
  ∃ w' delta, fire (S n) ev w = (Ret tt, w')
    ∧ same_handle w w'
    ∧ heap w' = match ev with
                | Zoom g xr yr => alter (with_viewport xr yr) g (heap w)
                | _ => heap w
                end
    ∧ trace w' = trace w ++ delta
    ∧ delta = call_events (slot (hook_of ev) c) (VDygraph (target ev))
                match ev with
                | Zoom g _ _ => [VDygraph g; VBool false]
                | PointerMove _ arguments | PointerOut _ arguments => arguments
                end.
Proof.
  intros Hc Huser.
  destruct ev as [g xr yr|g arguments|g arguments]; cbn [target fire hook_of slot] in *.
  - unfold user_zoom.
    rewrite (bind_Ret _ _ _ _ _ (get_chart_Some _ _ _ Hc)).
    unfold modify_chart, modify, bind at 1, redraw.
    erewrite bind_Ret; last first.
    { apply get_chart_Some. cbn [heap set_heap]. by rewrite list_lookup_alter_eq, Hc. }
    cbn [drawCallback with_viewport].
    rewrite (call_user_only n (drawCallback c) _ _ _ Huser).
    eexists _, _. split; [reflexivity|]. split; [by repeat split|]. done.
  - unfold pointer_move.
    rewrite (bind_Ret _ _ _ _ _ (get_chart_Some _ _ _ Hc)).
    rewrite (call_user_only n (highlightCallback c) _ _ _ Huser).
    eexists _, _. split; [reflexivity|]. split; [by repeat split|]. done.
  - unfold pointer_out.
    rewrite (bind_Ret _ _ _ _ _ (get_chart_Some _ _ _ Hc)).
    rewrite (call_user_only n (unhighlightCallback c) _ _ _ Huser).
    eexists _, _. split; [reflexivity|]. split; [by repeat split|]. done.
Qed.

(** X16: a protocol that is not enabled is not synchronized.  On an
    active handle with [zoom] falsy, a change of the viewport of a chart
    changes the viewport of that chart and nothing else, and the only call
    is the chart's own draw callback; with [selection] falsy, a pointer
    event changes no chart, and the only call is the chart's own highlight
    or unhighlight callback.  No [updateOptions], [setSelection] or
    [clearSelection] is called on any chart. *)
Theorem X16_disabled_protocol_is_not_synchronized (n : nat) (w : world) (ids : list gid)
    (o : options) (snaps : list snapshot) (ev : page_event) (c : chart) :
  active w ids o snaps →
  heap w !! target ev = Some c →
  synchronizes o ev = false →
  ∃ w', fire (S n) ev w = (Ret tt, w')
    ∧ heap w' = match ev with
                | Zoom g xr yr => alter (with_viewport xr yr) g (heap w)
                | _ => heap w
                end
    ∧ trace w' = trace w ++
        call_events (slot (hook_of ev) c) (VDygraph (target ev))
          match ev with
          | Zoom g _ _ => [VDygraph g; VBool false]
          | PointerMove _ arguments | PointerOut _ arguments => arguments
          end
    ∧ user_only (slot (hook_of ev) c) = true.
Proof.
  intros Hact Hc Hoff.
  pose proof (Forall_lookup_1 _ _ _ _ (act_charts _ _ _ _ Hact) Hc) as Hok.
  apply chart_ok_slots in Hok as (C1 & C2 & C3).
  assert (Huser : user_only (slot (hook_of ev) c) = true).
  { destruct ev; cbn [synchronizes hook_of slot] in *.
    - by apply (slot_ok_disabled o).
    - by apply (slot_ok_selection_disabled o HHighlight).
    - by apply (slot_ok_selection_disabled o HUnhighlight). }
  destruct (fire_user_only n ev c w Hc Huser) as (w' & delta & Hrun & _ & Hheap & Ht & ->).
  by exists w'.
Qed.

(** An instance: the example group synchronized with [zoom: false]; the
    first chart is moved. *)
Lemma X16_disabled_protocol_is_not_synchronized_witness :
  let w := Example.w_selection_only in
  let ev := Zoom 0 [20; 30] [0; 5] in
  let c := Chart false 0 (Some (UserFn 1)) (Some (SyncHighlight 0))
             (Some (SyncUnhighlight 0)) None None [0; 100] [0; 1] [0; 10; 20; 30] None in
  ∃ w', fire 1 ev w = (Ret tt, w')
    ∧ heap w' = alter (with_viewport [20; 30] [0; 5]) 0%nat (heap w)
    ∧ trace w' = trace w ++
        call_events (slot (hook_of ev) c) (VDygraph (target ev)) [VDygraph 0; VBool false]
    ∧ user_only (slot (hook_of ev) c) = true.
Proof.
  intros w ev c.
  apply (X16_disabled_protocol_is_not_synchronized 0 w Example.ids Example.selection_only
           Example.snaps ev c).
  - solve_active.
  - vm_compute; reflexivity.
  - reflexivity.
Defined.

(** ** [detach] with both protocols disabled *)

(** With both protocols disabled the loop of [detach] reads [opts] and
    does nothing else, whatever the group holds. *)
Lemma detach_loop_disabled (call' : callback → value → list value → M unit)
    (o : options) (w : world) (gs : list value) :
  opts w = Some o →
  truthy (zoom o) = false → truthy (selection o) = false →
  ∀ j, for_each (detach_chart call') j gs w = (Ret tt, w).
Proof.
  intros Ho Hz Hs. induction gs as [|g gs IH]; intros j; [done|].
  cbn [for_each].
  assert (Hstep : detach_chart call' j g w = (Ret tt, w)).
  { unfold detach_chart, deref, bind, ret. rewrite Ho, Hz. cbn iota beta.
    by rewrite Ho, Hs. }
  by rewrite (bind_Ret _ _ _ _ _ Hstep).
Qed.

(** X14: [detach] before the barrier has released, with [zoom] and
    [selection] both disabled.  Nothing needs to be restored, so the
    absent entries of [prevCallbacks] are never read: [detach] returns,
    makes no call on any chart, and sets the three variables of the handle
    to null.  The ready functions stay in the queues of the charts: the one
    that brings the countdown to zero then throws a TypeError on
    [dygraphs.length]. *)
Theorem X14_early_detach_with_protocols_disabled
    (call' : callback → value → list value → M unit)
    (w : world) (gs : list value) (o : options) :
  pending w gs o →
  truthy (zoom o) = false →
  truthy (selection o) = false →
  ∃ w1, detach call' w = (Ret tt, w1)
    ∧ dygraphs w1 = None ∧ opts w1 = None ∧ prevCallbacks w1 = None
    ∧ readycount w1 = readycount w
    ∧ heap w1 = heap w ∧ trace w1 = trace w
    ∧ (∀ w2, dygraphs w2 = None → readycount w2 = 1 →
         ready_callback call' w2 = (Throw TypeError, set_readycount 0 w2)).
Proof.
  intros [Hd Hg Ho Hp Hcount] Hz Hs.
  unfold detach. unfold deref at 1, bind at 1. rewrite Hd.
  rewrite (bind_Ret _ _ _ _ _ (detach_loop_disabled call' o w gs Ho Hz Hs 0%nat)).
  eexists. split; [reflexivity|]. split_all; try done.
  intros w2 Hd2 Hn2.
  unfold ready_callback, gets, modify, bind at 1 2. rewrite Hn2.
  change (negb (1 - 1 =? 0)) with false. cbn iota.
  unfold deref, bind. cbn [dygraphs set_readycount]. by rewrite Hd2.
Qed.

(** An instance: [synchronize(g0, g1, g2, {zoom: false, selection: false})]
    on a page whose third chart has not rendered. *)
Lemma X14_early_detach_with_protocols_disabled_witness :
  let o := Options (VBool false) (VBool false) (VBool true) in
  let w :=
    snd (synchronize (call 2)
           (Example.group ++ [VObject [("zoom"%string, VBool false);
                                       ("selection"%string, VBool false)]])
           (page [Example.g0; Example.g1;
                  Chart true 0 None None None None None [0; 100] [0; 1] [7; 8] None])) in
  ∃ w1, detach (call 2) w = (Ret tt, w1)
    ∧ dygraphs w1 = None ∧ opts w1 = None ∧ prevCallbacks w1 = None
    ∧ readycount w1 = readycount w
    ∧ heap w1 = heap w ∧ trace w1 = trace w
    ∧ (∀ w2, dygraphs w2 = None → readycount w2 = 1 →
         ready_callback (call 2) w2 = (Throw TypeError, set_readycount 0 w2)).
Proof.
  intros o w.
  apply (X14_early_detach_with_protocols_disabled (call 2) w Example.group o).
  - constructor; vm_compute; try reflexivity. lia.
  - reflexivity.
  - reflexivity.
Defined.

(** ** [synchronize] calls no function of the application *)

(** Returning a value. *)
Lemma quiet_ret {A} (a : A) : quiet (ret a).
Proof. by intros w. Qed.

(** Throwing. *)
Lemma quiet_throw {A} (e : exn) : quiet (throw (A := A) e).
Proof. by intros w. Qed.

(** Reading a variable. *)
Lemma quiet_gets {A} (f : world → A) : quiet (gets f).
Proof. by intros w. Qed.

(** Reading a variable that must not be null. *)
Lemma quiet_deref {A} (f : world → option A) : quiet (deref f).
Proof. intros w. unfold deref. by destruct (f w). Qed.

(** A write that leaves the trace alone. *)
Lemma quiet_modify (f : world → world) :
  (∀ w, trace (f w) = trace w) → quiet (modify f).
Proof. intros Hf w. cbn. by rewrite Hf. Qed.

(** Recording an event that is not a call of the application. *)
Lemma quiet_emit (e : event) : called e = None → quiet (emit e).
Proof.
  intros He w. cbn. rewrite omap_app. cbn. rewrite He. by rewrite app_nil_r.
Qed.

(** Sequencing. *)
Lemma quiet_bind {A B} (m : M A) (k : A → M B) :
  quiet m → (∀ a, quiet (k a)) → quiet (bind m k).
Proof.
  intros Hm Hk w. unfold bind. specialize (Hm w).
  destruct (m w) as [[a|e] w']; cbn in *; [|done].
  by rewrite (Hk a w').
Qed.

(** A loop whose turns are quiet. *)
Lemma quiet_for_each {A} (body : nat → A → M unit) (l : list A) :
  (∀ j x, quiet (body j x)) → ∀ j, quiet (for_each body j l).
Proof.
  intros Hbody. induction l as [|x l IH]; intros j; cbn [for_each].
  - apply quiet_ret.
  - apply quiet_bind; [apply Hbody|]. intros _. apply IH.
Qed.

(** Resolving the receiver of a Dygraph method. *)
Lemma quiet_as_dygraph (v : value) : quiet (as_dygraph v).
Proof.
  destruct v; try apply quiet_throw.
  apply quiet_bind; [apply quiet_deref|]. intros _. apply quiet_ret.
Qed.

(** Changing a chart. *)
Lemma quiet_modify_chart (g : gid) (f : chart → chart) : quiet (modify_chart g f).
Proof. by apply quiet_modify. Qed.

(** Reading a callback does not call it. *)
Lemma quiet_getFunctionOption (v : value) (name : hook) : quiet (getFunctionOption v name).
Proof.
  apply quiet_bind; [apply quiet_as_dygraph|]. intros g.
  apply quiet_bind; [by apply quiet_emit|]. intros _.
  apply quiet_bind; [apply quiet_deref|]. intros c. apply quiet_ret.
Qed.

(** Storing a captured callback. *)
Lemma quiet_store_previous (j : nat) (name : hook) (v : option callback) :
  quiet (store_previous j name v).
Proof.
  apply quiet_bind; [apply quiet_deref|]. intros prev.
  destruct (prev !! j) as [[s|]|]; try apply quiet_throw. by apply quiet_modify.
Qed.

(** One turn of the capture. *)
Lemma quiet_capture (j : nat) (gj : value) : quiet (capture j gj).
Proof.
  apply quiet_bind; [apply quiet_deref|]. intros prev.
  apply quiet_bind.
  { destruct (prev !! j) as [[s|]|]; try apply quiet_ret; by apply quiet_modify. }
  intros _.
  apply quiet_bind; [apply quiet_getFunctionOption|]. intros u.
  apply quiet_bind; [apply quiet_store_previous|]. intros _.
  apply quiet_bind; [apply quiet_getFunctionOption|]. intros h.
  apply quiet_bind; [apply quiet_store_previous|]. intros _.
  apply quiet_bind; [apply quiet_getFunctionOption|]. intros d.
  apply quiet_store_previous.
Qed.

(** [updateOptions] with the redraw blocked runs no callback, whatever
    the way callbacks run. *)
Lemma quiet_updateOptions_blocked (call' : callback → value → list value → M unit)
    (v : value) (p : patch) :
  quiet (updateOptions call' v p true).
Proof.
  apply quiet_bind; [apply quiet_as_dygraph|]. intros g.
  apply quiet_bind; [by apply quiet_emit|]. intros _.
  apply quiet_bind; [apply quiet_modify_chart|]. intros _. apply quiet_ret.
Qed.

(** The function handed to [ready], whether it releases the barrier or
    not. *)
Lemma quiet_ready_callback (call' : callback → value → list value → M unit) :
  quiet (ready_callback call').
Proof.
  apply quiet_bind; [apply quiet_gets|]. intros n.
  apply quiet_bind; [by apply quiet_modify|]. intros _.
  destruct (negb (n - 1 =? 0)); [apply quiet_ret|].
  apply quiet_bind; [apply quiet_deref|]. intros gs.
  apply quiet_bind; [apply quiet_for_each, quiet_capture|]. intros _.
  apply quiet_bind; [apply quiet_deref|]. intros o.
  apply quiet_bind.
  { destruct (truthy (zoom o)); [|apply quiet_ret].
    apply quiet_bind; [apply quiet_gets|]. intros gs'.
    apply quiet_bind; [apply quiet_gets|]. intros prev.
    apply quiet_bind; [apply quiet_deref|]. intros gs''.
    apply quiet_bind; [by apply quiet_modify|]. intros _.
    apply quiet_for_each. intros j x. apply quiet_updateOptions_blocked. }
  intros _.
  apply quiet_bind; [apply quiet_deref|]. intros o'.
  destruct (truthy (selection o')); [|apply quiet_ret].
  apply quiet_bind; [apply quiet_gets|]. intros gs'.
  apply quiet_bind; [apply quiet_gets|]. intros prev.
  apply quiet_bind; [apply quiet_deref|]. intros gs''.
  apply quiet_bind; [by apply quiet_modify|]. intros _.
  apply quiet_for_each. intros j x. apply quiet_updateOptions_blocked.
Qed.

(** [ready], whether the function is queued or run at once. *)
Lemma quiet_ready (call' : callback → value → list value → M unit) (v : value) :
  quiet (ready call' v).
Proof.
  apply quiet_bind; [apply quiet_as_dygraph|]. intros g.
  apply quiet_bind; [by apply quiet_emit|]. intros _.
  apply quiet_bind; [apply quiet_deref|]. intros c.
  destruct (is_initial_draw c); [apply quiet_modify_chart|apply quiet_ready_callback].
Qed.

(** X15: [synchronize] never calls a function of the application, and
    never runs a handler.  Whatever the arguments (valid or not), whatever
    the charts hold in their callback slots, whether they have rendered or
    not, and whether the call returns or throws: the outcome does not
    depend on how callbacks would run, and the calls of functions of the
    application recorded are the same after the call as before.  Reading
    the callbacks does not call them, and the handlers are installed with
    the redraw blocked. *)
Theorem X15_synchronize_calls_no_callback
    (call1 call2 : callback → value → list value → M unit)
    (arguments : list value) (w : world) :
  synchronize call1 arguments w = synchronize call2 arguments w
  ∧ omap called (trace (synchronize call1 arguments w).2) = omap called (trace w).
Proof.
  split; [reflexivity|].
  revert w. change (quiet (synchronize call1 arguments)).
  unfold synchronize. destruct (collect arguments) as [e|[gs o]].
  - apply quiet_throw.
  - apply quiet_bind; [by apply quiet_modify|]. intros _.
    apply quiet_for_each. intros j g. apply quiet_ready.
Qed.
